(** * The scan-line write pipeline of OpenEXR's [OutputFile]

    A shallow embedding of [src/lib/OpenEXR/ImfOutputFile.cpp] and the
    properties of its write path: frame-buffer binding, the line-buffer
    tasks, the sliding-window drain loop of [writePixels], the chunk
    records of [writePixelData] and the quick copy of [copyPixels].

    Conventions of the embedding.
    - C++ [int], [size_t] and [uint64_t] values are integers of [Z].  Signed
      overflow is undefined in the source and is not modelled; conversions
      between [int] and [size_t] that the source relies on (the slot hash of
      [getLineBuffer]) are written out with their wrap-around.
    - [/] on [int] truncates towards zero: [Z.quot].
    - Pointers into a line buffer are byte offsets from its start; user
      memory is reached only through [copyFromFrameBuffer].
    - A call either returns, throws, or leaves the model ([Undefined]): an
      index outside a vector, a loop that cannot reach its bound, a read of
      more bytes than a block holds, or a loop that outruns its budget.
    - The tasks of one [writePixels] call touch one slot each, under that
      slot's semaphore ([wait] in the task's constructor, [post] in its
      destructor), and read only fields of [Data] that [writePixels] never
      writes.  The calling thread reads a slot only after waiting for the
      same semaphore.  The effect of a task on its slot is therefore the
      same whenever it runs; a task is executed at the place where it is
      queued, as the thread pool does when it has no worker threads. *)

From Stdlib Require Import ZArith Lia List String Ascii.
From Stdlib.Strings Require Import Byte.
From stdpp Require Import base option list strings gmap pretty.

Local Open Scope Z_scope.

(** ** Header data *)

Inductive PixelType := UINT | HALF | FLOAT.

Inductive LineOrder := INCREASING_Y | DECREASING_Y | RANDOM_Y.

(** [Compressor::Format]: the layout a compressor wants its input in. *)
Inductive Format := NATIVE | XDR.

(** The header's compression kind; only compared for equality here. *)
Definition Compression := Z.

Module V2i.
Record t := mk { x : Z; y : Z }.
End V2i.

Module Box2i.
Record t := mk { min : V2i.t; max : V2i.t }.
End Box2i.

Module Channel.
Record t := mk {
  type : PixelType;
  xSampling : Z;
  ySampling : Z;
  pLinear : bool }.
End Channel.

(** The part of a frame-buffer [Slice] that [setFrameBuffer] reads. *)
Module Slice.
Record t := mk {
  type : PixelType;
  base : Z;
  xStride : Z;
  yStride : Z;
  xSampling : Z;
  ySampling : Z }.
End Slice.

(** A [ChannelList] is iterated in the order of its names; a
    [FrameBuffer] is only searched by name. *)
Abbreviation ChannelList := (list (string * Channel.t)).
Abbreviation FrameBuffer := (gmap string Slice.t).

Module Header.
Record t := mk {
  dataWindow : Box2i.t;
  lineOrder : LineOrder;
  compression : Compression;
  channels : ChannelList;
  hasTiles : bool (* find ("tiles") != end () *) }.
End Header.

#[global] Instance PixelType_eq_dec : EqDecision PixelType.
Proof. solve_decision. Defined.

#[global] Instance LineOrder_eq_dec : EqDecision LineOrder.
Proof. solve_decision. Defined.

#[global] Instance Format_eq_dec : EqDecision Format.
Proof. solve_decision. Defined.

#[global] Instance V2i_eq_dec : EqDecision V2i.t.
Proof. solve_decision. Defined.

#[global] Instance Box2i_eq_dec : EqDecision Box2i.t.
Proof. solve_decision. Defined.

#[global] Instance Channel_eq_dec : EqDecision Channel.t.
Proof. solve_decision. Defined.

(** ** Exceptions *)

Inductive Exc :=
  | ArgExc (what : string)
  | LogicExc (what : string)
  | IoExc (what : string).

Definition what (e : Exc) : string :=
  match e with ArgExc w | LogicExc w | IoExc w => w end.

(** [REPLACE_EXC (e, text)]: the exception keeps its type, its message
    becomes [text]. *)
Definition REPLACE_EXC (e : Exc) (text : string) : Exc :=
  match e with
  | ArgExc _ => ArgExc text
  | LogicExc _ => LogicExc text
  | IoExc _ => IoExc text
  end.

(** What a task's [catch] clauses see: a [std::exception] with its
    [what ()], or anything else. *)
Inductive Thrown :=
  | StdException (what : string)
  | OtherThrown.

Definition dq : string := String (ascii_of_nat 34) EmptyString.

(** ** Output stream *)

(** An [OStream] as a file: its bytes and the put position. *)
Module OStream.
Record t := mk {
  fileName : string;
  bytes : list byte;
  pos : Z }.
End OStream.

Definition tellp (os : OStream.t) : Z := OStream.pos os.

(** Storing [bs] at byte offset [off] of a block, which is first padded
    with zero bytes up to [off] when it is shorter. *)
Definition store (off : Z) (bs : list byte) (block : list byte) : list byte :=
  let n := Z.to_nat off in
  let padded := block ++ replicate (n - length block)%nat x00 in
  take n padded ++ bs ++ drop (n + length bs)%nat padded.

Definition os_write (bs : list byte) (os : OStream.t) : OStream.t :=
  OStream.mk (OStream.fileName os)
             (store (OStream.pos os) bs (OStream.bytes os))
             (OStream.pos os + Z.of_nat (length bs)).

(** The bytes of a block from offset [off], [n] of them. *)
Definition peek (off : Z) (n : nat) (block : list byte) : list byte :=
  take n (drop (Z.to_nat off) block).

(** Modelled from the spec: [Xdr::write <StreamIO> (os, int)] and
    [Xdr::size <int> ()] of ImfXdr.h, which is not among the sources.  The
    chunk record of the spec gives each of these fields as a 4-byte integer;
    the four bytes are those of the two's complement value, least
    significant first. *)
Definition byte_of_Z (z : Z) : byte :=
  match Byte.of_N (Z.to_N (z mod 256)) with
  | Some b => b
  | None => x00
  end.

Definition Xdr_int (v : Z) : list byte :=
  [byte_of_Z v; byte_of_Z (Z.shiftr v 8);
   byte_of_Z (Z.shiftr v 16); byte_of_Z (Z.shiftr v 24)].

Definition Xdr_size_int : Z := 4.

Definition Xdr_write_int (v : Z) (os : OStream.t) : OStream.t :=
  os_write (Xdr_int v) os.

(** [OutputStreamMutex]: the stream and the cached put position, 0 when
    the position is not known. *)
Module OutputStreamMutex.
Record t := mk {
  os : OStream.t;
  currentPosition : Z }.
End OutputStreamMutex.

(** ** Line buffers *)

Module OutSliceInfo.
Record t := mk {
  type : PixelType;
  base : Z;
  xStride : Z;
  yStride : Z;
  xSampling : Z;
  ySampling : Z;
  zero : bool }.
End OutSliceInfo.

(** A compressor: [compress (in, minY)] gives the compressed block, whose
    length is the returned size, or throws. *)
Definition Compressor := list byte -> Z -> Thrown + list byte.

(** Where [dataPtr] points: nowhere yet, at the line buffer's own [buffer],
    or at a block the compressor owns. *)
Inductive DataPtr :=
  | NullPtr
  | OwnBuffer
  | CompressorBlock (block : list byte).

Module LineBuffer.
Record t := mk {
  buffer : list byte;
  dataPtr : DataPtr;
  dataSize : Z;
  endOfLineBufferData : Z;
  minY : Z;
  maxY : Z;
  scanLineMin : Z;
  scanLineMax : Z;
  compressor : option Compressor;
  partiallyFull : bool;
  hasException : bool;
  exception : string }.

(** [LineBuffer::LineBuffer (comp)]; the members the constructor leaves
    uninitialised are 0 here. *)
Definition new (comp : option Compressor) : t :=
  mk [] NullPtr 0 0 0 0 0 0 comp false false EmptyString.

Definition set_buffer (v : list byte) (b : t) : t :=
  mk v (dataPtr b) (dataSize b) (endOfLineBufferData b) (minY b) (maxY b)
     (scanLineMin b) (scanLineMax b) (compressor b) (partiallyFull b)
     (hasException b) (exception b).

Definition set_data (p : DataPtr) (n : Z) (b : t) : t :=
  mk (buffer b) p n (endOfLineBufferData b) (minY b) (maxY b)
     (scanLineMin b) (scanLineMax b) (compressor b) (partiallyFull b)
     (hasException b) (exception b).

Definition set_endOfLineBufferData (v : Z) (b : t) : t :=
  mk (buffer b) (dataPtr b) (dataSize b) v (minY b) (maxY b)
     (scanLineMin b) (scanLineMax b) (compressor b) (partiallyFull b)
     (hasException b) (exception b).

Definition set_span (lo hi : Z) (b : t) : t :=
  mk (buffer b) (dataPtr b) (dataSize b) (endOfLineBufferData b) lo hi
     (scanLineMin b) (scanLineMax b) (compressor b) (partiallyFull b)
     (hasException b) (exception b).

Definition set_scanLines (lo hi : Z) (b : t) : t :=
  mk (buffer b) (dataPtr b) (dataSize b) (endOfLineBufferData b) (minY b)
     (maxY b) lo hi (compressor b) (partiallyFull b)
     (hasException b) (exception b).

Definition set_partiallyFull (v : bool) (b : t) : t :=
  mk (buffer b) (dataPtr b) (dataSize b) (endOfLineBufferData b) (minY b)
     (maxY b) (scanLineMin b) (scanLineMax b) (compressor b) v
     (hasException b) (exception b).

Definition set_exception (v : bool) (w : string) (b : t) : t :=
  mk (buffer b) (dataPtr b) (dataSize b) (endOfLineBufferData b) (minY b)
     (maxY b) (scanLineMin b) (scanLineMax b) (compressor b)
     (partiallyFull b) v w.

(** The block [dataPtr] points at, as the writer will read it. *)
Definition data (b : t) : list byte :=
  match dataPtr b with
  | NullPtr => []
  | OwnBuffer => buffer b
  | CompressorBlock block => block
  end.
End LineBuffer.

(** ** [OutputFile::Data] *)

Record Data := mkData {
  header : Header.t;
  multiPart : bool;
  version : Z;
  previewPosition : Z;
  frameBuffer : FrameBuffer;
  currentScanLine : Z;
  missingScanLines : Z;
  lineOrder : LineOrder;
  minX : Z;
  maxX : Z;
  minY : Z;
  maxY : Z;
  lineOffsets : list Z;
  bytesPerLine : list Z;
  offsetInLineBuffer : list Z;
  format : Format;
  slices : list OutSliceInfo.t;
  lineOffsetsPosition : Z;
  lineBuffers : list LineBuffer.t;
  linesInBuffer : Z;
  lineBufferSize : Z;
  partNumber : Z;
  _streamData : OutputStreamMutex.t;
  _deleteStream : bool }.

Definition set_frameBuffer (v : FrameBuffer) (d : Data) : Data :=
  mkData (header d) (multiPart d) (version d) (previewPosition d) v
    (currentScanLine d) (missingScanLines d) (lineOrder d) (minX d) (maxX d)
    (minY d) (maxY d) (lineOffsets d) (bytesPerLine d) (offsetInLineBuffer d)
    (format d) (slices d) (lineOffsetsPosition d) (lineBuffers d)
    (linesInBuffer d) (lineBufferSize d) (partNumber d) (_streamData d)
    (_deleteStream d).

Definition set_slices (v : list OutSliceInfo.t) (d : Data) : Data :=
  mkData (header d) (multiPart d) (version d) (previewPosition d)
    (frameBuffer d) (currentScanLine d) (missingScanLines d) (lineOrder d)
    (minX d) (maxX d) (minY d) (maxY d) (lineOffsets d) (bytesPerLine d)
    (offsetInLineBuffer d) (format d) v (lineOffsetsPosition d)
    (lineBuffers d) (linesInBuffer d) (lineBufferSize d) (partNumber d)
    (_streamData d) (_deleteStream d).

Definition set_currentScanLine (v : Z) (d : Data) : Data :=
  mkData (header d) (multiPart d) (version d) (previewPosition d)
    (frameBuffer d) v (missingScanLines d) (lineOrder d)
    (minX d) (maxX d) (minY d) (maxY d) (lineOffsets d) (bytesPerLine d)
    (offsetInLineBuffer d) (format d) (slices d) (lineOffsetsPosition d)
    (lineBuffers d) (linesInBuffer d) (lineBufferSize d) (partNumber d)
    (_streamData d) (_deleteStream d).

Definition set_missingScanLines (v : Z) (d : Data) : Data :=
  mkData (header d) (multiPart d) (version d) (previewPosition d)
    (frameBuffer d) (currentScanLine d) v (lineOrder d)
    (minX d) (maxX d) (minY d) (maxY d) (lineOffsets d) (bytesPerLine d)
    (offsetInLineBuffer d) (format d) (slices d) (lineOffsetsPosition d)
    (lineBuffers d) (linesInBuffer d) (lineBufferSize d) (partNumber d)
    (_streamData d) (_deleteStream d).

Definition set_lineOffsets (v : list Z) (d : Data) : Data :=
  mkData (header d) (multiPart d) (version d) (previewPosition d)
    (frameBuffer d) (currentScanLine d) (missingScanLines d) (lineOrder d)
    (minX d) (maxX d) (minY d) (maxY d) v (bytesPerLine d)
    (offsetInLineBuffer d) (format d) (slices d) (lineOffsetsPosition d)
    (lineBuffers d) (linesInBuffer d) (lineBufferSize d) (partNumber d)
    (_streamData d) (_deleteStream d).

Definition set_lineBuffers (v : list LineBuffer.t) (d : Data) : Data :=
  mkData (header d) (multiPart d) (version d) (previewPosition d)
    (frameBuffer d) (currentScanLine d) (missingScanLines d) (lineOrder d)
    (minX d) (maxX d) (minY d) (maxY d) (lineOffsets d) (bytesPerLine d)
    (offsetInLineBuffer d) (format d) (slices d) (lineOffsetsPosition d)
    v (linesInBuffer d) (lineBufferSize d) (partNumber d)
    (_streamData d) (_deleteStream d).

Definition set_streamData (v : OutputStreamMutex.t) (d : Data) : Data :=
  mkData (header d) (multiPart d) (version d) (previewPosition d)
    (frameBuffer d) (currentScanLine d) (missingScanLines d) (lineOrder d)
    (minX d) (maxX d) (minY d) (maxY d) (lineOffsets d) (bytesPerLine d)
    (offsetInLineBuffer d) (format d) (slices d) (lineOffsetsPosition d)
    (lineBuffers d) (linesInBuffer d) (lineBufferSize d) (partNumber d)
    v (_deleteStream d).

Definition fileName (d : Data) : string :=
  OStream.fileName (OutputStreamMutex.os (_streamData d)).

(** The outcome of a call on the file. *)
Inductive Result :=
  | Returned (d : Data)
  | Threw (e : Exc) (d : Data)
  | Undefined.

(** Vectors indexed by an [int]. *)
Definition at_ {A} (v : list A) (i : Z) : option A :=
  if decide (0 <= i) then v !! Z.to_nat i else None.

Definition assign {A} (v : list A) (i : Z) (a : A) : option (list A) :=
  if decide (0 <= i < Z.of_nat (length v))
  then Some (<[Z.to_nat i := a]> v) else None.

(** ** Collaborators outside this file *)

(** [divp] and [modp] of Imath (ImathFun.h): division and remainder with a
    remainder that is never negative. *)
Definition divp (x y : Z) : Z :=
  if decide (0 <= x)
  then (if decide (0 <= y) then Z.quot x y else - Z.quot x (- y))
  else (if decide (0 <= y) then - Z.quot (y - 1 - x) y
        else Z.quot (- y - 1 - x) (- y)).

Definition modp (x y : Z) : Z := x - y * divp x y.

(** The helpers of ImfMisc and ImfCompressor that the write path calls.
    They are parameters of the development: nothing below depends on what
    they compute.
    - [fillChannelWithZeroes format type n] and
      [copyFromFrameBuffer readPtr endPtr xStride format type] give the
      bytes they store at the write pointer, which advances by their number;
    - [convertInPlace type n block] gives the converted bytes of the [n]
      samples that start [block], the pointers advance by their number;
    - [lineBufferMinY y minY linesInBuffer] is the first scan line of the
      chunk of [y];
    - [bytesPerLineTable] gives the largest entry and the table;
      [newCompressor] may give no compressor. *)
Record MiscOps := mkMiscOps {
  fillChannelWithZeroes : Format -> PixelType -> Z -> list byte;
  copyFromFrameBuffer : Z -> Z -> Z -> Format -> PixelType -> list byte;
  convertInPlace : PixelType -> Z -> list byte -> list byte;
  lineBufferMinY : Z -> Z -> Z -> Z;
  bytesPerLineTable : Header.t -> Z * list Z;
  offsetInLineBufferTable : list Z -> Z -> list Z;
  newCompressor : Compression -> Z -> Header.t -> option Compressor;
  defaultFormat : option Compressor -> Format;
  numLinesInBuffer : option Compressor -> Z }.

(** A source file of [copyPixels]: its header, its name, and
    [rawPixelData (firstScanLine)], which gives the stored block of the
    chunk or throws. *)
Module InputFile.
Record t := mk {
  header : Header.t;
  fileName : string;
  rawPixelData : Z -> Exc + list byte }.
End InputFile.

(** Conversions of the pointer arithmetic in [execute]. *)
Definition to_size_t (z : Z) : Z := z mod 2 ^ 64.

Definition to_intptr_t (z : Z) : Z :=
  let u := z mod 2 ^ 64 in
  if decide (u < 2 ^ 63) then u else u - 2 ^ 64.

(** ** [OutputFile::Data::getLineBuffer] *)

(** [lineBuffers[number % lineBuffers.size ()]]: the [int] is converted to
    [size_t] before the remainder is taken. *)
Definition getLineBufferIndex (d : Data) (number : Z) : option nat :=
  let size := Z.of_nat (length (lineBuffers d)) in
  if decide (size = 0) then None
  else Some (Z.to_nat (to_size_t number mod size)).

Definition getLineBuffer (d : Data) (number : Z) : option LineBuffer.t :=
  i ← getLineBufferIndex d number; lineBuffers d !! i.

(** ** [writePixelData] *)

Definition writePixelData (lineBufferMinY_ : Z) (pixelData : list byte)
    (pixelDataSize : Z) (d : Data) : option Data :=
  let filedata := _streamData d in
  let cached := OutputStreamMutex.currentPosition filedata in
  let os0 := OutputStreamMutex.os filedata in
  let currentPosition :=
    if decide (cached = 0) then tellp os0 else cached in
  if decide (linesInBuffer d = 0) then None else
  offsets ← assign (lineOffsets d)
             (Z.quot (currentScanLine d - minY d) (linesInBuffer d))
             currentPosition;
  let os1 :=
    if multiPart d then Xdr_write_int (partNumber d) os0 else os0 in
  let os2 := Xdr_write_int lineBufferMinY_ os1 in
  let os3 := Xdr_write_int pixelDataSize os2 in
  if decide (0 <= pixelDataSize <= Z.of_nat (length pixelData)) then
    let os4 := os_write (take (Z.to_nat pixelDataSize) pixelData) os3 in
    let position :=
      currentPosition + Xdr_size_int + Xdr_size_int + pixelDataSize in
    let position :=
      if multiPart d then position + Xdr_size_int else position in
    Some (set_streamData (OutputStreamMutex.mk os4 position)
            (set_lineOffsets offsets d))
  else None.

Definition writePixelData_lineBuffer (lineBuffer : LineBuffer.t) (d : Data)
    : option Data :=
  writePixelData (LineBuffer.minY lineBuffer) (LineBuffer.data lineBuffer)
    (LineBuffer.dataSize lineBuffer) d.

(** ** [OutputFile::setFrameBuffer] *)

Definition msg_pixelType (name file : string) : string :=
  "Pixel type of " +:+ dq +:+ name +:+ dq +:+ " channel of output file "
  +:+ dq +:+ file +:+ dq
  +:+ " is not compatible with the frame buffer's pixel type.".

Definition msg_sampling (name file : string) : string :=
  "X and/or y subsampling factors of " +:+ dq +:+ name +:+ dq
  +:+ " channel of output file " +:+ dq +:+ file +:+ dq
  +:+ " are not compatible with the frame buffer's subsampling factors.".

(** The first loop: the frame buffer against the header's channels. *)
Fixpoint checkFrameBuffer (file : string) (channels : ChannelList)
    (frameBuffer : FrameBuffer) : option Exc :=
  match channels with
  | [] => None
  | (name, channel) :: rest =>
      match frameBuffer !! name with
      | None => checkFrameBuffer file rest frameBuffer
      | Some slice =>
          if decide (Channel.type channel <> Slice.type slice)
          then Some (ArgExc (msg_pixelType name file))
          else if decide (Channel.xSampling channel <> Slice.xSampling slice
                          \/ Channel.ySampling channel <> Slice.ySampling slice)
          then Some (ArgExc (msg_sampling name file))
          else checkFrameBuffer file rest frameBuffer
      end
  end.

(** The second loop: one [OutSliceInfo] for every channel of the header. *)
Definition sliceFor (frameBuffer : FrameBuffer) (i : string * Channel.t)
    : OutSliceInfo.t :=
  match frameBuffer !! i.1 with
  | None =>
      OutSliceInfo.mk (Channel.type i.2) 0 0 0
        (Channel.xSampling i.2) (Channel.ySampling i.2) true
  | Some slice =>
      OutSliceInfo.mk (Slice.type slice) (Slice.base slice)
        (Slice.xStride slice) (Slice.yStride slice)
        (Slice.xSampling slice) (Slice.ySampling slice) false
  end.

Definition setFrameBuffer (frameBuffer : FrameBuffer) (d : Data) : Result :=
  let channels := Header.channels (header d) in
  match checkFrameBuffer (fileName d) channels frameBuffer with
  | Some e => Threw e d
  | None =>
      Returned (set_slices (sliceFor frameBuffer <$> channels)
                  (set_frameBuffer frameBuffer d))
  end.

Section WritePath.

Variable ops : MiscOps.

(** ** [convertToXdr] *)

Definition convertSlice (ofd : Data) (y : Z) (acc : list byte * Z)
    (slice : OutSliceInfo.t) : list byte * Z :=
  if decide (modp y (OutSliceInfo.ySampling slice) <> 0) then acc else
  let dMinX := divp (minX ofd) (OutSliceInfo.xSampling slice) in
  let dMaxX := divp (maxX ofd) (OutSliceInfo.xSampling slice) in
  let converted :=
    convertInPlace ops (OutSliceInfo.type slice) (dMaxX - dMinX + 1)
      (drop (Z.to_nat acc.2) acc.1) in
  (store acc.2 converted acc.1, acc.2 + Z.of_nat (length converted)).

(** The lines [y], [y + 1], ... of the loop over the line buffer, [k] of
    them; [acc] is the buffer and the write pointer. *)
Fixpoint convertLines (k : nat) (ofd : Data) (y : Z) (acc : list byte * Z)
    : list byte * Z :=
  match k with
  | O => acc
  | S k' =>
      convertLines k' ofd (y + 1)
        (fold_left (convertSlice ofd y) (slices ofd) acc)
  end.

Definition convertToXdr (ofd : Data) (lineBuffer : list byte)
    (lineBufferMinY_ lineBufferMaxY inSize : Z) : list byte :=
  (convertLines (Z.to_nat (lineBufferMaxY - lineBufferMinY_ + 1)) ofd
     lineBufferMinY_ (lineBuffer, 0)).1.

(** ** [LineBufferTask] *)

(** The constructor, on the slot it has waited for. *)
Definition LineBufferTask_new (ofd : Data) (number scanLineMin scanLineMax : Z)
    (lineBuffer : LineBuffer.t) : LineBuffer.t :=
  let lineBuffer :=
    if LineBuffer.partiallyFull lineBuffer then lineBuffer
    else
      let lo := minY ofd + number * linesInBuffer ofd in
      LineBuffer.set_partiallyFull true
        (LineBuffer.set_span lo (Z.min (lo + linesInBuffer ofd - 1) (maxY ofd))
           (LineBuffer.set_endOfLineBufferData 0 lineBuffer)) in
  LineBuffer.set_scanLines
    (Z.max (LineBuffer.minY lineBuffer) scanLineMin)
    (Z.min (LineBuffer.maxY lineBuffer) scanLineMax)
    lineBuffer.

(** One channel of one scan line: [acc] is the buffer and [writePtr]. *)
Definition gatherSlice (ofd : Data) (y : Z) (acc : list byte * Z)
    (slice : OutSliceInfo.t) : list byte * Z :=
  if decide (modp y (OutSliceInfo.ySampling slice) <> 0) then acc else
  let dMinX := divp (minX ofd) (OutSliceInfo.xSampling slice) in
  let dMaxX := divp (maxX ofd) (OutSliceInfo.xSampling slice) in
  let stored :=
    if OutSliceInfo.zero slice then
      fillChannelWithZeroes ops (format ofd) (OutSliceInfo.type slice)
        (dMaxX - dMinX + 1)
    else
      let base := to_intptr_t (OutSliceInfo.base slice) in
      let linePtr :=
        to_intptr_t (base + to_size_t (divp y (OutSliceInfo.ySampling slice))
                             * OutSliceInfo.yStride slice) in
      let readPtr :=
        to_intptr_t (linePtr + to_size_t dMinX * OutSliceInfo.xStride slice) in
      let endPtr :=
        to_intptr_t (linePtr + to_size_t dMaxX * OutSliceInfo.xStride slice) in
      copyFromFrameBuffer ops readPtr endPtr (OutSliceInfo.xStride slice)
        (format ofd) (OutSliceInfo.type slice) in
  (store acc.2 stored acc.1, acc.2 + Z.of_nat (length stored)).

(** The body of the loop over [y]. *)
Definition gatherScanLine (ofd : Data) (y : Z) (lineBuffer : LineBuffer.t)
    : option LineBuffer.t :=
  start ← at_ (offsetInLineBuffer ofd) (y - minY ofd);
  let acc :=
    fold_left (gatherSlice ofd y) (slices ofd)
      (LineBuffer.buffer lineBuffer, start) in
  let lineBuffer := LineBuffer.set_buffer acc.1 lineBuffer in
  Some (if decide (LineBuffer.endOfLineBufferData lineBuffer < acc.2)
        then LineBuffer.set_endOfLineBufferData acc.2 lineBuffer
        else lineBuffer).

(** [for (y = yStart; y != yStop; y += dy)], [k] passes away from the
    bound; the value of [y] after the loop comes with the line buffer. *)
Fixpoint gatherLoop (k : nat) (ofd : Data) (y dy : Z)
    (lineBuffer : LineBuffer.t) : option (LineBuffer.t * Z) :=
  match k with
  | O => Some (lineBuffer, y)
  | S k' =>
      lineBuffer' ← gatherScanLine ofd y lineBuffer;
      gatherLoop k' ofd (y + dy) dy lineBuffer'
  end.

Definition gather (ofd : Data) (lineBuffer : LineBuffer.t)
    : option (LineBuffer.t * Z) :=
  let '(yStart, yStop, dy) :=
    if decide (lineOrder ofd = INCREASING_Y)
    then (LineBuffer.scanLineMin lineBuffer,
          LineBuffer.scanLineMax lineBuffer + 1, 1)
    else (LineBuffer.scanLineMax lineBuffer,
          LineBuffer.scanLineMin lineBuffer - 1, -1) in
  if decide (0 <= (yStop - yStart) * dy)
  then gatherLoop (Z.to_nat ((yStop - yStart) * dy)) ofd yStart dy lineBuffer
  else None.

(** The [try] block of [execute]: the line buffer as the block leaves it,
    and what it threw, if it threw. *)
Definition execute_try (ofd : Data) (lineBuffer : LineBuffer.t)
    : option (LineBuffer.t * option Thrown) :=
  '(lineBuffer, y) ← gather ofd lineBuffer;
  if decide (LineBuffer.minY lineBuffer <= y <= LineBuffer.maxY lineBuffer)
  then Some (lineBuffer, None)
  else
    let lineBuffer :=
      LineBuffer.set_data OwnBuffer
        (LineBuffer.endOfLineBufferData lineBuffer) lineBuffer in
    match LineBuffer.compressor lineBuffer with
    | None => Some (LineBuffer.set_partiallyFull false lineBuffer, None)
    | Some compress =>
        match compress (take (Z.to_nat (LineBuffer.dataSize lineBuffer))
                          (LineBuffer.buffer lineBuffer))
                       (LineBuffer.minY lineBuffer) with
        | inl thrown => Some (lineBuffer, Some thrown)
        | inr compPtr =>
            let compSize := Z.of_nat (length compPtr) in
            let lineBuffer :=
              if decide (compSize < LineBuffer.dataSize lineBuffer)
              then LineBuffer.set_data (CompressorBlock compPtr) compSize
                     lineBuffer
              else if decide (format ofd = NATIVE)
              then LineBuffer.set_buffer
                     (convertToXdr ofd (LineBuffer.buffer lineBuffer)
                        (LineBuffer.minY lineBuffer)
                        (LineBuffer.maxY lineBuffer)
                        (LineBuffer.dataSize lineBuffer))
                     lineBuffer
              else lineBuffer in
            Some (LineBuffer.set_partiallyFull false lineBuffer, None)
        end
    end.

Definition thrown_what (thrown : Thrown) : string :=
  match thrown with
  | StdException w => w
  | OtherThrown => "unrecognized exception"
  end.

(** The [catch] clauses of [execute]. *)
Definition catch_in_task (lineBuffer : LineBuffer.t) (thrown : Thrown)
    : LineBuffer.t :=
  if LineBuffer.hasException lineBuffer then lineBuffer
  else LineBuffer.set_exception true (thrown_what thrown) lineBuffer.

Definition execute (ofd : Data) (lineBuffer : LineBuffer.t)
    : option LineBuffer.t :=
  '(lineBuffer', thrown) ← execute_try ofd lineBuffer;
  match thrown with
  | None => Some lineBuffer'
  | Some t => Some (catch_in_task lineBuffer' t)
  end.

(** [ThreadPool::addGlobalTask (new LineBufferTask (...))]: construction,
    [execute] and destruction of one task. *)
Definition addTask (number scanLineMin scanLineMax : Z) (ofd : Data)
    : option Data :=
  i ← getLineBufferIndex ofd number;
  lineBuffer ← lineBuffers ofd !! i;
  lineBuffer' ←
    execute ofd
      (LineBufferTask_new ofd number scanLineMin scanLineMax lineBuffer);
  Some (set_lineBuffers (<[i := lineBuffer']> (lineBuffers ofd)) ofd).

(** [for (int i = 0; i < numTasks; i++)] with task numbers
    [number], [number + step], ... *)
Fixpoint addTasks (numTasks : nat) (number step scanLineMin scanLineMax : Z)
    (ofd : Data) : option Data :=
  match numTasks with
  | O => Some ofd
  | S k =>
      ofd' ← addTask number scanLineMin scanLineMax ofd;
      addTasks k (number + step) step scanLineMin scanLineMax ofd'
  end.

(** ** [OutputFile::writePixels] *)

Definition msg_noFrameBuffer : string :=
  "No frame buffer specified as pixel data source.".

Definition msg_tooManyScanLines : string :=
  "Tried to write more scan lines than specified by the data window.".

Definition msg_writeFailed (file what_ : string) : string :=
  "Failed to write pixel data to image file " +:+ dq +:+ file +:+ dq
  +:+ ". " +:+ what_.

(** How the [while (true)] loop is left. *)
Inductive LoopExit :=
  | Break (d : Data)
  | Return_ (d : Data)
  | Throw (e : Exc) (d : Data)
  | Stuck.

(** The drain loop; [fuel] bounds the number of passes. *)
Fixpoint drain (fuel : nat) (stop step scanLineMin scanLineMax : Z)
    (nextWriteBuffer nextCompressBuffer : Z) (d : Data) : LoopExit :=
  match fuel with
  | O => Stuck
  | S fuel' =>
      if decide (missingScanLines d <= 0)
      then Throw (ArgExc msg_tooManyScanLines) d
      else
        match getLineBuffer d nextWriteBuffer with
        | None => Stuck
        | Some writeBuffer =>
            let numLines :=
              LineBuffer.scanLineMax writeBuffer
              - LineBuffer.scanLineMin writeBuffer + 1 in
            let d := set_missingScanLines (missingScanLines d - numLines) d in
            if LineBuffer.partiallyFull writeBuffer
            then Return_ (set_currentScanLine
                            (currentScanLine d + step * numLines) d)
            else
              match writePixelData_lineBuffer writeBuffer d with
              | None => Stuck
              | Some d =>
                  let nextWriteBuffer := nextWriteBuffer + step in
                  let d :=
                    set_currentScanLine
                      (currentScanLine d + step * numLines) d in
                  if decide (nextWriteBuffer = stop) then Break d
                  else if decide (nextCompressBuffer = stop)
                  then drain fuel' stop step scanLineMin scanLineMax
                         nextWriteBuffer nextCompressBuffer d
                  else
                    match addTask nextCompressBuffer scanLineMin scanLineMax d
                    with
                    | None => Stuck
                    | Some d =>
                        drain fuel' stop step scanLineMin scanLineMax
                          nextWriteBuffer (nextCompressBuffer + step) d
                    end
              end
        end
  end.

(** The loop over the line buffers after the task group has been joined:
    the first stored exception, and every flag cleared. *)
Fixpoint collectExceptions (exception : option string)
    (lineBuffers_ : list LineBuffer.t) : option string * list LineBuffer.t :=
  match lineBuffers_ with
  | [] => (exception, [])
  | lineBuffer :: rest =>
      let exception :=
        match exception with
        | None =>
            if LineBuffer.hasException lineBuffer
            then Some (LineBuffer.exception lineBuffer) else None
        | Some _ => exception
        end in
      let '(e, rest') := collectExceptions exception rest in
      (e, LineBuffer.set_exception false (LineBuffer.exception lineBuffer)
            lineBuffer :: rest')
  end.

Definition rethrow (d : Data) : Result :=
  let '(exception, cleared) := collectExceptions None (lineBuffers d) in
  let d := set_lineBuffers cleared d in
  match exception with
  | Some w => Threw (IoExc w) d
  | None => Returned d
  end.

(** The [try] block of [writePixels]. *)
Definition writePixels_try (numScanLines : Z) (d : Data) : Result :=
  if decide (length (slices d) = 0%nat)
  then Threw (ArgExc msg_noFrameBuffer) d
  else if decide (linesInBuffer d = 0) then Undefined
  else
    let first := Z.quot (currentScanLine d - minY d) (linesInBuffer d) in
    let size := Z.of_nat (length (lineBuffers d)) in
    let '(last, scanLineMin, scanLineMax, numTasks, step) :=
      if decide (lineOrder d = INCREASING_Y) then
        let last :=
          Z.quot (currentScanLine d + (numScanLines - 1) - minY d)
                 (linesInBuffer d) in
        (last, currentScanLine d, currentScanLine d + numScanLines - 1,
         Z.max (Z.min size (last - first + 1)) 1, 1)
      else
        let last :=
          Z.quot (currentScanLine d - (numScanLines - 1) - minY d)
                 (linesInBuffer d) in
        (last, currentScanLine d - numScanLines + 1, currentScanLine d,
         Z.max (Z.min size (first - last + 1)) 1, -1) in
    let nextCompressBuffer := first + step * numTasks in
    let stop := last + step in
    match addTasks (Z.to_nat numTasks) first step scanLineMin scanLineMax d with
    | None => Undefined
    | Some d =>
        match drain (S (Z.to_nat (Z.abs (stop - first)))) stop step
                scanLineMin scanLineMax first nextCompressBuffer d with
        | Break d => rethrow d
        | Return_ d => Returned d
        | Throw e d => Threw e d
        | Stuck => Undefined
        end
    end.

Definition writePixels (numScanLines : Z) (d : Data) : Result :=
  match writePixels_try numScanLines d with
  | Threw e d' =>
      Threw (REPLACE_EXC e (msg_writeFailed (fileName d) (what e))) d'
  | r => r
  end.

(** ** [OutputFile::copyPixels] *)

Definition msg_copy (inFile file reason : string) : string :=
  "Cannot copy pixels from image file " +:+ dq +:+ inFile +:+ dq
  +:+ " to image file " +:+ dq +:+ file +:+ dq +:+ ". " +:+ reason.

Definition msg_quickCopy (inFile file reason : string) : string :=
  "Quick pixel copy from image file " +:+ dq +:+ inFile +:+ dq
  +:+ " to image file " +:+ dq +:+ file +:+ dq +:+ " failed. " +:+ reason.

Definition msg_tiled : string :=
  "The input file is tiled, but the output file is not. "
  +:+ "Try using TiledOutputFile::copyPixels instead.".

Definition msg_dataWindows : string :=
  "The files have different data windows.".

Definition msg_lineOrders : string :=
  "The files have different line orders.".

Definition msg_compressions : string :=
  "The files use different compression methods.".

Definition msg_channels : string :=
  " The files have different channel lists.".

Definition msg_hasPixels (file : string) : string :=
  dq +:+ file +:+ dq +:+ " already contains pixel data.".

(** The checks that come before the copy loop, in their order. *)
Definition copyPixels_check (inp : InputFile.t) (d : Data) : option Exc :=
  let hdr := header d in
  let inHdr := InputFile.header inp in
  let inFile := InputFile.fileName inp in
  if Header.hasTiles inHdr
  then Some (ArgExc (msg_copy inFile (fileName d) msg_tiled))
  else if decide (Header.dataWindow hdr <> Header.dataWindow inHdr)
  then Some (ArgExc (msg_copy inFile (fileName d) msg_dataWindows))
  else if decide (Header.lineOrder hdr <> Header.lineOrder inHdr)
  then Some (ArgExc (msg_quickCopy inFile (fileName d) msg_lineOrders))
  else if decide (Header.compression hdr <> Header.compression inHdr)
  then Some (ArgExc (msg_quickCopy inFile (fileName d) msg_compressions))
  else if decide (Header.channels hdr <> Header.channels inHdr)
  then Some (ArgExc (msg_quickCopy inFile (fileName d) msg_channels))
  else
    let dataWindow := Header.dataWindow hdr in
    if decide (missingScanLines d
               <> V2i.y (Box2i.max dataWindow)
                  - V2i.y (Box2i.min dataWindow) + 1)
    then Some (LogicExc (msg_quickCopy inFile (fileName d)
                           (msg_hasPixels (fileName d))))
    else None.

(** [while (_data->missingScanLines > 0)]; [fuel] bounds the passes. *)
Fixpoint copyLoop (fuel : nat) (inp : InputFile.t) (d : Data) : Result :=
  if decide (missingScanLines d > 0) then
    match fuel with
    | O => Undefined
    | S fuel' =>
        match InputFile.rawPixelData inp (currentScanLine d) with
        | inl e => Threw e d
        | inr pixelData =>
            match writePixelData
                    (lineBufferMinY ops (currentScanLine d) (minY d)
                       (linesInBuffer d))
                    pixelData (Z.of_nat (length pixelData)) d with
            | None => Undefined
            | Some d =>
                let d :=
                  set_currentScanLine
                    (currentScanLine d
                     + (if decide (lineOrder d = INCREASING_Y)
                        then linesInBuffer d else - linesInBuffer d)) d in
                copyLoop fuel' inp
                  (set_missingScanLines
                     (missingScanLines d - linesInBuffer d) d)
            end
        end
    end
  else Returned d.

Definition copyPixels (inp : InputFile.t) (d : Data) : Result :=
  match copyPixels_check inp d with
  | Some e => Threw e d
  | None => copyLoop (Z.to_nat (missingScanLines d)) inp d
  end.

(** ** [OutputFile::Data::Data] and [OutputFile::initialize] *)

(** The state [initialize] builds for a file with
    [max (1, 2 * numThreads)] line buffers on the stream [streamData]; the
    members that neither constructor sets are 0 here. *)
Definition initialize (numThreads : Z) (multiPart_ : bool)
    (streamData : OutputStreamMutex.t) (hdr : Header.t) : Data :=
  let dataWindow := Header.dataWindow hdr in
  let dwMinY := V2i.y (Box2i.min dataWindow) in
  let dwMaxY := V2i.y (Box2i.max dataWindow) in
  let table := bytesPerLineTable ops hdr in
  let maxBytesPerLine := table.1 in
  let comp := newCompressor ops (Header.compression hdr) maxBytesPerLine hdr in
  let linesInBuffer_ := numLinesInBuffer ops comp in
  let lineBufferSize_ := maxBytesPerLine * linesInBuffer_ in
  let lineBuffer :=
    LineBuffer.set_buffer (replicate (Z.to_nat lineBufferSize_) x00)
      (LineBuffer.new comp) in
  let lineOffsetSize :=
    Z.quot (dwMaxY - dwMinY + linesInBuffer_) linesInBuffer_ in
  mkData hdr multiPart_ 0 0 ∅
    (if decide (Header.lineOrder hdr = INCREASING_Y) then dwMinY else dwMaxY)
    (dwMaxY - dwMinY + 1)
    (Header.lineOrder hdr)
    (V2i.x (Box2i.min dataWindow)) (V2i.x (Box2i.max dataWindow))
    dwMinY dwMaxY
    (replicate (Z.to_nat lineOffsetSize) 0)
    table.2
    (offsetInLineBufferTable ops table.2 linesInBuffer_)
    (defaultFormat ops comp)
    []
    0
    (replicate (Z.to_nat (Z.max 1 (2 * numThreads))) lineBuffer)
    linesInBuffer_
    lineBufferSize_
    (-1)
    streamData
    false.

(** ** Sequences of calls *)

(** The outcomes of [writePixels (n)] for the numbers of [ns], one call
    after the other, up to the first call that does not return. *)
Fixpoint writeSequence (ns : list Z) (d : Data) : list Result :=
  match ns with
  | [] => []
  | n :: rest =>
      match writePixels n d with
      | Returned d' => Returned d' :: writeSequence rest d'
      | r => [r]
      end
  end.


End WritePath.

(** * Opening, patching and closing a file *)

(** ** The rest of the stream interface *)

Definition seekp (pos : Z) (os : OStream.t) : OStream.t :=
  OStream.mk (OStream.fileName os) (OStream.bytes os) pos.

(** Modelled from the spec: [Xdr::write <StreamIO> (os, uint64_t)] of
    ImfXdr.h, which is not among the sources.  The spec gives the offset
    table as a contiguous sequence of 8-byte file offsets; the eight bytes
    are those of the value, least significant first, as for [Xdr_int]. *)
Definition Xdr_uint64 (v : Z) : list byte :=
  [byte_of_Z v; byte_of_Z (Z.shiftr v 8);
   byte_of_Z (Z.shiftr v 16); byte_of_Z (Z.shiftr v 24);
   byte_of_Z (Z.shiftr v 32); byte_of_Z (Z.shiftr v 40);
   byte_of_Z (Z.shiftr v 48); byte_of_Z (Z.shiftr v 56)].

Definition Xdr_write_uint64 (v : Z) (os : OStream.t) : OStream.t :=
  os_write (Xdr_uint64 v) os.

(** ** Exceptions of the constructors *)

(** A [BaseExc] of Iex as the constructors see it: one of the classes of
    [Exc], or the exception that [throwErrnoExc] makes for [errno]. *)
Inductive BaseExc :=
  | Iex (e : Exc)
  | ErrnoExc (what : string).

Definition BaseExc_what (e : BaseExc) : string :=
  match e with
  | Iex e => what e
  | ErrnoExc w => w
  end.

Definition REPLACE_BaseExc (e : BaseExc) (text : string) : BaseExc :=
  match e with
  | Iex e => Iex (REPLACE_EXC e text)
  | ErrnoExc _ => ErrnoExc text
  end.

(** The collaborators of the constructors, outside this file.
    - [sanityCheck hdr] is the exception that [Header::sanityCheck] throws
      for the header, if it throws;
    - [StdOFStream_new fileName] opens a file for writing;
    - [writeMagicNumberAndVersionField os hdr] and [writeTo hdr os] put
      the start of the file on the stream, the second gives the position
      of the preview image, 0 when the header has none;
    - [throwErrnoExc text] is the message of the exception that Iex makes
      of a text and [errno]. *)
Record FileOps := mkFileOps {
  sanityCheck : Header.t -> option Exc;
  StdOFStream_new : string -> BaseExc + OStream.t;
  writeMagicNumberAndVersionField :
    OStream.t -> Header.t -> BaseExc + OStream.t;
  writeTo : Header.t -> OStream.t -> BaseExc + (OStream.t * Z);
  throwErrnoExc : string -> string }.

(** The part of an [OutputPartData] that the constructor reads; [type] is
    [header.type ()]. *)
Module OutputPartData.
Record t := mk {
  header : Header.t;
  type : string;
  numThreads : Z;
  partNumber : Z;
  chunkOffsetTablePosition : Z;
  previewPosition : Z;
  multipart : bool;
  mutex : OutputStreamMutex.t }.
End OutputPartData.

(** The constant of ImfPartType. *)
Definition SCANLINEIMAGE : string := "scanlineimage".

Definition set_previewPosition (v : Z) (d : Data) : Data :=
  mkData (header d) (multiPart d) (version d) v
    (frameBuffer d) (currentScanLine d) (missingScanLines d) (lineOrder d)
    (minX d) (maxX d) (minY d) (maxY d) (lineOffsets d) (bytesPerLine d)
    (offsetInLineBuffer d) (format d) (slices d) (lineOffsetsPosition d)
    (lineBuffers d) (linesInBuffer d) (lineBufferSize d) (partNumber d)
    (_streamData d) (_deleteStream d).

Definition set_lineOffsetsPosition (v : Z) (d : Data) : Data :=
  mkData (header d) (multiPart d) (version d) (previewPosition d)
    (frameBuffer d) (currentScanLine d) (missingScanLines d) (lineOrder d)
    (minX d) (maxX d) (minY d) (maxY d) (lineOffsets d) (bytesPerLine d)
    (offsetInLineBuffer d) (format d) (slices d) v
    (lineBuffers d) (linesInBuffer d) (lineBufferSize d) (partNumber d)
    (_streamData d) (_deleteStream d).

Definition set_partNumber (v : Z) (d : Data) : Data :=
  mkData (header d) (multiPart d) (version d) (previewPosition d)
    (frameBuffer d) (currentScanLine d) (missingScanLines d) (lineOrder d)
    (minX d) (maxX d) (minY d) (maxY d) (lineOffsets d) (bytesPerLine d)
    (offsetInLineBuffer d) (format d) (slices d) (lineOffsetsPosition d)
    (lineBuffers d) (linesInBuffer d) (lineBufferSize d) v
    (_streamData d) (_deleteStream d).

Definition set_deleteStream (v : bool) (d : Data) : Data :=
  mkData (header d) (multiPart d) (version d) (previewPosition d)
    (frameBuffer d) (currentScanLine d) (missingScanLines d) (lineOrder d)
    (minX d) (maxX d) (minY d) (maxY d) (lineOffsets d) (bytesPerLine d)
    (offsetInLineBuffer d) (format d) (slices d) (lineOffsetsPosition d)
    (lineBuffers d) (linesInBuffer d) (lineBufferSize d) (partNumber d)
    (_streamData d) v.

(** ** [OutputFile::breakScanLine] *)

Definition msg_cannotOverwrite (y : Z) (file : string) : string :=
  "Cannot overwrite scan line " +:+ pretty y
  +:+ ". The scan line has not yet been stored in file "
  +:+ dq +:+ file +:+ dq +:+ ".".

(** [for (int i = 0; i < length; ++i) os->write (&c, 1)] *)
Fixpoint writeChars (k : nat) (c : byte) (os : OStream.t) : OStream.t :=
  match k with
  | O => os
  | S k' => writeChars k' c (os_write [c] os)
  end.

Definition breakScanLine (y offset length_ : Z) (c : byte) (d : Data)
    : Result :=
  if decide (linesInBuffer d = 0) then Undefined else
  match at_ (lineOffsets d) (Z.quot (y - minY d) (linesInBuffer d)) with
  | None => Undefined
  | Some position =>
      if decide (position = 0)
      then Threw (ArgExc (msg_cannotOverwrite y (fileName d))) d
      else
        let os :=
          seekp (to_size_t (position + offset))
            (OutputStreamMutex.os (_streamData d)) in
        Returned
          (set_streamData
             (OutputStreamMutex.mk (writeChars (Z.to_nat length_) c os) 0) d)
  end.

Section Lifecycle.

Variable ops : MiscOps.
Variable fops : FileOps.

(** ** [writeLineOffsets] *)

Definition msg_tellp : string :=
  "Cannot determine current file position (%T).".

(** The stream after the table has been written and the position where
    the table starts, or the exception for a position that cannot be
    determined.  The loop counts with an [unsigned int]: it has no result
    for a table of [2 ^ 32] or more entries. *)
Definition writeLineOffsets (os : OStream.t) (lineOffsets_ : list Z)
    : option (BaseExc + OStream.t * Z) :=
  let pos := tellp os in
  if decide (pos = 2 ^ 64 - 1)
  then Some (inl (ErrnoExc (throwErrnoExc fops msg_tellp)))
  else if decide (Z.of_nat (length lineOffsets_) < 2 ^ 32)
  then Some (inr (fold_left (fun os offset => Xdr_write_uint64 offset os)
                    lineOffsets_ os, pos))
  else None.

(** ** The constructors *)

Definition msg_cannotOpen (file what_ : string) : string :=
  "Cannot open image file " +:+ dq +:+ file +:+ dq +:+ ". " +:+ what_.

Definition msg_typeMismatch : string :=
  "Can't build a OutputFile from a type-mismatched part.".

Definition msg_cannotInitialize (part : Z) (what_ : string) : string :=
  "Cannot initialize output part " +:+ dq +:+ pretty part +:+ dq
  +:+ ". " +:+ what_.

(** What the constructors that write a header do once the stream is
    there: [initialize], the cached position, the magic number, the
    header and the empty offset table. *)
Definition writeHeader (os : OStream.t) (hdr : Header.t) (numThreads : Z)
    (deleteStream : bool) : option (BaseExc + Data) :=
  let d :=
    set_deleteStream deleteStream
      (initialize ops numThreads false (OutputStreamMutex.mk os 0) hdr) in
  let currentPosition := tellp os in
  match writeMagicNumberAndVersionField fops os (header d) with
  | inl e => Some (inl e)
  | inr os1 =>
      match writeTo fops (header d) os1 with
      | inl e => Some (inl e)
      | inr (os2, previewPosition_) =>
          match writeLineOffsets os2 (lineOffsets d) with
          | None => None
          | Some (inl e) => Some (inl e)
          | Some (inr (os3, lineOffsetsPosition_)) =>
              Some (inr (set_lineOffsetsPosition lineOffsetsPosition_
                           (set_previewPosition previewPosition_
                              (set_streamData
                                 (OutputStreamMutex.mk os3 currentPosition)
                                 d))))
          end
      end
  end.

(** The [catch] clause for a [BaseExc]: the file is given up and the
    exception goes on with a new message. *)
Definition cannotOpen (file : string) (r : option (BaseExc + Data))
    : option (BaseExc + Data) :=
  match r with
  | Some (inl e) =>
      Some (inl (REPLACE_BaseExc e (msg_cannotOpen file (BaseExc_what e))))
  | _ => r
  end.

(** [OutputFile (const char fileName[], const Header&, int numThreads)] *)
Definition OutputFile_fileName (fileName_ : string) (hdr : Header.t)
    (numThreads : Z) : option (BaseExc + Data) :=
  cannotOpen fileName_
    match sanityCheck fops hdr with
    | Some e => Some (inl (Iex e))
    | None =>
        match StdOFStream_new fops fileName_ with
        | inl e => Some (inl e)
        | inr os => writeHeader os hdr numThreads true
        end
    end.

(** [OutputFile (OStream&, const Header&, int numThreads)] *)
Definition OutputFile_stream (os : OStream.t) (hdr : Header.t)
    (numThreads : Z) : option (BaseExc + Data) :=
  cannotOpen (OStream.fileName os)
    match sanityCheck fops hdr with
    | Some e => Some (inl (Iex e))
    | None => writeHeader os hdr numThreads false
    end.

(** [OutputFile (const OutputPartData* part)]: the [try] block, and the
    constructor with its [catch] clause. *)
Definition OutputFile_part_try (part : OutputPartData.t) : BaseExc + Data :=
  if decide (OutputPartData.type part <> SCANLINEIMAGE)
  then inl (Iex (ArgExc msg_typeMismatch))
  else
    inr (set_previewPosition (OutputPartData.previewPosition part)
           (set_lineOffsetsPosition
              (OutputPartData.chunkOffsetTablePosition part)
              (set_partNumber (OutputPartData.partNumber part)
                 (initialize ops (OutputPartData.numThreads part)
                    (OutputPartData.multipart part)
                    (OutputPartData.mutex part)
                    (OutputPartData.header part))))).

Definition OutputFile_part (part : OutputPartData.t) : BaseExc + Data :=
  match OutputFile_part_try part with
  | inl e =>
      inl (REPLACE_BaseExc e
             (msg_cannotInitialize (OutputPartData.partNumber part)
                (BaseExc_what e)))
  | inr d => inr d
  end.

(** ** [OutputFile::~OutputFile] *)

(** The stream as the destructor leaves it.  An exception of the rewrite
    of the offset table is swallowed, and the put position is then not
    restored; a table that the loop of [writeLineOffsets] cannot count has
    no result. *)
Definition OutputFile_destructor (d : Data) : option OStream.t :=
  let os := OutputStreamMutex.os (_streamData d) in
  let originalPosition := tellp os in
  if decide (lineOffsetsPosition d > 0) then
    match writeLineOffsets (seekp (lineOffsetsPosition d) os) (lineOffsets d)
    with
    | None => None
    | Some (inl _) => Some (seekp (lineOffsetsPosition d) os)
    | Some (inr (os', _)) => Some (seekp originalPosition os')
    end
  else Some os.

End Lifecycle.

(** * Predicates of the properties *)

(** A frame buffer fits a channel list when every channel it has a slice
    for is given with the header's pixel type and sampling rates. *)
Definition compatible (channels : ChannelList) (frameBuffer : FrameBuffer)
    : Prop :=
  forall name channel slice,
    (name, channel) ∈ channels ->
    frameBuffer !! name = Some slice ->
    Channel.type channel = Slice.type slice
    /\ Channel.xSampling channel = Slice.xSampling slice
    /\ Channel.ySampling channel = Slice.ySampling slice.

(** The record [writePixelData] puts on the stream. *)
Definition chunkRecord (d : Data) (lineBufferMinY_ : Z)
    (pixelData : list byte) (pixelDataSize : Z) : list byte :=
  (if multiPart d then Xdr_int (partNumber d) else [])
  ++ Xdr_int lineBufferMinY_
  ++ Xdr_int pixelDataSize
  ++ take (Z.to_nat pixelDataSize) pixelData.

(** A task reads the file's data only through these members. *)
Record sameTaskView (d1 d2 : Data) : Prop := mkSameTaskView {
  stv_lineOrder : lineOrder d1 = lineOrder d2;
  stv_minX : minX d1 = minX d2;
  stv_maxX : maxX d1 = maxX d2;
  stv_minY : minY d1 = minY d2;
  stv_maxY : maxY d1 = maxY d2;
  stv_linesInBuffer : linesInBuffer d1 = linesInBuffer d2;
  stv_offsetInLineBuffer : offsetInLineBuffer d1 = offsetInLineBuffer d2;
  stv_format : format d1 = format d2;
  stv_slices : slices d1 = slices d2 }.

Definition Result_map (f : Data -> Data) (r : Result) : Result :=
  match r with
  | Returned d => Returned (f d)
  | Threw e d => Threw e (f d)
  | Undefined => Undefined
  end.

Definition LoopExit_map (f : Data -> Data) (r : LoopExit) : LoopExit :=
  match r with
  | Break d => Break (f d)
  | Return_ d => Return_ (f d)
  | Throw e d => Throw e (f d)
  | Stuck => Stuck
  end.

(** The chunks of a file: chunk [k] holds the scan lines
    [chunkMin d k .. chunkMax d k]. *)
Definition chunkMin (d : Data) (k : Z) : Z := minY d + k * linesInBuffer d.

Definition chunkMax (d : Data) (k : Z) : Z :=
  Z.min (chunkMin d k + linesInBuffer d - 1) (maxY d).

Definition chunkOf (d : Data) (y : Z) : Z :=
  Z.quot (y - minY d) (linesInBuffer d).

(** The gathered bytes of a line buffer lie inside its buffer, which has
    at least the size the file gives to line buffers. *)
Definition bufferOk (d : Data) (lineBuffer : LineBuffer.t) : Prop :=
  0 <= LineBuffer.endOfLineBufferData lineBuffer
    <= Z.of_nat (length (LineBuffer.buffer lineBuffer))
  /\ lineBufferSize d <= Z.of_nat (length (LineBuffer.buffer lineBuffer)).

(** A compressor that never throws. *)
Definition reliable (lineBuffer : LineBuffer.t) : Prop :=
  forall compress, LineBuffer.compressor lineBuffer = Some compress ->
  forall block y, exists compPtr, compress block y = inr compPtr.

(** The members of a line buffer that the gathering of scan lines leaves
    alone. *)
Record sameControl (b1 b2 : LineBuffer.t) : Prop := mkSameControl {
  sc_minY : LineBuffer.minY b2 = LineBuffer.minY b1;
  sc_maxY : LineBuffer.maxY b2 = LineBuffer.maxY b1;
  sc_scanLineMin : LineBuffer.scanLineMin b2 = LineBuffer.scanLineMin b1;
  sc_scanLineMax : LineBuffer.scanLineMax b2 = LineBuffer.scanLineMax b1;
  sc_compressor : LineBuffer.compressor b2 = LineBuffer.compressor b1;
  sc_partiallyFull :
    LineBuffer.partiallyFull b2 = LineBuffer.partiallyFull b1;
  sc_hasException : LineBuffer.hasException b2 = LineBuffer.hasException b1;
  sc_exception : LineBuffer.exception b2 = LineBuffer.exception b1 }.

(** The line buffer is ready for the writer: its data block holds the
    bytes that [dataSize] counts. *)
Definition dataOk (lineBuffer : LineBuffer.t) : Prop :=
  0 <= LineBuffer.dataSize lineBuffer
    <= Z.of_nat (length (LineBuffer.data lineBuffer)).

(** The static part of the invariant, as the tasks need it. *)
Definition tableOk (d : Data) : Prop :=
  Z.of_nat (length (offsetInLineBuffer d)) = maxY d - minY d + 1
  /\ forall (i : nat) off, offsetInLineBuffer d !! i = Some off ->
     0 <= off <= lineBufferSize d.

(** What holds of every slot between the passes of the drain loop. *)
Definition slotOk (d : Data) (lineBuffer : LineBuffer.t) : Prop :=
  LineBuffer.hasException lineBuffer = false
  /\ bufferOk d lineBuffer
  /\ reliable lineBuffer.

(** The scan lines [lo0 .. hi0] of a call end before chunk [k] does, in
    the direction of the file. *)
Definition endsEarly (d : Data) (lo0 hi0 k : Z) : bool :=
  if decide (lineOrder d = INCREASING_Y)
  then bool_decide (hi0 < chunkMax d k)
  else bool_decide (chunkMin d k < lo0).

(** The slot of chunk [k] after the task of a call for the scan lines
    [lo0 .. hi0] has run on it. *)
Definition taskDone (d : Data) (lo0 hi0 k : Z) (lineBuffer : LineBuffer.t)
    : Prop :=
  LineBuffer.minY lineBuffer = chunkMin d k
  /\ LineBuffer.maxY lineBuffer = chunkMax d k
  /\ LineBuffer.scanLineMin lineBuffer = Z.max (chunkMin d k) lo0
  /\ LineBuffer.scanLineMax lineBuffer = Z.min (chunkMax d k) hi0
  /\ if endsEarly d lo0 hi0 k
     then LineBuffer.partiallyFull lineBuffer = true
     else LineBuffer.partiallyFull lineBuffer = false /\ dataOk lineBuffer.

(** The file [d] with the members that [writePixels] changes replaced. *)
Definition upd (d : Data) (lineBuffers_ : list LineBuffer.t)
    (missing current : Z) (offsets : list Z)
    (streamData : OutputStreamMutex.t) : Data :=
  set_lineBuffers lineBuffers_
    (set_missingScanLines missing
       (set_currentScanLine current
          (set_lineOffsets offsets (set_streamData streamData d)))).

(** The slot of chunk [k] among [size] line buffers. *)
Definition slotOf (size : nat) (k : Z) : nat :=
  Z.to_nat (k mod Z.of_nat size).

(** A call [writePixels (n)] on a file whose cursor is at [c0]: the
    direction [step] of the file, and the scan lines [lo0 .. hi0] that the
    call asks for. *)
Record validCall (d : Data) (c0 n step lo0 hi0 : Z) : Prop := mkValidCall {
  vc_lines : 0 < linesInBuffer d;
  vc_int : maxY d - minY d < 2 ^ 32;
  vc_n : 1 <= n;
  vc_lo : minY d <= lo0;
  vc_hi : hi0 <= maxY d;
  vc_dir :
    (lineOrder d = INCREASING_Y /\ step = 1
     /\ lo0 = c0 /\ hi0 = c0 + n - 1)
    \/ (lineOrder d <> INCREASING_Y /\ step = -1
        /\ hi0 = c0 /\ lo0 = c0 - n + 1) }.

(** Chunk [k] lies between the first and the last chunk of the call. *)
Definition inRange (step first last k : Z) : Prop :=
  0 <= (k - first) * step /\ 0 <= (last - k) * step.

(** The cursor when the drain loop comes to chunk [w]. *)
Definition cursorAt (d : Data) (c0 first w : Z) : Z :=
  if decide (w = first) then c0
  else if decide (lineOrder d = INCREASING_Y)
  then chunkMin d w else chunkMax d w.

(** The counter that goes with a cursor. *)
Definition missingAt (d : Data) (current : Z) : Z :=
  if decide (lineOrder d = INCREASING_Y)
  then maxY d + 1 - current else current - minY d + 1.

(** The lines of chunk [k] that a call for [lo0 .. hi0] supplies. *)
Definition linesOf (d : Data) (lo0 hi0 k : Z) : Z :=
  Z.min (chunkMax d k) hi0 - Z.max (chunkMin d k) lo0 + 1.

(** The invariant of the drain loop: every slot is in order, only the
    slot of the last chunk can be partially full, and the slots of the
    chunks from the next to write up to the next to compress hold what
    their tasks made. *)
Definition window (d : Data) (lo0 hi0 step last w q : Z)
    (lineBuffers_ : list LineBuffer.t) : Prop :=
  (forall (i : nat) lb, lineBuffers_ !! i = Some lb ->
     slotOk d lb
     /\ (LineBuffer.partiallyFull lb = true ->
         i = slotOf (length lineBuffers_) last /\ 0 < (q - last) * step))
  /\ (forall k, 0 <= (k - w) * step -> 0 < (q - k) * step ->
      exists lb,
        lineBuffers_ !! slotOf (length lineBuffers_) k = Some lb
        /\ taskDone d lo0 hi0 k lb).

(** The invariant of a file between calls.  The cursor and the counter
    move together; the tables have the sizes of the data window; no line
    buffer holds an exception; a line buffer is partially full only when
    it is the slot of the chunk of the current scan line and holds that
    chunk. *)
Record wf (d : Data) : Prop := mkWf {
  wf_lines : 0 < linesInBuffer d;
  wf_window : minY d <= maxY d;
  wf_int : maxY d - minY d < 2 ^ 32;
  wf_buffers : (0 < length (lineBuffers d))%nat;
  wf_cursor :
    currentScanLine d
    = if decide (lineOrder d = INCREASING_Y)
      then maxY d + 1 - missingScanLines d
      else minY d - 1 + missingScanLines d;
  wf_missing : 0 <= missingScanLines d <= maxY d - minY d + 1;
  wf_lineOffsets :
    Z.of_nat (length (lineOffsets d))
    = Z.quot (maxY d - minY d + linesInBuffer d) (linesInBuffer d);
  wf_table :
    Z.of_nat (length (offsetInLineBuffer d)) = maxY d - minY d + 1;
  wf_table_range :
    forall (i : nat) off, offsetInLineBuffer d !! i = Some off ->
    0 <= off <= lineBufferSize d;
  wf_slots :
    forall (i : nat) lineBuffer, lineBuffers d !! i = Some lineBuffer ->
    LineBuffer.hasException lineBuffer = false
    /\ bufferOk d lineBuffer
    /\ reliable lineBuffer
    /\ (LineBuffer.partiallyFull lineBuffer = true ->
        0 < missingScanLines d
        /\ getLineBufferIndex d (chunkOf d (currentScanLine d)) = Some i
        /\ LineBuffer.minY lineBuffer
           = chunkMin d (chunkOf d (currentScanLine d))
        /\ LineBuffer.maxY lineBuffer
           = chunkMax d (chunkOf d (currentScanLine d))) }.

(** The nominal state of a source file: [rawPixelData] never throws. *)
Definition readable (inp : InputFile.t) : Prop :=
  forall y, exists pixelData, InputFile.rawPixelData inp y = inr pixelData.

(** The calls [writePixels (n)] for the numbers of [ns], each made while
    scan lines are missing and asking for no more than are missing. *)
Fixpoint feasible (missing : Z) (ns : list Z) : Prop :=
  match ns with
  | [] => True
  | n :: rest => 0 < missing /\ 0 <= n <= missing /\ feasible (missing - n) rest
  end.

Definition sum (ns : list Z) : Z := fold_right Z.add 0 ns.

(** The first stored exception of a list of slots. *)
Fixpoint firstException (lineBuffers_ : list LineBuffer.t) : option string :=
  match lineBuffers_ with
  | [] => None
  | lb :: rest =>
      if LineBuffer.hasException lb then Some (LineBuffer.exception lb)
      else firstException rest
  end.

(** What [initialize] needs of the helpers for a header: a data window
    with scan lines, a positive number of lines for a chunk, a table of
    offsets with one entry for every scan line, each inside a line buffer,
    and a compressor that does not throw. *)
Definition helpersOk (ops : MiscOps) (hdr : Header.t) : Prop :=
  let dataWindow := Header.dataWindow hdr in
  let lo := V2i.y (Box2i.min dataWindow) in
  let hi := V2i.y (Box2i.max dataWindow) in
  let table := bytesPerLineTable ops hdr in
  let comp := newCompressor ops (Header.compression hdr) table.1 hdr in
  let lines := numLinesInBuffer ops comp in
  let offsets := offsetInLineBufferTable ops table.2 lines in
  lo <= hi /\ hi - lo < 2 ^ 32 /\ 0 < lines
  /\ Z.of_nat (length offsets) = hi - lo + 1
  /\ (forall (i : nat) off, offsets !! i = Some off ->
      0 <= off <= table.1 * lines)
  /\ (forall compress, comp = Some compress ->
      forall block y, exists compPtr, compress block y = inr compPtr).
(** * Predicates of the file layout *)

(** The number of chunks of a file, and the chunk that is written as
    number [i], counted from 0, in the order of the file's scan lines. *)
Definition chunkCount (d : Data) : Z :=
  Z.quot (maxY d - minY d + linesInBuffer d) (linesInBuffer d).

Definition nthChunk (d : Data) (i : Z) : Z :=
  if decide (lineOrder d = INCREASING_Y) then i else chunkCount d - 1 - i.

(** The chunk of the next scan line of a file; the place after the last
    chunk when no scan line is missing. *)
Definition nextChunk (d : Data) : Z :=
  if decide (missingScanLines d <= 0)
  then nthChunk d (chunkCount d)
  else chunkOf d (currentScanLine d).

(** The record of a chunk with the scan line [chunk.1] in its head and the
    payload [chunk.2]. *)
Definition chunkBytes (d : Data) (chunk : Z * list byte) : list byte :=
  chunkRecord d chunk.1 chunk.2 (Z.of_nat (length chunk.2)).

(** The stream holds [base] and behind it the records of [chunks], one
    after the other, and stands at its end with a cached position that is
    right or unknown.  The offset table has the position of the record of
    [chunks !! i] in the entry of the chunk that is number [i] in the
    order of the file, and 0 in the entries of the chunks that [chunks]
    does not reach. *)
Definition placed (d : Data) (base : list byte)
    (chunks : list (Z * list byte)) (offsets : list Z)
    (streamData : OutputStreamMutex.t) : Prop :=
  let os := OutputStreamMutex.os streamData in
  let records := chunkBytes d <$> chunks in
  OStream.bytes os = base ++ mjoin records
  /\ tellp os = Z.of_nat (length (OStream.bytes os))
  /\ (OutputStreamMutex.currentPosition streamData = 0
      \/ OutputStreamMutex.currentPosition streamData = tellp os)
  /\ Z.of_nat (length offsets) = chunkCount d
  /\ forall i : nat, Z.of_nat i < chunkCount d ->
     offsets !! Z.to_nat (nthChunk d (Z.of_nat i))
     = Some (if decide (i < length chunks)%nat
             then Z.of_nat (length (base ++ mjoin (take i records)))
             else 0).

(** The layout of a file between calls: the chunks before the chunk of
    the next scan line are on the stream. *)
Definition written (d : Data) (base : list byte)
    (chunks : list (Z * list byte)) : Prop :=
  placed d base chunks (lineOffsets d) (_streamData d)
  /\ Z.of_nat (length chunks) = nthChunk d (nextChunk d).

(** Every chunk has its first scan line in its head. *)
Definition headed (d : Data) (chunks : list (Z * list byte)) : Prop :=
  forall (i : nat) chunk, chunks !! i = Some chunk ->
  chunk.1 = chunkMin d (nthChunk d (Z.of_nat i)).

(** The states that a file [d0] comes to when frame buffers are bound
    and [writePixels] is called, each call asking for no more scan lines
    than are missing and returning. *)
Inductive reaches (ops : MiscOps) (d0 : Data) : Data -> Prop :=
  | reaches_here : reaches ops d0 d0
  | reaches_setFrameBuffer frameBuffer_ d d' :
      reaches ops d0 d ->
      setFrameBuffer frameBuffer_ d = Returned d' ->
      reaches ops d0 d'
  | reaches_writePixels n d d' :
      reaches ops d0 d ->
      0 <= n <= missingScanLines d ->
      writePixels ops n d = Returned d' ->
      reaches ops d0 d'.

(** The scan line that [copyPixels] asks its source for in pass [i],
    counted from 0, of its loop on the file [d]. *)
Definition copyCursor (d : Data) (i : Z) : Z :=
  currentScanLine d
  + i * (if decide (lineOrder d = INCREASING_Y)
         then linesInBuffer d else - linesInBuffer d).

(** The chunks are those of the source: chunk [i] has the block that the
    source gives for the scan line of pass [i], and in its head the scan
    line that [lineBufferMinY] gives for it. *)
Definition copiedFrom (ops : MiscOps) (inp : InputFile.t) (d : Data)
    (chunks : list (Z * list byte)) : Prop :=
  forall (i : nat) chunk, chunks !! i = Some chunk ->
  chunk.1
  = lineBufferMinY ops (copyCursor d (Z.of_nat i)) (minY d) (linesInBuffer d)
  /\ InputFile.rawPixelData inp (copyCursor d (Z.of_nat i)) = inr chunk.2.

(** The offset table as it stands in the file. *)
Definition tableBytes (offsets : list Z) : list byte :=
  mjoin (Xdr_uint64 <$> offsets).


(** * Predicates of the compression step and of the range error *)

(** The runs of samples in a line buffer, in the order of its bytes: for
    every scan line, every slice that has data in that line gives one run
    of [dMaxX - dMinX + 1] samples of its type. *)
Definition lineRuns (ofd : Data) (y : Z) : list (PixelType * Z) :=
  slice ← slices ofd;
  if decide (modp y (OutSliceInfo.ySampling slice) <> 0) then []
  else [(OutSliceInfo.type slice,
         divp (maxX ofd) (OutSliceInfo.xSampling slice)
         - divp (minX ofd) (OutSliceInfo.xSampling slice) + 1)].

Definition sampleRuns (ofd : Data) (lo hi : Z) : list (PixelType * Z) :=
  mjoin ((fun i : nat => lineRuns ofd (lo + Z.of_nat i))
         <$> seq 0 (Z.to_nat (hi - lo + 1))).

(** Following the spec's words, the raw bytes of a chunk converted to the
    wire byte order in place: the block is read as one run of samples
    after the other, every run stands in the result as [convertInPlace]
    gives it, and the bytes behind the last run stay. *)
Fixpoint wireOrder (ops : MiscOps) (runs : list (PixelType * Z))
    (block : list byte) : list byte :=
  match runs with
  | [] => block
  | (type, n) :: rest =>
      let converted := convertInPlace ops type n block in
      converted ++ wireOrder ops rest (drop (length converted) block)
  end.



(** All the scan lines of the file have been written: no scan line is
    missing, the current scan line is the one behind the data window in
    the order of the file, and no line buffer is partially full. *)
Definition allWritten (d : Data) : Prop :=
  0 < linesInBuffer d /\ minY d <= maxY d
  /\ (0 < length (lineBuffers d))%nat
  /\ missingScanLines d <= 0
  /\ currentScanLine d
     = (if decide (lineOrder d = INCREASING_Y)
        then maxY d + 1 else minY d - 1)
  /\ Forall (fun lineBuffer => LineBuffer.partiallyFull lineBuffer = false)
       (lineBuffers d).

(** * A small file for the examples

    One HALF channel [R], two pixels in a line, four lines in a chunk.
    The user's memory holds at address [a] the byte [a mod 256]. *)

Module Example.

Definition pixelTypeSize (type : PixelType) : nat :=
  match type with HALF => 2%nat | UINT | FLOAT => 4%nat end.

Definition memory (a : Z) : byte := byte_of_Z a.

Definition sample (type : PixelType) (a : Z) : list byte :=
  (fun i : nat => memory (a + Z.of_nat i)) <$> seq 0 (pixelTypeSize type).

Definition swapSample (size : nat) (block : list byte) : list byte :=
  reverse (take size block).

Fixpoint swapSamples (n size : nat) (block : list byte) : list byte :=
  match n with
  | O => []
  | S k => swapSample size block ++ swapSamples k size (drop size block)
  end.

Definition bytesPerLines (hdr : Header.t) : list Z :=
  replicate
    (Z.to_nat (V2i.y (Box2i.max (Header.dataWindow hdr))
               - V2i.y (Box2i.min (Header.dataWindow hdr)) + 1)) 4.

Definition ops (format_ : Format) (compressor : option Compressor)
    : MiscOps :=
  mkMiscOps
    (fun _ type n => replicate (Z.to_nat n * pixelTypeSize type) x00)
    (fun readPtr endPtr xStride _ type =>
       mjoin ((fun i : nat => sample type (readPtr + Z.of_nat i * xStride))
              <$> seq 0 (Z.to_nat (Z.quot (endPtr - readPtr) xStride + 1))))
    (fun type n block => swapSamples (Z.to_nat n) (pixelTypeSize type) block)
    (fun y minY_ lines => Z.quot (y - minY_) lines * lines + minY_)
    (fun hdr => (4, bytesPerLines hdr))
    (fun table lines => imap (fun i _ => 4 * (Z.of_nat i mod lines)) table)
    (fun _ _ _ => compressor)
    (fun _ => format_)
    (fun _ => 4).

(** Compressors: one that gives back its input, one that throws. *)
Definition same : Compressor := fun block _ => inr block.
Definition failing : Compressor :=
  fun _ _ => inl (StdException "compressor failed").

Definition hdr (lines : Z) (order : LineOrder) : Header.t :=
  Header.mk (Box2i.mk (V2i.mk 0 0) (V2i.mk 1 (lines - 1))) order 3
    [("R"%string, Channel.mk HALF 1 1 false)] false.

Definition stream : OutputStreamMutex.t :=
  OutputStreamMutex.mk (OStream.mk "out.exr" (replicate 8 x00) 8) 8.

Definition frameBuffer : FrameBuffer :=
  {[ "R"%string := Slice.mk HALF 4096 2 4 1 1 ]}.

(** A fresh file of [lines] scan lines with [2 * numThreads] line buffers
    (one when there are no threads), and the same file with the frame
    buffer bound. *)
Definition fresh (o : MiscOps) (numThreads lines : Z) (order : LineOrder)
    : Data :=
  initialize o numThreads false stream (hdr lines order).

Definition bound (o : MiscOps) (numThreads lines : Z) (order : LineOrder)
    : Data :=
  match setFrameBuffer frameBuffer (fresh o numThreads lines order) with
  | Returned d => d
  | _ => fresh o numThreads lines order
  end.

(** The state a call leaves, whether it returned or threw. *)
Definition after (r : Result) (d : Data) : Data :=
  match r with
  | Returned d' | Threw _ d' => d'
  | Undefined => d
  end.

Definition source (lines : Z) (order : LineOrder) : InputFile.t :=
  InputFile.mk (hdr lines order) "in.exr" (fun _ => inr [x01; x02; x03]).

(** The files of the examples: eight or five scan lines, increasing
    order, one line buffer, a compressor that gives back its input. *)
Definition plain : MiscOps := ops XDR (Some same).

Definition eight : Data := bound plain 0 8 INCREASING_Y.

Definition five : Data := bound plain 0 5 INCREASING_Y.

(** The file of eight scan lines after all of them have been written. *)
Definition full : Data := after (writePixels plain 8 eight) eight.

(** A file of four scan lines in the machine's format, and the slot of its
    only chunk as the task's constructor and the gathering of the four
    lines leave it. *)
Definition native : MiscOps := ops NATIVE (Some same).

Definition four : Data := bound native 0 4 INCREASING_Y.

Definition made : LineBuffer.t :=
  LineBufferTask_new four 0 0 3
    (default (LineBuffer.new None) (lineBuffers four !! 0%nat)).

Definition filled : LineBuffer.t :=
  match gather native four made with
  | Some (lineBuffer, _) => lineBuffer
  | None => made
  end.

(** A file whose compressor throws. *)
Definition broken : MiscOps := ops XDR (Some failing).

Definition doomed : Data := bound broken 0 8 INCREASING_Y.

(** The collaborators of the constructors: every header passes its
    check, a new file is empty, and the start of a file is the magic
    number with the version and the byte that ends an empty header. *)
Definition magic : list byte := [x76; x2f; x31; x01; x02; x00; x00; x00].

Definition files : FileOps :=
  mkFileOps
    (fun _ => None)
    (fun name => inr (OStream.mk name [] 0))
    (fun os _ => inr (os_write magic os))
    (fun _ os => inr (os_write [x00] os, 0))
    (fun text => text).

Definition empty : OStream.t := OStream.mk "out.exr" [] 0.

(** The file of eight scan lines as the constructor opens it on the empty
    stream, and the same file with the frame buffer bound. *)
Definition opened : Data :=
  match OutputFile_stream plain files empty (hdr 8 INCREASING_Y) 0 with
  | Some (inr d) => d
  | _ => fresh plain 0 8 INCREASING_Y
  end.

Definition ready : Data :=
  match setFrameBuffer frameBuffer opened with
  | Returned d => d
  | _ => opened
  end.

(** A stream that already holds three bytes. *)
Definition used : OStream.t := OStream.mk "out.exr" [x01; x02; x03] 3.

(** A part of a multi-part file, with the type of its header. *)
Definition part (type : string) : OutputPartData.t :=
  OutputPartData.mk (hdr 8 INCREASING_Y) type 0 3 9 0 true stream.

(** A source that gives the block of its first chunk and throws for the
    scan lines of the second. *)
Definition torn : InputFile.t :=
  InputFile.mk (hdr 8 INCREASING_Y) "in.exr"
    (fun y => if decide (y < 4) then inr [x01; x02; x03]
              else inl (IoExc "read failed")).

(** A frame buffer with another slice for the channel. *)
Definition otherFrameBuffer : FrameBuffer :=
  {[ "R"%string := Slice.mk HALF 8192 2 4 1 1 ]}.

(** The file that the constructor opens on the stream that holds three
    bytes. *)
Definition reopened : Data :=
  match OutputFile_stream plain files used (hdr 8 INCREASING_Y) 0 with
  | Some (inr d) => d
  | _ => fresh plain 0 8 INCREASING_Y
  end.

(** The opened file after all its scan lines have been written. *)
Definition complete : Data := after (writePixels plain 8 ready) ready.

(** The payloads of the two chunks of the file of eight scan lines: the
    sixteen bytes of the user's memory for each chunk. *)
Definition rows (first count : nat) : list byte :=
  (fun i : nat => byte_of_Z (Z.of_nat i)) <$> seq first count.

Definition twoChunks : list (Z * list byte) :=
  [(0, rows 0 16); (4, rows 16 16)].

(** A header of eight scan lines that has no channel. *)
Definition bare : Header.t :=
  Header.mk (Box2i.mk (V2i.mk 0 0) (V2i.mk 1 7)) INCREASING_Y 3 [] false.






(** The file of five scan lines after the quick copy of a source of five
    scan lines. *)
Definition copied : Data :=
  after (copyPixels plain (source 5 INCREASING_Y) five) five.

(** The file of eight scan lines after three of them have been written. *)
Definition begun : Data := after (writePixels plain 3 eight) eight.

(** The file on the stream that held three bytes, with the frame buffer
    bound, and after all its scan lines have been written. *)
Definition reopenedReady : Data :=
  after (setFrameBuffer frameBuffer reopened) reopened.

Definition reopenedFull : Data :=
  after (writePixels plain 8 reopenedReady) reopenedReady.

End Example.
(** * Properties *)

(** ** Blocks of bytes *)

Lemma length_store (off : Z) (bs block : list byte) :
  0 <= off ->
  length (store off bs block)
  = Nat.max (length block) (Z.to_nat off + length bs).
Proof.
  intros Hoff. unfold store.
  rewrite !length_app, length_take, length_drop, length_app, length_replicate.
  lia.
Qed.

Lemma store_app (off : Z) (a b block : list byte) :
  0 <= off ->
  store (off + Z.of_nat (length a)) b (store off a block)
  = store off (a ++ b) block.
Proof.
  intros Hoff. unfold store.
  set (n := Z.to_nat off).
  replace (Z.to_nat (off + Z.of_nat (length a))) with (n + length a)%nat
    by (subst n; lia).
  set (padded := block ++ replicate (n - length block) x00).
  assert (Hn : (n <= length padded)%nat).
  { subst padded. rewrite length_app, length_replicate. lia. }
  set (inner := take n padded ++ a ++ drop (n + length a) padded).
  assert (Hin : (n + length a <= length inner)%nat).
  { subst inner. rewrite !length_app, length_take. lia. }
  replace (n + length a - length inner)%nat with 0%nat by lia.
  simpl. rewrite app_nil_r.
  subst inner.
  rewrite (app_assoc (take n padded) a).
  rewrite take_app_length'
    by (rewrite length_app, length_take; lia).
  rewrite drop_app_ge by (rewrite length_app, length_take; lia).
  rewrite length_app, length_take.
  rewrite drop_drop.
  rewrite <- !app_assoc. do 4 f_equal.
  rewrite length_app, Nat.min_l by done. lia.
Qed.

Lemma peek_store (off : Z) (bs block : list byte) :
  0 <= off ->
  peek off (length bs) (store off bs block) = bs.
Proof.
  intros Hoff. unfold peek, store.
  set (n := Z.to_nat off).
  set (padded := block ++ replicate (n - length block) x00).
  assert (Hn : (n <= length padded)%nat).
  { subst padded. rewrite length_app, length_replicate. lia. }
  rewrite drop_app_length' by (rewrite length_take; lia).
  by rewrite take_app_length.
Qed.

Lemma take_store (off : Z) (bs block : list byte) :
  0 <= off -> off <= Z.of_nat (length block) ->
  take (Z.to_nat off) (store off bs block) = take (Z.to_nat off) block.
Proof.
  intros Hoff Hle. unfold store.
  replace (Z.to_nat off - length block)%nat with 0%nat by lia.
  simpl. rewrite app_nil_r.
  rewrite take_app_length'; [done|]. rewrite length_take. lia.
Qed.

Lemma os_write_app (a b : list byte) (os : OStream.t) :
  0 <= OStream.pos os ->
  os_write b (os_write a os) = os_write (a ++ b) os.
Proof.
  intros Hpos. unfold os_write. simpl.
  rewrite store_app by done. f_equal.
  rewrite length_app. lia.
Qed.

Lemma length_Xdr_int (v : Z) : length (Xdr_int v) = 4%nat.
Proof. reflexivity. Qed.

(** ** Binding the frame buffer *)


Lemma checkFrameBuffer_None (file : string) (channels : ChannelList)
    (frameBuffer : FrameBuffer) :
  checkFrameBuffer file channels frameBuffer = None
  <-> compatible channels frameBuffer.
Proof.
  induction channels as [|[name channel] rest IH]; simpl.
  - split; [|done]. intros _ n c s Hin. by apply elem_of_nil in Hin.
  - destruct (frameBuffer !! name) as [slice|] eqn:Hfind.
    + destruct (decide (Channel.type channel <> Slice.type slice)) as [Ht|Ht].
      { split; [done|]. intros Hc.
        destruct (Hc name channel slice) as [? _]; [left|done|done]. }
      destruct (decide (Channel.xSampling channel <> Slice.xSampling slice
                        \/ Channel.ySampling channel <> Slice.ySampling slice))
        as [Hs|Hs].
      { split; [done|]. intros Hc.
        destruct (Hc name channel slice) as (_ & ? & ?); [left|done|].
        destruct Hs; done. }
      rewrite IH. split.
      * intros Hc n c s Hin Hn. apply elem_of_cons in Hin as [Heq|Hin].
        -- simplify_eq. repeat split.
           ++ by destruct (decide (Channel.type channel = Slice.type slice)).
           ++ destruct (decide (Channel.xSampling channel
                                = Slice.xSampling slice)); [done|].
              exfalso. apply Hs. by left.
           ++ destruct (decide (Channel.ySampling channel
                                = Slice.ySampling slice)); [done|].
              exfalso. apply Hs. by right.
        -- by apply (Hc n c s).
      * intros Hc n c s Hin. apply Hc. by right.
    + rewrite IH. split.
      * intros Hc n c s Hin Hn. apply elem_of_cons in Hin as [Heq|Hin].
        -- simplify_eq.
        -- by apply (Hc n c s).
      * intros Hc n c s Hin. apply Hc. by right.
Qed.

Lemma checkFrameBuffer_Some (file : string) (channels : ChannelList)
    (frameBuffer : FrameBuffer) (e : Exc) :
  checkFrameBuffer file channels frameBuffer = Some e ->
  exists name, e = ArgExc (msg_pixelType name file)
               \/ e = ArgExc (msg_sampling name file).
Proof.
  induction channels as [|[name channel] rest IH]; simpl; [done|].
  destruct (frameBuffer !! name) as [slice|]; [|done].
  repeat case_decide; [| |done].
  - intros [= <-]. exists name. by left.
  - intros [= <-]. exists name. by right.
Qed.

(** C7.  Binding a frame buffer that fits the header succeeds and stores
    one slice for every channel of the header, in the header's order: a
    channel without a slice in the frame buffer is marked zero-fill and
    keeps the header's type and sampling, a channel with a slice takes
    the slice's addresses and is not zero-fill.  Binding a frame buffer
    in which some channel of the header has another pixel type or another
    x or y sampling throws an argument error and leaves the whole state,
    the slice table included, as it was. *)
Theorem setFrameBuffer_binds_or_rejects (frameBuffer : FrameBuffer)
    (d : Data) :
  let channels := Header.channels (header d) in
  (compatible channels frameBuffer ->
   exists d',
     setFrameBuffer frameBuffer d = Returned d'
     /\ length (slices d') = length channels
     /\ forall (i : nat) name channel,
          channels !! i = Some (name, channel) ->
          match frameBuffer !! name with
          | None =>
              slices d' !! i
              = Some (OutSliceInfo.mk (Channel.type channel) 0 0 0
                        (Channel.xSampling channel)
                        (Channel.ySampling channel) true)
          | Some slice =>
              slices d' !! i
              = Some (OutSliceInfo.mk (Channel.type channel)
                        (Slice.base slice) (Slice.xStride slice)
                        (Slice.yStride slice) (Channel.xSampling channel)
                        (Channel.ySampling channel) false)
          end)
  /\ (~ compatible channels frameBuffer ->
      exists name,
        (setFrameBuffer frameBuffer d
         = Threw (ArgExc (msg_pixelType name (fileName d))) d
         \/ setFrameBuffer frameBuffer d
            = Threw (ArgExc (msg_sampling name (fileName d))) d)).
Proof.
  intros channels. unfold setFrameBuffer. fold channels.
  destruct (checkFrameBuffer (fileName d) channels frameBuffer) as [e|] eqn:Hc.
  - split.
    + intros Hcompat.
      apply (checkFrameBuffer_None (fileName d)) in Hcompat. congruence.
    + intros _. apply checkFrameBuffer_Some in Hc as [name [-> | ->]];
        exists name; auto.
  - split.
    + intros Hcompat. eexists. split; [reflexivity|]. simpl.
      split; [by rewrite length_fmap|].
      intros i name channel Hi. subst channels.
      destruct (frameBuffer !! name) as [slice|] eqn:Hfind;
        rewrite list_lookup_fmap, Hi; simpl; unfold sliceFor; simpl;
        rewrite Hfind; [|done].
      destruct (Hcompat name channel slice) as (-> & -> & ->); [|done|done].
      by eapply list_elem_of_lookup_2.
    + intros Hn. exfalso. apply Hn. by apply checkFrameBuffer_None in Hc.
Qed.

(** ** The constructor of a task *)

(** C8.  A task that takes a slot which is not partially full sets the
    slot's span to the lines of its chunk,
    [minY + number * linesInBuffer] up to the smaller of that plus
    [linesInBuffer - 1] and the data window's [maxY], and marks the slot
    partially full; a task that takes a partially full slot keeps the span
    the slot has. *)
Theorem LineBufferTask_new_span (ofd : Data)
    (number scanLineMin scanLineMax : Z) (lineBuffer : LineBuffer.t) :
  let lineBuffer' :=
    LineBufferTask_new ofd number scanLineMin scanLineMax lineBuffer in
  let lo := minY ofd + number * linesInBuffer ofd in
  LineBuffer.partiallyFull lineBuffer' = true
  /\ (LineBuffer.partiallyFull lineBuffer = false ->
      LineBuffer.minY lineBuffer' = lo
      /\ LineBuffer.maxY lineBuffer'
         = Z.min (lo + linesInBuffer ofd - 1) (maxY ofd))
  /\ (LineBuffer.partiallyFull lineBuffer = true ->
      LineBuffer.minY lineBuffer' = LineBuffer.minY lineBuffer
      /\ LineBuffer.maxY lineBuffer' = LineBuffer.maxY lineBuffer).
Proof.
  unfold LineBufferTask_new.
  destruct (LineBuffer.partiallyFull lineBuffer) eqn:Hp; simpl;
    repeat split; try done.
Qed.

(** ** Chunk records *)


Lemma length_chunkRecord (d : Data) (lineBufferMinY_ : Z)
    (pixelData : list byte) (pixelDataSize : Z) :
  0 <= pixelDataSize <= Z.of_nat (length pixelData) ->
  Z.of_nat (length (chunkRecord d lineBufferMinY_ pixelData pixelDataSize))
  = (if multiPart d then 4 else 0) + 4 + 4 + pixelDataSize.
Proof.
  intros Hsize. unfold chunkRecord.
  rewrite !length_app, !length_Xdr_int, length_take.
  rewrite Nat.min_l by lia.
  destruct (multiPart d); simpl length; lia.
Qed.

(** The three or four writes of [writePixelData] as one. *)
Lemma writePixelData_stream (d : Data) (lineBufferMinY_ : Z)
    (pixelData : list byte) (pixelDataSize : Z) (os0 : OStream.t) :
  0 <= OStream.pos os0 ->
  os_write (take (Z.to_nat pixelDataSize) pixelData)
    (Xdr_write_int pixelDataSize
       (Xdr_write_int lineBufferMinY_
          (if multiPart d then Xdr_write_int (partNumber d) os0 else os0)))
  = os_write (chunkRecord d lineBufferMinY_ pixelData pixelDataSize) os0.
Proof.
  intros Hpos. unfold Xdr_write_int, chunkRecord.
  destruct (multiPart d).
  - rewrite !os_write_app; [done|done| |]; simpl; lia.
  - rewrite !os_write_app; [done|done|]; simpl; lia.
Qed.

(** X16.  On a stream whose cached position is 0 (unknown) or equal to
    the put position [p], with [p] inside the stream, [writePixelData]
    puts one record at [p]: the four bytes of the part number when the
    file is multi-part, the four bytes of the scan line it is given as
    the chunk's [minY], the four bytes of the payload length, and then
    that many payload bytes.  The entry of the offset table for the chunk
    of the current scan line becomes [p], the position before the write;
    the bytes before [p] stay as they were, and the new cached position
    is the new put position. *)
Theorem writePixelData_record (lineBufferMinY_ : Z) (pixelData : list byte)
    (pixelDataSize : Z) (d : Data) :
  let os0 := OutputStreamMutex.os (_streamData d) in
  let p := tellp os0 in
  let slot := Z.quot (currentScanLine d - minY d) (linesInBuffer d) in
  let payload := take (Z.to_nat pixelDataSize) pixelData in
  let record :=
    (if multiPart d then Xdr_int (partNumber d) else [])
    ++ Xdr_int lineBufferMinY_ ++ Xdr_int pixelDataSize ++ payload in
  0 <= p <= Z.of_nat (length (OStream.bytes os0)) ->
  OutputStreamMutex.currentPosition (_streamData d) = 0
  \/ OutputStreamMutex.currentPosition (_streamData d) = p ->
  linesInBuffer d <> 0 ->
  0 <= slot < Z.of_nat (length (lineOffsets d)) ->
  0 <= pixelDataSize <= Z.of_nat (length pixelData) ->
  exists d',
    writePixelData lineBufferMinY_ pixelData pixelDataSize d = Some d'
    /\ lineOffsets d' = <[Z.to_nat slot := p]> (lineOffsets d)
    /\ lineOffsets d' !! Z.to_nat slot = Some p
    /\ (let os' := OutputStreamMutex.os (_streamData d') in
        peek p (length record) (OStream.bytes os') = record
        /\ take (Z.to_nat p) (OStream.bytes os')
           = take (Z.to_nat p) (OStream.bytes os0)
        /\ tellp os' = p + Z.of_nat (length record)
        /\ OutputStreamMutex.currentPosition (_streamData d') = tellp os')
    /\ Z.of_nat (length payload) = pixelDataSize
    /\ Z.of_nat (length record)
       = (if multiPart d then 4 else 0) + 4 + 4 + pixelDataSize.
Proof.
  intros os0 p slot payload record Hp Hcache Hlib Hslot Hsize.
  assert (Hrec : record = chunkRecord d lineBufferMinY_ pixelData pixelDataSize)
    by reflexivity.
  assert (Hlen := length_chunkRecord d lineBufferMinY_ pixelData
                    pixelDataSize Hsize).
  rewrite <- Hrec in Hlen.
  unfold writePixelData. fold os0.
  assert (Hcur :
    (if decide (OutputStreamMutex.currentPosition (_streamData d) = 0)
     then tellp os0
     else OutputStreamMutex.currentPosition (_streamData d)) = p).
  { case_decide; [done|]. by destruct Hcache. }
  rewrite Hcur.
  rewrite decide_False by done.
  unfold assign. fold slot. rewrite decide_True by done. simpl.
  rewrite decide_True by done.
  rewrite writePixelData_stream by (unfold p, tellp in Hp; lia).
  rewrite <- Hrec.
  eexists. split; [reflexivity|]. simpl.
  split; [done|].
  split; [apply list_lookup_insert_eq; lia|].
  split.
  - unfold p, tellp in *. repeat split.
    + apply peek_store. lia.
    + apply take_store; lia.
    + unfold Xdr_size_int. rewrite Hlen.
      destruct (multiPart d); lia.
  - split; [|done]. subst payload.
    rewrite length_take, Nat.min_l by lia. lia.
Qed.

(** ** The checks of the quick copy *)

Section Properties.

Variable ops : MiscOps.

(** C6.  When the two headers differ in data window, line order,
    compression or channel list, or when the destination no longer misses
    all the scan lines of its data window, [copyPixels] throws the error of
    the first check that fails, a message that names both files and says
    what differs, and the destination is left exactly as it was: no offset
    entry is set and no byte reaches the stream. *)
Theorem copyPixels_checks_before_copying (inp : InputFile.t) (d : Data) :
  let hdr := header d in
  let inHdr := InputFile.header inp in
  let dataWindow := Header.dataWindow hdr in
  Header.dataWindow hdr <> Header.dataWindow inHdr
  \/ Header.lineOrder hdr <> Header.lineOrder inHdr
  \/ Header.compression hdr <> Header.compression inHdr
  \/ Header.channels hdr <> Header.channels inHdr
  \/ missingScanLines d
     <> V2i.y (Box2i.max dataWindow) - V2i.y (Box2i.min dataWindow) + 1 ->
  exists e reason,
    copyPixels ops inp d = Threw e d
    /\ (e = ArgExc (msg_copy (InputFile.fileName inp) (fileName d) reason)
        \/ e = ArgExc (msg_quickCopy (InputFile.fileName inp) (fileName d)
                         reason)
        \/ e = LogicExc (msg_quickCopy (InputFile.fileName inp) (fileName d)
                           reason)).
Proof.
  intros hdr inHdr dataWindow Hbad.
  unfold copyPixels, copyPixels_check.
  fold hdr inHdr. fold dataWindow.
  destruct (Header.hasTiles inHdr); [eauto 6|].
  repeat (case_decide; [eauto 6|]).
  exfalso. tauto.
Qed.

(** The checks that pass leave the copy to the loop. *)
Lemma copyPixels_check_passes (inp : InputFile.t) (d : Data) :
  copyPixels_check inp d = None ->
  copyPixels ops inp d = copyLoop ops (Z.to_nat (missingScanLines d)) inp d.
Proof. unfold copyPixels. by intros ->. Qed.

(** ** The conversion to wire order *)

Lemma store_behind (done_ c rest : list byte) :
  store (Z.of_nat (length done_)) c (done_ ++ rest)
  = (done_ ++ c) ++ drop (length c) rest.
Proof.
  unfold store. rewrite Nat2Z.id.
  replace (length done_ - length (done_ ++ rest))%nat with 0%nat
    by (rewrite length_app; lia).
  simpl. rewrite app_nil_r.
  rewrite take_app_length, <- app_assoc. do 2 f_equal.
  by rewrite drop_app_add.
Qed.

(** The loop over the slices of one scan line converts the runs of that
    line, one behind the other, from the write pointer on. *)
Lemma convertSlices_wire (ofd : Data) (y : Z) (l : list OutSliceInfo.t)
    (done_ rest : list byte) :
  exists done' rest',
    fold_left (convertSlice ops ofd y) l
      (done_ ++ rest, Z.of_nat (length done_))
    = (done' ++ rest', Z.of_nat (length done'))
    /\ forall more,
         done_ ++ wireOrder ops
                    ((slice ← l;
                      if decide (modp y (OutSliceInfo.ySampling slice) <> 0)
                      then []
                      else [(OutSliceInfo.type slice,
                             divp (maxX ofd) (OutSliceInfo.xSampling slice)
                             - divp (minX ofd) (OutSliceInfo.xSampling slice)
                             + 1)]) ++ more) rest
         = done' ++ wireOrder ops more rest'.
Proof.
  revert done_ rest. induction l as [|slice l IH]; intros done_ rest.
  { by exists done_, rest. }
  simpl fold_left. unfold convertSlice at 2. cbn [fst snd].
  rewrite Nat2Z.id, drop_app_length.
  destruct (decide (modp y (OutSliceInfo.ySampling slice) <> 0)) as [Hy|Hy].
  - destruct (IH done_ rest) as (done' & rest' & Hrun & Hwire).
    exists done', rest'. split; [done|]. intros more.
    rewrite <- Hwire. cbn [mbind list_bind]. simpl.
    by rewrite decide_True by done.
  - set (c := convertInPlace ops (OutSliceInfo.type slice) _ rest).
    rewrite store_behind.
    replace (Z.of_nat (length done_) + Z.of_nat (length c))
      with (Z.of_nat (length (done_ ++ c))) by (rewrite length_app; lia).
    destruct (IH (done_ ++ c) (drop (length c) rest))
      as (done' & rest' & Hrun & Hwire).
    exists done', rest'. split; [done|]. intros more.
    rewrite <- Hwire. cbn [mbind list_bind]. simpl.
    rewrite decide_False by done. simpl. fold c.
    by rewrite <- app_assoc.
Qed.

Lemma convertLines_wire (ofd : Data) (k : nat) (y : Z)
    (done_ rest : list byte) :
  exists done' rest',
    convertLines ops k ofd y (done_ ++ rest, Z.of_nat (length done_))
    = (done' ++ rest', Z.of_nat (length done'))
    /\ forall more,
         done_ ++ wireOrder ops
                    (mjoin ((fun i : nat => lineRuns ofd (y + Z.of_nat i))
                            <$> seq 0 k) ++ more) rest
         = done' ++ wireOrder ops more rest'.
Proof.
  revert y done_ rest. induction k as [|k IH]; intros y done_ rest.
  { by exists done_, rest. }
  simpl convertLines.
  destruct (convertSlices_wire ofd y (slices ofd) done_ rest)
    as (done1 & rest1 & -> & Hwire1).
  destruct (IH (y + 1) done1 rest1) as (done' & rest' & Hrun & Hwire).
  exists done', rest'. split; [done|]. intros more.
  rewrite <- Hwire.
  fold (lineRuns ofd y) in Hwire1. rewrite <- Hwire1.
  do 2 f_equal.
  change (seq 0 (S k)) with (0%nat :: seq 1 k).
  rewrite <- fmap_S_seq, fmap_cons, <- list_fmap_compose.
  cbn [mjoin list_join]. rewrite Z.add_0_r, <- app_assoc.
  do 3 f_equal. apply list_fmap_ext. intros _ i _. simpl.
  f_equal. lia.
Qed.

(** [convertToXdr] walks the line buffer run by run: what it leaves is
    the buffer in wire order. *)
Lemma convertToXdr_wireOrder (ofd : Data) (lineBuffer : list byte)
    (lo hi inSize : Z) :
  convertToXdr ops ofd lineBuffer lo hi inSize
  = wireOrder ops (sampleRuns ofd lo hi) lineBuffer.
Proof.
  unfold convertToXdr, sampleRuns.
  destruct (convertLines_wire ofd (Z.to_nat (hi - lo + 1)) lo [] lineBuffer)
    as (done' & rest' & Hrun & Hwire).
  change (convertLines ops (Z.to_nat (hi - lo + 1)) ofd lo (lineBuffer, 0)
          = (done' ++ rest', Z.of_nat (length done'))) in Hrun.
  rewrite Hrun. specialize (Hwire []). rewrite app_nil_r in Hwire.
  exact (eq_sym Hwire).
Qed.

(** ** The compression step of a task *)

(** C5.  When the lines a task has gathered complete its chunk and the
    compressor gives a block for them, the task keeps the compressor's
    block only if it is strictly shorter than the gathered bytes.
    Otherwise the gathered bytes stay the data of the line buffer, with
    their size, and when the file's working format is the machine's own
    the buffer holds them in wire order before the writer reads it: every
    run of samples of every scan line of the chunk, in the order of the
    buffer, stands as [convertInPlace] gives it, and the bytes behind the
    last run are what they were.  In both cases the slot is no longer
    partially full. *)
Theorem compression_fallback (ofd : Data) (lineBuffer filled : LineBuffer.t)
    (y : Z) (compress : Compressor) (compPtr : list byte) :
  let rawSize := LineBuffer.endOfLineBufferData filled in
  let raw := LineBuffer.buffer filled in
  gather ops ofd lineBuffer = Some (filled, y) ->
  ~ (LineBuffer.minY filled <= y <= LineBuffer.maxY filled) ->
  LineBuffer.compressor filled = Some compress ->
  compress (take (Z.to_nat rawSize) raw) (LineBuffer.minY filled)
  = inr compPtr ->
  exists done_,
    execute ops ofd lineBuffer = Some done_
    /\ LineBuffer.partiallyFull done_ = false
    /\ (Z.of_nat (length compPtr) < rawSize ->
        LineBuffer.data done_ = compPtr
        /\ LineBuffer.dataSize done_ = Z.of_nat (length compPtr))
    /\ (rawSize <= Z.of_nat (length compPtr) ->
        LineBuffer.dataPtr done_ = OwnBuffer
        /\ LineBuffer.dataSize done_ = rawSize
        /\ LineBuffer.data done_
           = if decide (format ofd = NATIVE)
             then wireOrder ops
                    (sampleRuns ofd (LineBuffer.minY filled)
                       (LineBuffer.maxY filled)) raw
             else raw).
Proof.
  intros rawSize raw Hgather Hy Hcomp Hout.
  unfold execute, execute_try. rewrite Hgather. simpl.
  rewrite decide_False by done. simpl.
  rewrite Hcomp. fold rawSize raw. rewrite Hout.
  eexists. split; [reflexivity|].
  destruct (decide (Z.of_nat (length compPtr) < rawSize)) as [Hlt|Hge].
  - split; [done|]. split; [done|]. intros; lia.
  - split; [done|]. split; [intros; lia|]. intros _.
    destruct (decide (format ofd = NATIVE)); [|done].
    split; [done|]. split; [done|]. apply convertToXdr_wireOrder.
Qed.

(** ** What a task reads of the file *)

Lemma fold_left_pointwise {A B} (f g : A -> B -> A) (l : list B) (a : A) :
  (forall a b, f a b = g a b) -> fold_left f l a = fold_left g l a.
Proof.
  intros Hfg. revert a. induction l as [|b l IH]; intros a; simpl; [done|].
  by rewrite Hfg, IH.
Qed.

Lemma gatherSlice_ext (d1 d2 : Data) (y : Z) (acc : list byte * Z)
    (slice : OutSliceInfo.t) :
  sameTaskView d1 d2 ->
  gatherSlice ops d1 y acc slice = gatherSlice ops d2 y acc slice.
Proof.
  intros [? Hx1 Hx2 ? ? ? ? Hf ?]. unfold gatherSlice.
  by rewrite Hx1, Hx2, Hf.
Qed.

Lemma gatherScanLine_ext (d1 d2 : Data) (y : Z) (lineBuffer : LineBuffer.t) :
  sameTaskView d1 d2 ->
  gatherScanLine ops d1 y lineBuffer = gatherScanLine ops d2 y lineBuffer.
Proof.
  intros Hv. unfold gatherScanLine.
  rewrite (stv_offsetInLineBuffer _ _ Hv), (stv_minY _ _ Hv),
    (stv_slices _ _ Hv).
  destruct (at_ (offsetInLineBuffer d2) (y - minY d2)) as [start|]; [|done].
  simpl.
  by rewrite (fold_left_pointwise _ (gatherSlice ops d2 y))
    by (intros; by apply gatherSlice_ext).
Qed.

Lemma gatherLoop_ext (d1 d2 : Data) (k : nat) (y dy : Z)
    (lineBuffer : LineBuffer.t) :
  sameTaskView d1 d2 ->
  gatherLoop ops k d1 y dy lineBuffer = gatherLoop ops k d2 y dy lineBuffer.
Proof.
  intros Hv. revert y lineBuffer.
  induction k as [|k IH]; intros y lineBuffer; simpl; [done|].
  rewrite (gatherScanLine_ext d1 d2) by done.
  destruct (gatherScanLine ops d2 y lineBuffer); simpl; [apply IH|done].
Qed.

Lemma gather_ext (d1 d2 : Data) (lineBuffer : LineBuffer.t) :
  sameTaskView d1 d2 ->
  gather ops d1 lineBuffer = gather ops d2 lineBuffer.
Proof.
  intros Hv. unfold gather. rewrite (stv_lineOrder _ _ Hv).
  destruct (decide (lineOrder d2 = INCREASING_Y));
    case_decide; try done; by apply gatherLoop_ext.
Qed.

Lemma convertSlice_ext (d1 d2 : Data) (y : Z) (acc : list byte * Z)
    (slice : OutSliceInfo.t) :
  sameTaskView d1 d2 ->
  convertSlice ops d1 y acc slice = convertSlice ops d2 y acc slice.
Proof.
  intros Hv. unfold convertSlice.
  by rewrite (stv_minX _ _ Hv), (stv_maxX _ _ Hv).
Qed.

Lemma convertLines_ext (d1 d2 : Data) (k : nat) (y : Z)
    (acc : list byte * Z) :
  sameTaskView d1 d2 ->
  convertLines ops k d1 y acc = convertLines ops k d2 y acc.
Proof.
  intros Hv. revert y acc.
  induction k as [|k IH]; intros y acc; simpl; [done|].
  rewrite (stv_slices _ _ Hv).
  rewrite (fold_left_pointwise _ (convertSlice ops d2 y))
    by (intros; by apply convertSlice_ext).
  apply IH.
Qed.

Lemma convertToXdr_ext (d1 d2 : Data) (block : list byte) (lo hi size : Z) :
  sameTaskView d1 d2 ->
  convertToXdr ops d1 block lo hi size = convertToXdr ops d2 block lo hi size.
Proof. intros Hv. unfold convertToXdr. by rewrite (convertLines_ext d1 d2). Qed.

Lemma execute_try_ext (d1 d2 : Data) (lineBuffer : LineBuffer.t) :
  sameTaskView d1 d2 ->
  execute_try ops d1 lineBuffer = execute_try ops d2 lineBuffer.
Proof.
  intros Hv. unfold execute_try.
  rewrite (gather_ext d1 d2) by done.
  destruct (gather ops d2 lineBuffer) as [[lb y]|]; simpl; [|done].
  case_decide; [done|].
  destruct (LineBuffer.compressor _); [|done].
  destruct (c _ _); [done|].
  rewrite (stv_format _ _ Hv).
  by rewrite (convertToXdr_ext d1 d2).
Qed.

Lemma execute_ext (d1 d2 : Data) (lineBuffer : LineBuffer.t) :
  sameTaskView d1 d2 ->
  execute ops d1 lineBuffer = execute ops d2 lineBuffer.
Proof. intros Hv. unfold execute. by rewrite (execute_try_ext d1 d2). Qed.

Lemma LineBufferTask_new_ext (d1 d2 : Data) (number lo hi : Z)
    (lineBuffer : LineBuffer.t) :
  sameTaskView d1 d2 ->
  LineBufferTask_new d1 number lo hi lineBuffer
  = LineBufferTask_new d2 number lo hi lineBuffer.
Proof.
  intros Hv. unfold LineBufferTask_new.
  by rewrite (stv_minY _ _ Hv), (stv_maxY _ _ Hv),
    (stv_linesInBuffer _ _ Hv).
Qed.

(** ** The retained frame buffer is not read by the write path *)

Lemma sameTaskView_set_frameBuffer (frameBuffer_ : FrameBuffer) (d : Data) :
  sameTaskView (set_frameBuffer frameBuffer_ d) d.
Proof. by constructor. Qed.

Lemma addTask_set_frameBuffer (frameBuffer_ : FrameBuffer) (number lo hi : Z)
    (d : Data) :
  addTask ops number lo hi (set_frameBuffer frameBuffer_ d)
  = set_frameBuffer frameBuffer_ <$> addTask ops number lo hi d.
Proof.
  unfold addTask, getLineBufferIndex. simpl.
  case_decide; [done|]. simpl.
  destruct (lineBuffers d !! _) as [lb|]; [|done]. simpl.
  rewrite (LineBufferTask_new_ext _ d), (execute_ext _ d)
    by apply sameTaskView_set_frameBuffer.
  by destruct (execute ops d _).
Qed.

Lemma addTasks_set_frameBuffer (frameBuffer_ : FrameBuffer) (k : nat)
    (number step lo hi : Z) (d : Data) :
  addTasks ops k number step lo hi (set_frameBuffer frameBuffer_ d)
  = set_frameBuffer frameBuffer_ <$> addTasks ops k number step lo hi d.
Proof.
  revert number d. induction k as [|k IH]; intros number d; simpl; [done|].
  rewrite addTask_set_frameBuffer.
  destruct (addTask ops number lo hi d) as [d'|]; simpl; [apply IH|done].
Qed.

Lemma writePixelData_set_frameBuffer (frameBuffer_ : FrameBuffer)
    (lineBufferMinY_ : Z) (pixelData : list byte) (pixelDataSize : Z)
    (d : Data) :
  writePixelData lineBufferMinY_ pixelData pixelDataSize
    (set_frameBuffer frameBuffer_ d)
  = set_frameBuffer frameBuffer_
    <$> writePixelData lineBufferMinY_ pixelData pixelDataSize d.
Proof.
  unfold writePixelData. simpl.
  case_decide; [done|].
  destruct (assign _ _ _); [|done]. simpl.
  by case_decide.
Qed.

Lemma drain_set_frameBuffer (frameBuffer_ : FrameBuffer) (fuel : nat)
    (stop step lo hi w q : Z) (d : Data) :
  drain ops fuel stop step lo hi w q (set_frameBuffer frameBuffer_ d)
  = LoopExit_map (set_frameBuffer frameBuffer_)
      (drain ops fuel stop step lo hi w q d).
Proof.
  revert w q d. induction fuel as [|fuel IH]; intros w q d; simpl; [done|].
  case_decide; [done|].
  unfold getLineBuffer, getLineBufferIndex. simpl.
  case_decide; [done|]. simpl.
  destruct (lineBuffers d !! _) as [lb|]; [|done].
  destruct (LineBuffer.partiallyFull lb); [done|].
  unfold writePixelData_lineBuffer.
  change (set_missingScanLines ?m (set_frameBuffer ?f ?x))
    with (set_frameBuffer f (set_missingScanLines m x)).
  rewrite writePixelData_set_frameBuffer.
  destruct (writePixelData _ _ _ _) as [d'|]; [|done]. simpl.
  case_decide; [done|].
  change (set_currentScanLine ?m (set_frameBuffer ?f ?x))
    with (set_frameBuffer f (set_currentScanLine m x)).
  case_decide; [apply IH|].
  rewrite addTask_set_frameBuffer.
  destruct (addTask _ _ _ _ _); simpl; [apply IH|done].
Qed.

Lemma rethrow_set_frameBuffer (frameBuffer_ : FrameBuffer) (d : Data) :
  rethrow (set_frameBuffer frameBuffer_ d)
  = Result_map (set_frameBuffer frameBuffer_) (rethrow d).
Proof.
  unfold rethrow. simpl.
  destruct (collectExceptions None (lineBuffers d)) as [[w|] cleared]; done.
Qed.

Lemma writePixels_set_frameBuffer (frameBuffer_ : FrameBuffer) (n : Z)
    (d : Data) :
  writePixels ops n (set_frameBuffer frameBuffer_ d)
  = Result_map (set_frameBuffer frameBuffer_) (writePixels ops n d).
Proof.
  unfold writePixels.
  assert (Htry : writePixels_try ops n (set_frameBuffer frameBuffer_ d)
                 = Result_map (set_frameBuffer frameBuffer_)
                     (writePixels_try ops n d)).
  { unfold writePixels_try. cbn -[drain addTasks].
    case_decide; [done|]. case_decide; [done|].
    destruct (decide (lineOrder d = INCREASING_Y));
      rewrite addTasks_set_frameBuffer;
      (destruct (addTasks _ _ _ _ _ _ _) as [d'|]; cbn -[drain]; [|done]);
      rewrite drain_set_frameBuffer;
      (destruct (drain _ _ _ _ _ _ _ _ _); cbn -[drain]; try done);
      apply rethrow_set_frameBuffer. }
  rewrite Htry.
  by destruct (writePixels_try ops n d).
Qed.

(** C10.  A slice of the frame buffer under a name that no channel of the
    header has is ignored: binding the frame buffer with it throws exactly
    when binding the frame buffer without it throws, and with the same
    error; when both succeed the slice tables are the same, the two states
    differ only in the frame buffer that is kept, and every later
    [writePixels] call has the same outcome up to that frame buffer, so the
    same offsets and the same bytes on the stream. *)
Theorem setFrameBuffer_ignores_unknown_names (name : string)
    (slice : Slice.t) (frameBuffer : FrameBuffer) (d : Data) :
  (forall channel, (name, channel) ∉ Header.channels (header d)) ->
  match setFrameBuffer frameBuffer d,
        setFrameBuffer (<[name := slice]> frameBuffer) d with
  | Returned d1, Returned d2 =>
      slices d2 = slices d1
      /\ length (slices d2) = length (Header.channels (header d))
      /\ d2 = set_frameBuffer (<[name := slice]> frameBuffer) d1
      /\ forall n,
           writePixels ops n d2
           = Result_map (set_frameBuffer (<[name := slice]> frameBuffer))
               (writePixels ops n d1)
  | Threw e1 d1, Threw e2 d2 => e1 = e2 /\ d1 = d /\ d2 = d
  | _, _ => False
  end.
Proof.
  intros Hname.
  assert (Hlookup : forall n c, (n, c) ∈ Header.channels (header d) ->
            (<[name := slice]> frameBuffer) !! n = frameBuffer !! n).
  { intros n c Hin. apply lookup_insert_ne. intros ->. by apply (Hname c). }
  unfold setFrameBuffer.
  assert (Hcheck :
    checkFrameBuffer (fileName d) (Header.channels (header d))
      (<[name := slice]> frameBuffer)
    = checkFrameBuffer (fileName d) (Header.channels (header d)) frameBuffer).
  { revert Hlookup. generalize (Header.channels (header d)).
    induction l as [|[n c] rest IH]; intros Hl; simpl; [done|].
    rewrite (Hl n c) by left.
    rewrite IH by (intros; eapply Hl; by right). done. }
  assert (Hslices :
    sliceFor (<[name := slice]> frameBuffer) <$> Header.channels (header d)
    = sliceFor frameBuffer <$> Header.channels (header d)).
  { revert Hlookup. generalize (Header.channels (header d)).
    induction l as [|[n c] rest IH]; intros Hl; [done|].
    rewrite !fmap_cons.
    rewrite IH by (intros; eapply Hl; by right). f_equal.
    unfold sliceFor. simpl. by rewrite (Hl n c) by left. }
  rewrite Hcheck, Hslices.
  destruct (checkFrameBuffer _ _ frameBuffer); [done|].
  split; [done|]. split; [simpl; by rewrite length_fmap|]. split; [done|].
  intros n. etrans; [|apply writePixels_set_frameBuffer]. reflexivity.
Qed.

(** ** The effect of a task on its slot *)

Lemma sameControl_refl (b : LineBuffer.t) : sameControl b b.
Proof. by constructor. Qed.

Lemma sameControl_trans (b1 b2 b3 : LineBuffer.t) :
  sameControl b1 b2 -> sameControl b2 b3 -> sameControl b1 b3.
Proof. intros [] []. constructor; congruence. Qed.

Lemma gatherSlice_grows (d : Data) (y : Z) (acc : list byte * Z)
    (slice : OutSliceInfo.t) :
  0 <= acc.2 <= Z.of_nat (length acc.1) ->
  let r := gatherSlice ops d y acc slice in
  0 <= r.2 <= Z.of_nat (length r.1)
  /\ (length acc.1 <= length r.1)%nat /\ acc.2 <= r.2.
Proof.
  intros Hacc. unfold gatherSlice. case_decide; simpl; [lia|].
  rewrite length_store by lia. lia.
Qed.

Lemma gatherSlices_grow (d : Data) (y : Z) (l : list OutSliceInfo.t)
    (acc : list byte * Z) :
  0 <= acc.2 <= Z.of_nat (length acc.1) ->
  let r := fold_left (gatherSlice ops d y) l acc in
  0 <= r.2 <= Z.of_nat (length r.1)
  /\ (length acc.1 <= length r.1)%nat /\ acc.2 <= r.2.
Proof.
  revert acc. induction l as [|slice l IH]; intros acc Hacc; simpl; [lia|].
  destruct (gatherSlice_grows d y acc slice Hacc) as (H1 & H2 & H3).
  destruct (IH _ H1) as (H4 & H5 & H6). lia.
Qed.

Lemma convertSlice_grows (d : Data) (y : Z) (acc : list byte * Z)
    (slice : OutSliceInfo.t) :
  0 <= acc.2 ->
  let r := convertSlice ops d y acc slice in
  0 <= r.2 /\ (length acc.1 <= length r.1)%nat.
Proof.
  intros Hacc. unfold convertSlice. case_decide; simpl; [lia|].
  rewrite length_store by lia. lia.
Qed.

Lemma convertSlices_grow (d : Data) (y : Z) (l : list OutSliceInfo.t)
    (acc : list byte * Z) :
  0 <= acc.2 ->
  let r := fold_left (convertSlice ops d y) l acc in
  0 <= r.2 /\ (length acc.1 <= length r.1)%nat.
Proof.
  revert acc. induction l as [|slice l IH]; intros acc Hacc; simpl; [lia|].
  destruct (convertSlice_grows d y acc slice Hacc) as (H1 & H2).
  destruct (IH _ H1) as (H4 & H5). lia.
Qed.

Lemma convertLines_grow (d : Data) (k : nat) (y : Z) (acc : list byte * Z) :
  0 <= acc.2 ->
  let r := convertLines ops k d y acc in
  0 <= r.2 /\ (length acc.1 <= length r.1)%nat.
Proof.
  revert y acc. induction k as [|k IH]; intros y acc Hacc; simpl; [lia|].
  destruct (convertSlices_grow d y (slices d) acc Hacc) as (H1 & H2).
  destruct (IH (y + 1) _ H1) as (H4 & H5). lia.
Qed.

Lemma length_convertToXdr (d : Data) (block : list byte) (lo hi size : Z) :
  (length block <= length (convertToXdr ops d block lo hi size))%nat.
Proof.
  unfold convertToXdr.
  by destruct (convertLines_grow d (Z.to_nat (hi - lo + 1)) lo (block, 0))
    as (_ & ?).
Qed.

Lemma gatherScanLine_ok (d : Data) (y : Z) (lineBuffer : LineBuffer.t) :
  tableOk d -> minY d <= y <= maxY d -> bufferOk d lineBuffer ->
  exists lineBuffer',
    gatherScanLine ops d y lineBuffer = Some lineBuffer'
    /\ sameControl lineBuffer lineBuffer' /\ bufferOk d lineBuffer'.
Proof.
  intros [Hlen Hrange] Hy [Hend Hsize]. unfold gatherScanLine, at_.
  rewrite decide_True by lia.
  destruct (offsetInLineBuffer d !! Z.to_nat (y - minY d)) as [start|] eqn:Hs.
  2: { apply lookup_ge_None in Hs. lia. }
  simpl. apply Hrange in Hs.
  destruct (gatherSlices_grow d y (slices d)
              (LineBuffer.buffer lineBuffer, start)) as (H1 & H2 & H3);
    [simpl; lia|].
  simpl in H2, H3.
  eexists. split; [reflexivity|].
  case_decide; (split; [by constructor|]); unfold bufferOk; simpl; lia.
Qed.

Lemma gatherLoop_ok (d : Data) (k : nat) (y dy : Z)
    (lineBuffer : LineBuffer.t) :
  tableOk d -> bufferOk d lineBuffer ->
  (forall j : nat, (j < k)%nat -> minY d <= y + Z.of_nat j * dy <= maxY d) ->
  exists lineBuffer',
    gatherLoop ops k d y dy lineBuffer
    = Some (lineBuffer', y + Z.of_nat k * dy)
    /\ sameControl lineBuffer lineBuffer' /\ bufferOk d lineBuffer'.
Proof.
  intros Ht. revert y lineBuffer.
  induction k as [|k IH]; intros y lineBuffer Hb Hy; simpl.
  - eexists. split; [f_equal; f_equal; lia|].
    split; [apply sameControl_refl|done].
  - destruct (gatherScanLine_ok d y lineBuffer Ht) as (lb1 & -> & Hc1 & Hb1);
      [specialize (Hy 0%nat); lia|done|]. simpl.
    destruct (IH (y + dy) lb1 Hb1) as (lb2 & -> & Hc2 & Hb2).
    { intros j Hj. specialize (Hy (S j)). lia. }
    eexists. split; [f_equal; f_equal; lia|].
    split; [by eapply sameControl_trans|done].
Qed.

(** What [execute] makes of a slot that its task's constructor has set
    up, when the compressor does not throw: the lines are gathered, and
    the slot stays partially full exactly when the lines of this call end
    before the span of the slot does. *)
Lemma execute_ok (d : Data) (lineBuffer : LineBuffer.t) :
  tableOk d -> bufferOk d lineBuffer -> reliable lineBuffer ->
  let a := LineBuffer.minY lineBuffer in
  let b := LineBuffer.maxY lineBuffer in
  let lo := LineBuffer.scanLineMin lineBuffer in
  let hi := LineBuffer.scanLineMax lineBuffer in
  minY d <= a -> b <= maxY d -> a <= lo -> hi <= b -> lo <= hi + 1 ->
  exists lineBuffer',
    execute ops d lineBuffer = Some lineBuffer'
    /\ LineBuffer.minY lineBuffer' = a
    /\ LineBuffer.maxY lineBuffer' = b
    /\ LineBuffer.scanLineMin lineBuffer' = lo
    /\ LineBuffer.scanLineMax lineBuffer' = hi
    /\ LineBuffer.compressor lineBuffer' = LineBuffer.compressor lineBuffer
    /\ LineBuffer.hasException lineBuffer'
       = LineBuffer.hasException lineBuffer
    /\ bufferOk d lineBuffer'
    /\ (if decide (lineOrder d = INCREASING_Y)
        then (if decide (hi < b)
              then LineBuffer.partiallyFull lineBuffer'
                   = LineBuffer.partiallyFull lineBuffer
              else LineBuffer.partiallyFull lineBuffer' = false
                   /\ dataOk lineBuffer')
        else (if decide (a < lo)
              then LineBuffer.partiallyFull lineBuffer'
                   = LineBuffer.partiallyFull lineBuffer
              else LineBuffer.partiallyFull lineBuffer' = false
                   /\ dataOk lineBuffer')).
Proof.
  intros Ht Hb Hrel a b lo hi Ha Hbm Hlo Hhi Hspan.
  assert (Hg : exists filled y,
    gather ops d lineBuffer = Some (filled, y)
    /\ sameControl lineBuffer filled /\ bufferOk d filled
    /\ y = if decide (lineOrder d = INCREASING_Y) then hi + 1 else lo - 1).
  { unfold gather. fold lo hi.
    destruct (decide (lineOrder d = INCREASING_Y)) as [Hinc|Hdec].
    - rewrite decide_True by lia.
      destruct (gatherLoop_ok d (Z.to_nat ((hi + 1 - lo) * 1)) lo 1
                  lineBuffer Ht Hb) as (filled & Hl & Hc & Hbf).
      { intros j Hj. lia. }
      exists filled, (hi + 1). rewrite Hl.
      split; [f_equal; f_equal; lia|done].
    - rewrite decide_True by lia.
      destruct (gatherLoop_ok d (Z.to_nat ((lo - 1 - hi) * -1)) hi (-1)
                  lineBuffer Ht Hb) as (filled & Hl & Hc & Hbf).
      { intros j Hj. lia. }
      exists filled, (lo - 1). rewrite Hl.
      split; [f_equal; f_equal; lia|done]. }
  destruct Hg as (filled & y & Hgather & Hc & Hbf & Hy).
  destruct Hc as [Hc1 Hc2 Hc3 Hc4 Hc5 Hc6 Hc7 Hc8].
  fold a in Hc1. fold b in Hc2. fold lo in Hc3. fold hi in Hc4.
  destruct Hbf as [Hend Hsize].
  unfold execute, execute_try. rewrite Hgather. simpl.
  rewrite Hc1, Hc2.
  destruct (decide (a <= y <= b)) as [Hin|Hout].
  { simpl. eexists. split; [reflexivity|].
    repeat (split; [done|]).
    destruct (decide (lineOrder d = INCREASING_Y)); subst y;
      rewrite decide_True by lia; done. }
  assert (Hfull :
    if decide (lineOrder d = INCREASING_Y) then ~ hi < b else ~ a < lo).
  { destruct (decide (lineOrder d = INCREASING_Y)); subst y; lia. }
  assert (Hgoal : forall (p : bool) (D : Prop), p = false -> D ->
    if decide (lineOrder d = INCREASING_Y)
    then (if decide (hi < b)
          then p = LineBuffer.partiallyFull lineBuffer else p = false /\ D)
    else (if decide (a < lo)
          then p = LineBuffer.partiallyFull lineBuffer else p = false /\ D)).
  { intros p D Hp Hd.
    destruct (decide (lineOrder d = INCREASING_Y));
      rewrite decide_False by done; done. }
  simpl. rewrite Hc5.
  destruct (LineBuffer.compressor lineBuffer) as [compress|] eqn:Hcomp.
  2: { eexists. split; [reflexivity|]. simpl.
       repeat (split; [done|]).
       apply Hgoal; [done|]. unfold dataOk, LineBuffer.data. simpl. lia. }
  destruct (Hrel compress Hcomp
              (take (Z.to_nat (LineBuffer.endOfLineBufferData filled))
                 (LineBuffer.buffer filled)) a) as [compPtr Hout'].
  rewrite Hout'. simpl.
  pose proof (length_convertToXdr d (LineBuffer.buffer filled) a b
                (LineBuffer.endOfLineBufferData filled)) as Hgrow.
  eexists. split; [reflexivity|].
  destruct (decide (Z.of_nat (length compPtr)
                    < LineBuffer.endOfLineBufferData filled));
    [|destruct (decide (format d = NATIVE))]; simpl;
    repeat (split; [done || lia|]);
    try (split; [unfold bufferOk; simpl; lia|]);
    (apply Hgoal; [done|]); unfold dataOk, LineBuffer.data; simpl; lia.
Qed.

(** ** Chunks and slots *)

Lemma chunkMin_succ (d : Data) (k : Z) :
  chunkMin d (k + 1) = chunkMin d k + linesInBuffer d.
Proof. unfold chunkMin. lia. Qed.

Lemma chunkMin_mono (d : Data) (k1 k2 : Z) :
  0 < linesInBuffer d -> k1 <= k2 -> chunkMin d k1 <= chunkMin d k2.
Proof. unfold chunkMin. nia. Qed.

Lemma chunkMin_lt (d : Data) (k1 k2 : Z) :
  0 < linesInBuffer d -> k1 < k2 ->
  chunkMin d k1 + linesInBuffer d <= chunkMin d k2.
Proof. unfold chunkMin. nia. Qed.

Lemma chunkOf_spec (d : Data) (y : Z) :
  0 < linesInBuffer d -> minY d <= y ->
  0 <= chunkOf d y
  /\ chunkMin d (chunkOf d y) <= y < chunkMin d (chunkOf d y) + linesInBuffer d.
Proof.
  intros HL Hy. unfold chunkOf, chunkMin.
  rewrite Z.quot_div_nonneg by lia.
  pose proof (Z.div_mod (y - minY d) (linesInBuffer d)).
  pose proof (Z.mod_pos_bound (y - minY d) (linesInBuffer d)).
  pose proof (Z.div_pos (y - minY d) (linesInBuffer d)).
  nia.
Qed.

Lemma chunkOf_unique (d : Data) (y k : Z) :
  0 < linesInBuffer d ->
  0 <= k ->
  chunkMin d k <= y < chunkMin d k + linesInBuffer d ->
  chunkOf d y = k.
Proof.
  intros HL Hk Hy. unfold chunkOf, chunkMin in *.
  rewrite Z.quot_div_nonneg by nia.
  symmetry. apply (Z.div_unique _ _ _ (y - minY d - k * linesInBuffer d)); lia.
Qed.

Lemma chunkOf_mono (d : Data) (y1 y2 : Z) :
  0 < linesInBuffer d -> minY d <= y1 <= y2 -> chunkOf d y1 <= chunkOf d y2.
Proof.
  intros HL Hy. unfold chunkOf.
  rewrite !Z.quot_div_nonneg by lia.
  apply Z.div_le_mono; lia.
Qed.

(** The number of chunks, as [initialize] computes it. *)
Lemma chunkOf_lt_count (d : Data) (y : Z) :
  0 < linesInBuffer d -> minY d <= y <= maxY d ->
  chunkOf d y < Z.quot (maxY d - minY d + linesInBuffer d) (linesInBuffer d).
Proof.
  intros HL Hy. unfold chunkOf.
  rewrite !Z.quot_div_nonneg by lia.
  replace (maxY d - minY d + linesInBuffer d)
    with ((maxY d - minY d) + 1 * linesInBuffer d) by lia.
  rewrite Z.div_add by lia.
  pose proof (Z.div_le_mono (y - minY d) (maxY d - minY d) (linesInBuffer d)).
  lia.
Qed.

Lemma chunkOf_bound (d : Data) (y : Z) :
  0 < linesInBuffer d -> minY d <= y <= maxY d ->
  chunkOf d y <= maxY d - minY d.
Proof.
  intros HL Hy. unfold chunkOf.
  rewrite !Z.quot_div_nonneg by lia.
  pose proof (Z.div_le_upper_bound (y - minY d) (linesInBuffer d)
                (maxY d - minY d)).
  nia.
Qed.

Lemma getLineBufferIndex_slotOf (d : Data) (k : Z) :
  (0 < length (lineBuffers d))%nat -> 0 <= k < 2 ^ 64 ->
  getLineBufferIndex d k = Some (slotOf (length (lineBuffers d)) k).
Proof.
  intros HN Hk. unfold getLineBufferIndex, slotOf, to_size_t.
  rewrite decide_False by lia.
  by rewrite (Z.mod_small k) by lia.
Qed.

Lemma slotOf_lt (size : nat) (k : Z) :
  (0 < size)%nat -> (slotOf size k < size)%nat.
Proof.
  intros HN. unfold slotOf.
  pose proof (Z.mod_pos_bound k (Z.of_nat size)). lia.
Qed.

Lemma slotOf_ne (size : nat) (k1 k2 : Z) :
  (0 < size)%nat -> k1 < k2 -> k2 - k1 < Z.of_nat size ->
  slotOf size k1 <> slotOf size k2.
Proof.
  intros HN Hlt Hclose Heq. unfold slotOf in Heq.
  pose proof (Z.mod_pos_bound k1 (Z.of_nat size)).
  pose proof (Z.mod_pos_bound k2 (Z.of_nat size)).
  assert (Hm : k1 mod Z.of_nat size = k2 mod Z.of_nat size) by lia.
  pose proof (Z.div_mod k1 (Z.of_nat size)).
  pose proof (Z.div_mod k2 (Z.of_nat size)).
  set (N := Z.of_nat size) in *.
  assert (Hdiff : k2 - k1 = N * (k2 `div` N - k1 `div` N)) by lia.
  destruct (Z_le_gt_dec (k2 `div` N - k1 `div` N) 0); nia.
Qed.

Lemma sameTaskView_upd (d : Data) (lineBuffers_ : list LineBuffer.t)
    (missing current : Z) (offsets : list Z)
    (streamData : OutputStreamMutex.t) :
  sameTaskView (upd d lineBuffers_ missing current offsets streamData) d.
Proof. by constructor. Qed.

Lemma upd_self (d : Data) :
  d = upd d (lineBuffers d) (missingScanLines d) (currentScanLine d)
        (lineOffsets d) (_streamData d).
Proof. by destruct d. Qed.

(** A task on the slot of chunk [k], from a slot that is free or already
    holds the chunk. *)
Lemma addTask_ok (d : Data) (lineBuffers_ : list LineBuffer.t)
    (missing current : Z) (offsets : list Z)
    (streamData : OutputStreamMutex.t) (k lo0 hi0 : Z)
    (lineBuffer : LineBuffer.t) :
  tableOk d -> 0 < linesInBuffer d -> 0 <= k < 2 ^ 64 ->
  lineBuffers_ !! slotOf (length lineBuffers_) k = Some lineBuffer ->
  slotOk d lineBuffer ->
  (LineBuffer.partiallyFull lineBuffer = false
   \/ (LineBuffer.minY lineBuffer = chunkMin d k
       /\ LineBuffer.maxY lineBuffer = chunkMax d k)) ->
  Z.max (chunkMin d k) lo0 <= Z.min (chunkMax d k) hi0 + 1 ->
  exists lineBuffer',
    addTask ops k lo0 hi0
      (upd d lineBuffers_ missing current offsets streamData)
    = Some (upd d (<[slotOf (length lineBuffers_) k := lineBuffer']>
                     lineBuffers_)
              missing current offsets streamData)
    /\ taskDone d lo0 hi0 k lineBuffer'
    /\ slotOk d lineBuffer'.
Proof.
  intros Ht HL Hk Hslot (Hexc & Hbuf & Hrel) Hfree Hspan.
  assert (HN : (0 < length lineBuffers_)%nat).
  { apply lookup_lt_Some in Hslot. lia. }
  unfold addTask.
  rewrite getLineBufferIndex_slotOf by done.
  change (lineBuffers (upd d lineBuffers_ missing current offsets streamData))
    with lineBuffers_.
  simpl. rewrite Hslot. simpl.
  rewrite (LineBufferTask_new_ext _ d), (execute_ext _ d)
    by apply sameTaskView_upd.
  set (made := LineBufferTask_new d k lo0 hi0 lineBuffer).
  assert (Hmade :
    LineBuffer.minY made = chunkMin d k
    /\ LineBuffer.maxY made = chunkMax d k
    /\ LineBuffer.scanLineMin made = Z.max (chunkMin d k) lo0
    /\ LineBuffer.scanLineMax made = Z.min (chunkMax d k) hi0
    /\ LineBuffer.partiallyFull made = true
    /\ LineBuffer.hasException made = false
    /\ bufferOk d made /\ reliable made).
  { subst made. unfold LineBufferTask_new.
    destruct (LineBuffer.partiallyFull lineBuffer) eqn:Hp.
    - destruct Hfree as [|[Ha Hb]]; [done|]. simpl. rewrite Ha, Hb.
      repeat (split; [done|]). done.
    - simpl. repeat (split; [done|]).
      split; [|done]. destruct Hbuf as [? ?]. unfold bufferOk. simpl. lia. }
  destruct Hmade as (Ha & Hb & Hlo & Hhi & Hp & He & Hbm & Hrm).
  destruct (execute_ok d made Ht Hbm Hrm)
    as (lb' & Hex & H1 & H2 & H3 & H4 & H5 & H6 & H7 & H8).
  { rewrite Ha. unfold chunkMin. nia. }
  { rewrite Hb. unfold chunkMax. lia. }
  { rewrite Ha, Hlo. lia. }
  { rewrite Hb, Hhi. lia. }
  { rewrite Hlo, Hhi. lia. }
  exists lb'. rewrite Hex. simpl. split; [done|].
  rewrite Ha in H1. rewrite Hb in H2. rewrite Hlo in H3. rewrite Hhi in H4.
  rewrite Ha, Hb, Hlo, Hhi in H8.
  split.
  - unfold taskDone, endsEarly. repeat (split; [done|]).
    destruct (decide (lineOrder d = INCREASING_Y)).
    + destruct (decide (Z.min (chunkMax d k) hi0 < chunkMax d k)).
      * rewrite bool_decide_eq_true_2 by lia. congruence.
      * rewrite bool_decide_eq_false_2 by lia. done.
    + destruct (decide (chunkMin d k < Z.max (chunkMin d k) lo0)).
      * rewrite bool_decide_eq_true_2 by lia. congruence.
      * rewrite bool_decide_eq_false_2 by lia. done.
  - unfold slotOk. split; [congruence|]. split; [done|].
    unfold reliable in *. by rewrite H5.
Qed.

(** [writePixelData] of a line buffer that is ready, into the entry of a
    chunk that the table has. *)
Lemma writePixelData_ok (d : Data) (lineBuffers_ : list LineBuffer.t)
    (missing current : Z) (offsets : list Z)
    (streamData : OutputStreamMutex.t) (lineBuffer : LineBuffer.t) :
  0 < linesInBuffer d ->
  0 <= chunkOf d current < Z.of_nat (length offsets) ->
  dataOk lineBuffer ->
  exists offsets' streamData',
    writePixelData_lineBuffer lineBuffer
      (upd d lineBuffers_ missing current offsets streamData)
    = Some (upd d lineBuffers_ missing current offsets' streamData')
    /\ length offsets' = length offsets.
Proof.
  intros HL Hslot Hdata.
  unfold writePixelData_lineBuffer, writePixelData.
  change (linesInBuffer (upd d lineBuffers_ missing current offsets streamData))
    with (linesInBuffer d).
  rewrite decide_False by lia.
  unfold assign.
  change (lineOffsets (upd d lineBuffers_ missing current offsets streamData))
    with offsets.
  change (Z.quot (currentScanLine (upd d lineBuffers_ missing current offsets
                                     streamData)
                  - minY (upd d lineBuffers_ missing current offsets streamData))
            (linesInBuffer d))
    with (chunkOf d current).
  destruct (decide (0 <= chunkOf d current < Z.of_nat (length offsets)));
    [|done].
  simpl.
  destruct (decide (0 <= LineBuffer.dataSize lineBuffer
                    <= Z.of_nat (length (LineBuffer.data lineBuffer))));
    [|done].
  eexists _, _. split; [reflexivity|].
  apply length_insert.
Qed.

Lemma collectExceptions_none (exception : option string)
    (lineBuffers_ : list LineBuffer.t) :
  (forall lb, lb ∈ lineBuffers_ -> LineBuffer.hasException lb = false) ->
  collectExceptions exception lineBuffers_ = (exception, lineBuffers_).
Proof.
  revert exception.
  induction lineBuffers_ as [|lb rest IH]; intros exception Hall; [done|].
  simpl. rewrite (Hall lb) by left.
  assert (Hsame : match exception with
                  | Some _ => exception | None => None end = exception)
    by (by destruct exception).
  rewrite Hsame, IH by (intros; apply Hall; by right).
  f_equal. f_equal. destruct lb. simpl in *.
  specialize (Hall _ (list_elem_of_here _ _)). simpl in Hall. by subst.
Qed.

(** ** The arithmetic of a call *)

Section CallFacts.

Variable d : Data.
Variables c0 n step lo0 hi0 : Z.
Hypothesis Hcall : validCall d c0 n step lo0 hi0.

Let first := chunkOf d c0.
Let last := chunkOf d (c0 + step * (n - 1)).

Lemma call_chunks :
  0 <= first /\ 0 <= last
  /\ chunkMin d first <= c0 < chunkMin d first + linesInBuffer d
  /\ chunkMin d last <= c0 + step * (n - 1)
     < chunkMin d last + linesInBuffer d
  /\ 0 <= (last - first) * step
  /\ minY d <= c0 <= maxY d
  /\ minY d <= c0 + step * (n - 1) <= maxY d.
Proof.
  destruct Hcall as [HL Hint Hn Hlo Hhi Hdir].
  assert (Hc0 : minY d <= c0 <= maxY d) by (destruct Hdir; lia).
  assert (He : minY d <= c0 + step * (n - 1) <= maxY d)
    by (destruct Hdir; lia).
  destruct (chunkOf_spec d c0 HL) as [? ?]; [lia|].
  destruct (chunkOf_spec d (c0 + step * (n - 1)) HL) as [? ?]; [lia|].
  repeat (split; [done || lia|]).
  split; [|done].
  destruct Hdir as [(_ & -> & _)|(_ & -> & _)].
  - pose proof (chunkOf_mono d c0 (c0 + 1 * (n - 1)) HL). subst first last.
    lia.
  - pose proof (chunkOf_mono d (c0 + -1 * (n - 1)) c0 HL). subst first last.
    lia.
Qed.

Lemma step_cases : step = 1 \/ step = -1.
Proof. destruct Hcall as [_ _ _ _ _ Hdir]. destruct Hdir; lia. Qed.

(** The chunks of the call are chunks of the file. *)
Lemma inRange_chunk (k : Z) :
  inRange step first last k ->
  0 <= k < 2 ^ 64
  /\ minY d <= chunkMin d k <= maxY d
  /\ chunkMin d k <= chunkMax d k < chunkMin d k + linesInBuffer d
  /\ chunkMax d k <= maxY d.
Proof.
  intros [Hk1 Hk2].
  destruct call_chunks as (Hf & Hl & Hcf & Hcl & Hfl & Hc0 & He).
  destruct Hcall as [HL Hint Hn Hlo Hhi Hdir].
  pose proof (chunkOf_bound d c0 HL Hc0) as Hb1.
  pose proof (chunkOf_bound d _ HL He) as Hb2.
  fold first in Hb1. fold last in Hb2.
  assert (Hk : 0 <= k /\ (k <= first \/ k <= last))
    by (destruct step_cases; subst step; lia).
  assert (Hmin : chunkMin d k <= maxY d).
  { destruct Hk as [_ [Hk|Hk]].
    - pose proof (chunkMin_mono d k first HL Hk). lia.
    - pose proof (chunkMin_mono d k last HL Hk). lia. }
  assert (minY d <= chunkMin d k) by (unfold chunkMin; nia).
  unfold chunkMax. split; [lia|]. lia.
Qed.

(** The cursor stands in the chunk that the loop has come to. *)
Lemma cursorAt_chunk (w : Z) :
  inRange step first last w ->
  chunkOf d (cursorAt d c0 first w) = w
  /\ minY d <= cursorAt d c0 first w <= maxY d
  /\ chunkMin d w <= cursorAt d c0 first w <= chunkMax d w.
Proof.
  intros Hw.
  destruct (inRange_chunk w Hw) as (Hk & Hmin & Hmax & Hmax').
  destruct call_chunks as (Hf & Hl & Hcf & Hcl & Hfl & Hc0 & He).
  destruct Hcall as [HL Hint Hn Hlo Hhi Hdir].
  unfold cursorAt.
  destruct (decide (w = first)) as [->|Hne].
  { split; [done|]. split; [done|]. unfold chunkMax. lia. }
  destruct (decide (lineOrder d = INCREASING_Y)).
  - split; [apply chunkOf_unique; lia|]. lia.
  - split; [apply chunkOf_unique; lia|]. lia.
Qed.

Lemma missingAt_pos (w : Z) :
  inRange step first last w ->
  0 < missingAt d (cursorAt d c0 first w).
Proof.
  intros Hw. destruct (cursorAt_chunk w Hw) as (_ & ? & _).
  unfold missingAt. case_decide; lia.
Qed.

(** Only the last chunk of the call can fall short. *)
Lemma endsEarly_last (k : Z) :
  inRange step first last k ->
  endsEarly d lo0 hi0 k = true -> k = last.
Proof.
  intros Hk Hearly.
  destruct (inRange_chunk k Hk) as (Hk0 & Hmin & Hmax & Hmax').
  destruct call_chunks as (Hf & Hl & Hcf & Hcl & Hfl & Hc0 & He).
  destruct Hk as [Hk1 Hk2].
  destruct Hcall as [HL Hint Hn Hlo Hhi Hdir].
  unfold endsEarly in Hearly.
  destruct Hdir as [(Hinc & -> & -> & ->)|(Hdec & -> & -> & ->)].
  - rewrite decide_True in Hearly by done.
    apply bool_decide_eq_true_1 in Hearly.
    destruct (decide (k = last)) as [|Hne]; [done|].
    pose proof (chunkMin_lt d k last HL). lia.
  - rewrite decide_False in Hearly by done.
    apply bool_decide_eq_true_1 in Hearly.
    destruct (decide (k = last)) as [|Hne]; [done|].
    pose proof (chunkMin_lt d last k HL). lia.
Qed.

(** The lines a chunk takes are counted from the cursor. *)
Lemma cursorAt_step (w : Z) :
  inRange step first last w ->
  endsEarly d lo0 hi0 w = false -> w <> last ->
  cursorAt d c0 first w + step * linesOf d lo0 hi0 w
  = cursorAt d c0 first (w + step).
Proof.
  intros Hw Hfull Hne.
  destruct (inRange_chunk w Hw) as (Hk0 & Hmin & Hmax & Hmax').
  destruct call_chunks as (Hf & Hl & Hcf & Hcl & Hfl & Hc0 & He).
  destruct Hw as [Hw1 Hw2].
  destruct Hcall as [HL Hint Hn Hlo Hhi Hdir].
  unfold endsEarly in Hfull. unfold cursorAt, linesOf.
  destruct Hdir as [(Hinc & -> & -> & ->)|(Hdec & -> & -> & ->)].
  - rewrite decide_True in Hfull by done.
    apply bool_decide_eq_false_1 in Hfull.
    rewrite (decide_False (P := w + 1 = first)) by lia.
    rewrite !(decide_True (P := lineOrder d = INCREASING_Y)) by done.
    rewrite chunkMin_succ.
    pose proof (chunkMin_lt d w last HL).
    pose proof (chunkMin_lt d first w HL).
    unfold chunkMax in *.
    destruct (decide (w = first)) as [->|]; lia.
  - rewrite decide_False in Hfull by done.
    apply bool_decide_eq_false_1 in Hfull.
    rewrite (decide_False (P := w + -1 = first)) by lia.
    rewrite !(decide_False (P := lineOrder d = INCREASING_Y)) by done.
    pose proof (chunkMin_succ d (w + -1)) as Hs.
    replace (w + -1 + 1) with w in Hs by lia.
    pose proof (chunkMin_lt d last w HL).
    pose proof (chunkMin_lt d w first HL).
    unfold chunkMax in *.
    destruct (decide (w = first)) as [->|]; lia.
Qed.

Lemma cursorAt_end :
  cursorAt d c0 first last + step * linesOf d lo0 hi0 last = c0 + step * n.
Proof.
  assert (Hr : inRange step first last last).
  { destruct call_chunks as (_ & _ & _ & _ & Hfl & _). split; lia. }
  destruct (inRange_chunk last Hr) as (Hk0 & Hmin & Hmax & Hmax').
  destruct call_chunks as (Hf & Hl & Hcf & Hcl & Hfl & Hc0 & He).
  destruct Hcall as [HL Hint Hn Hlo Hhi Hdir].
  unfold cursorAt, linesOf.
  destruct Hdir as [(Hinc & -> & -> & ->)|(Hdec & -> & -> & ->)].
  - rewrite !(decide_True (P := lineOrder d = INCREASING_Y)) by done.
    pose proof (chunkMin_lt d first last HL).
    unfold chunkMax in *.
    destruct (decide (last = first)) as [Heq|]; [rewrite Heq in *|]; lia.
  - rewrite !(decide_False (P := lineOrder d = INCREASING_Y)) by done.
    pose proof (chunkMin_lt d last first HL).
    unfold chunkMax in *.
    destruct (decide (last = first)) as [Heq|]; [rewrite Heq in *|]; lia.
Qed.

(** The lines of the call meet every chunk of the call. *)
Lemma call_span (k : Z) :
  inRange step first last k ->
  Z.max (chunkMin d k) lo0 <= Z.min (chunkMax d k) hi0 + 1.
Proof.
  intros Hk.
  destruct (inRange_chunk k Hk) as (Hk0 & Hmin & Hmax & Hmax').
  destruct call_chunks as (Hf & Hl & Hcf & Hcl & Hfl & Hc0 & He).
  destruct Hk as [Hk1 Hk2].
  destruct Hcall as [HL Hint Hn Hlo Hhi Hdir].
  pose proof (chunkMin_mono d first k HL).
  pose proof (chunkMin_mono d k last HL).
  pose proof (chunkMin_mono d last k HL).
  pose proof (chunkMin_mono d k first HL).
  unfold chunkMax in *.
  destruct Hdir as [(Hinc & -> & -> & ->)|(Hdec & -> & -> & ->)]; lia.
Qed.

End CallFacts.

(** ** The drain loop *)

Lemma set_missingScanLines_upd (v : Z) (d : Data) l m c o s :
  set_missingScanLines v (upd d l m c o s) = upd d l v c o s.
Proof. reflexivity. Qed.

Lemma set_currentScanLine_upd (v : Z) (d : Data) l m c o s :
  set_currentScanLine v (upd d l m c o s) = upd d l m v o s.
Proof. reflexivity. Qed.

Lemma missingScanLines_upd (d : Data) l m c o s :
  missingScanLines (upd d l m c o s) = m.
Proof. reflexivity. Qed.

Lemma currentScanLine_upd (d : Data) l m c o s :
  currentScanLine (upd d l m c o s) = c.
Proof. reflexivity. Qed.

Lemma lineBuffers_upd (d : Data) l m c o s :
  lineBuffers (upd d l m c o s) = l.
Proof. reflexivity. Qed.

Lemma getLineBuffer_upd (d : Data) l m c o s (k : Z) :
  (0 < length l)%nat -> 0 <= k < 2 ^ 64 ->
  getLineBuffer (upd d l m c o s) k = l !! slotOf (length l) k.
Proof.
  intros HN Hk. unfold getLineBuffer.
  by rewrite getLineBufferIndex_slotOf by done.
Qed.

Lemma drain_unfold (fuel : nat) (stop step lo hi w q : Z) (d : Data) :
  drain ops (S fuel) stop step lo hi w q d
  = if decide (missingScanLines d <= 0)
    then Throw (ArgExc msg_tooManyScanLines) d
    else
      match getLineBuffer d w with
      | None => Stuck
      | Some writeBuffer =>
          let numLines :=
            LineBuffer.scanLineMax writeBuffer
            - LineBuffer.scanLineMin writeBuffer + 1 in
          let d := set_missingScanLines (missingScanLines d - numLines) d in
          if LineBuffer.partiallyFull writeBuffer
          then Return_ (set_currentScanLine
                          (currentScanLine d + step * numLines) d)
          else
            match writePixelData_lineBuffer writeBuffer d with
            | None => Stuck
            | Some d =>
                let d :=
                  set_currentScanLine
                    (currentScanLine d + step * numLines) d in
                if decide (w + step = stop) then Break d
                else if decide (q = stop)
                then drain ops fuel stop step lo hi (w + step) q d
                else
                  match addTask ops q lo hi d with
                  | None => Stuck
                  | Some d =>
                      drain ops fuel stop step lo hi (w + step) (q + step) d
                  end
            end
      end.
Proof. reflexivity. Qed.

Lemma missingAt_step (d : Data) (c0 n step lo0 hi0 current lines : Z) :
  validCall d c0 n step lo0 hi0 ->
  missingAt d current - lines = missingAt d (current + step * lines).
Proof.
  intros [_ _ _ _ _ Hdir]. unfold missingAt.
  destruct Hdir as [(Hinc & -> & _)|(Hdec & -> & _)].
  - rewrite !decide_True by done. lia.
  - rewrite !decide_False by done. lia.
Qed.

Section DrainKeeps.

Variable d : Data.
Variables c0 n step lo0 hi0 : Z.
Hypothesis Hcall : validCall d c0 n step lo0 hi0.
Hypothesis Htab : tableOk d.

Let first := chunkOf d c0.
Let last := chunkOf d (c0 + step * (n - 1)).
Let stop := last + step.

(** A property of the offset table and the stream that goes with the
    chunk the loop has come to, and that every chunk record written by the
    loop carries on to the next chunk. *)
Variable P : Z -> list Z -> OutputStreamMutex.t -> Prop.

Hypothesis HP :
  forall w current lb lbs m offsets sd offsets' sd',
    inRange step first last w ->
    chunkOf d current = w ->
    LineBuffer.minY lb = chunkMin d w ->
    dataOk lb ->
    P w offsets sd ->
    writePixelData_lineBuffer lb (upd d lbs m current offsets sd)
    = Some (upd d lbs m current offsets' sd') ->
    P (w + step) offsets' sd'.

Lemma drain_keeps (fuel : nat) (w q : Z) (lbs : list LineBuffer.t)
    (offsets : list Z) (sd : OutputStreamMutex.t) :
  inRange step first last w ->
  0 < (q - w) * step <= Z.of_nat (length lbs) ->
  0 <= (stop - q) * step ->
  (last - w) * step + 1 <= Z.of_nat fuel ->
  Z.of_nat (length offsets)
  = Z.quot (maxY d - minY d + linesInBuffer d) (linesInBuffer d) ->
  window d lo0 hi0 step last w q lbs ->
  P w offsets sd ->
  exists lbs' offsets' sd',
    drain ops fuel stop step lo0 hi0 w q
      (upd d lbs (missingAt d (cursorAt d c0 first w))
         (cursorAt d c0 first w) offsets sd)
    = (if endsEarly d lo0 hi0 last then Return_ else Break)
        (upd d lbs' (missingAt d (c0 + step * n)) (c0 + step * n)
           offsets' sd')
    /\ length lbs' = length lbs
    /\ length offsets' = length offsets
    /\ (forall (i : nat) lb, lbs' !! i = Some lb ->
        slotOk d lb
        /\ (LineBuffer.partiallyFull lb = true ->
            endsEarly d lo0 hi0 last = true
            /\ i = slotOf (length lbs) last
            /\ LineBuffer.minY lb = chunkMin d last
            /\ LineBuffer.maxY lb = chunkMax d last))
    /\ P (if endsEarly d lo0 hi0 last then last else last + step)
         offsets' sd'.
Proof.
  revert w q lbs offsets sd.
  induction fuel as [|fuel IH]; intros w q lbs offsets sd Hw Hq Hstop Hfuel
    Hoff [Hall Hwin] HPw.
  { destruct Hw as [? ?]. lia. }
  pose proof (step_cases d c0 n step lo0 hi0 Hcall) as Hstep.
  pose proof (vc_lines _ _ _ _ _ _ Hcall) as HL.
  assert (HN : (0 < length lbs)%nat) by lia.
  destruct (inRange_chunk d c0 n step lo0 hi0 Hcall w Hw)
    as (Hw64 & Hwmin & Hwmax & Hwmax').
  destruct (cursorAt_chunk d c0 n step lo0 hi0 Hcall w Hw)
    as (Hchunk & Hcur & Hcur').
  pose proof (missingAt_pos d c0 n step lo0 hi0 Hcall w Hw) as Hpos.
  fold first last in Hchunk, Hcur, Hcur', Hpos.
  pose proof (cursorAt_end d c0 n step lo0 hi0 Hcall) as Hcend.
  pose proof (cursorAt_step d c0 n step lo0 hi0 Hcall w) as Hcstep.
  fold first last in Hcend, Hcstep.
  destruct (Hwin w) as (lb & Hlb & Ha & Hb & Hlo & Hhi & Hpart);
    [lia|lia|].
  rewrite drain_unfold.
  rewrite missingScanLines_upd, decide_False by lia.
  rewrite getLineBuffer_upd, Hlb by done.
  cbv zeta.
  rewrite Hhi, Hlo. fold (linesOf d lo0 hi0 w).
  rewrite set_missingScanLines_upd, currentScanLine_upd,
    set_currentScanLine_upd.
  rewrite (missingAt_step d c0 n step lo0 hi0) by done.
  destruct (endsEarly d lo0 hi0 w) eqn:Hearly.
  - (* the call ends inside this chunk *)
    assert (Hlast : w = last)
      by (by apply (endsEarly_last d c0 n step lo0 hi0 Hcall)).
    rewrite Hpart. subst w. rewrite Hearly.
    rewrite Hcend.
    exists lbs, offsets, sd. split; [done|]. split; [done|]. split; [done|].
    split; [|done].
    intros i lb' Hi. destruct (Hall i lb' Hi) as [Hok Hp].
    split; [done|]. intros Hfull. destruct (Hp Hfull) as [-> _].
    rewrite Hlb in Hi. by simplify_eq.
  - destruct Hpart as [Hpart Hdata]. rewrite Hpart.
    destruct (writePixelData_ok d lbs
                (missingAt d (cursorAt d c0 first w
                              + step * linesOf d lo0 hi0 w))
                (cursorAt d c0 first w) offsets sd lb HL)
      as (offsets' & sd' & Hwrite & Hlen'); [|done|].
    { rewrite Hchunk, Hoff. split; [lia|].
      rewrite <- Hchunk.
      apply chunkOf_lt_count; [done|]. lia. }
    assert (HPw' : P (w + step) offsets' sd')
      by (eapply HP; [exact Hw|exact Hchunk|exact Ha|exact Hdata|exact HPw
                     |exact Hwrite]).
    rewrite Hwrite. cbv zeta.
    rewrite currentScanLine_upd, set_currentScanLine_upd.
    destruct (decide (w + step = stop)) as [Hend|Hmore].
    + (* this was the last chunk of the call *)
      assert (Hlast : w = last) by (subst stop; lia).
      subst w. rewrite Hearly.
      rewrite Hcend.
      exists lbs, offsets', sd'. split; [done|]. split; [done|].
      split; [done|]. split; [|done].
      intros i lb' Hi. destruct (Hall i lb' Hi) as [Hok Hp].
      split; [done|]. intros Hfull. destruct (Hp Hfull) as [-> _].
      rewrite Hlb in Hi. simplify_eq. congruence.
    + assert (Hne : w <> last) by (subst stop; lia).
      rewrite Hcstep by done.
      assert (Hw' : inRange step first last (w + step)).
      { destruct Hw as [? ?]. split; destruct Hstep; subst step; lia. }
      destruct (decide (q = stop)) as [Hq'|Hq'].
      * (* nothing left to compress *)
        destruct (IH (w + step) q lbs offsets' sd') as
          (lbs' & offsets'' & sd'' & Hd & Hl1 & Hl2 & Hs & HPe);
          [done|destruct Hstep; subst step stop; lia|done
          |destruct Hstep; subst step; lia|lia| |done|].
        { split; [done|]. intros k Hk1 Hk2. apply Hwin; [|done].
          destruct Hstep; subst step; lia. }
        exists lbs', offsets'', sd''. rewrite Hd.
        split; [done|]. split; [done|]. split; [lia|done].
      * (* one more task, on the slot that has just been written or on a
           free one *)
        assert (Hqr : inRange step first last q).
        { destruct Hw as [? ?]. split; destruct Hstep; subst step stop; lia. }
        destruct (inRange_chunk d c0 n step lo0 hi0 Hcall q Hqr)
          as (Hq64 & _).
        destruct (lookup_lt_is_Some_2 lbs (slotOf (length lbs) q))
          as [lbq Hlbq]; [by apply slotOf_lt|].
        destruct (Hall _ _ Hlbq) as [Hokq Hpq].
        destruct (addTask_ok d lbs
                    (missingAt d (cursorAt d c0 first (w + step)))
                    (cursorAt d c0 first (w + step)) offsets' sd'
                    q lo0 hi0 lbq Htab HL Hq64 Hlbq Hokq)
          as (lbq' & Htask & Hdone & Hokq').
        { left. destruct (LineBuffer.partiallyFull lbq); [|done].
          destruct (Hpq eq_refl) as [_ ?].
          destruct Hqr as [? ?]. destruct Hstep; subst step; lia. }
        { by apply (call_span d c0 n step lo0 hi0 Hcall). }
        rewrite Htask.
        set (lbs1 := <[slotOf (length lbs) q := lbq']> lbs).
        assert (Hlen1 : length lbs1 = length lbs)
          by (subst lbs1; apply length_insert).
        destruct (IH (w + step) (q + step) lbs1 offsets' sd') as
          (lbs' & offsets'' & sd'' & Hd & Hl1 & Hl2 & Hs & HPe);
          [done|rewrite Hlen1; destruct Hstep; subst step; lia
          |destruct Hstep; subst step stop; lia
          |destruct Hstep; subst step; lia|lia| |done|].
        { unfold window. rewrite Hlen1. subst lbs1. split.
          - intros i lb' Hi.
            destruct (decide (i = slotOf (length lbs) q)) as [->|Hi'].
            + rewrite list_lookup_insert_eq in Hi by (by apply slotOf_lt).
              simplify_eq. split; [done|]. intros Hfull.
              destruct Hdone as (_ & _ & _ & _ & He).
              destruct (endsEarly d lo0 hi0 q) eqn:Heq;
                [|destruct He; congruence].
              apply (endsEarly_last d c0 n step lo0 hi0 Hcall) in Heq;
                [|done].
              fold last in Heq. rewrite Heq.
              split; [done|]. destruct Hstep; subst step; lia.
            + rewrite list_lookup_insert_ne in Hi by done.
              destruct (Hall i lb' Hi) as [Hok Hp]. split; [done|].
              intros Hfull. destruct (Hp Hfull) as [-> ?].
              split; [done|]. destruct Hstep; subst step; lia.
          - intros k Hk1 Hk2.
            destruct (decide (k = q)) as [->|Hkq].
            + exists lbq'.
              by rewrite list_lookup_insert_eq by (by apply slotOf_lt).
            + rewrite list_lookup_insert_ne.
              * apply Hwin; destruct Hstep; subst step; lia.
              * destruct Hstep; subst step.
                -- intros Heq. symmetry in Heq. revert Heq.
                   apply slotOf_ne; [done|lia|lia].
                -- apply slotOf_ne; [done|lia|lia]. }
        exists lbs', offsets'', sd''. rewrite Hd.
        split; [done|]. split; [lia|]. split; [lia|].
        split; [|done]. by rewrite <- Hlen1.
Qed.

End DrainKeeps.

Section Drain.

Variable d : Data.
Variables c0 n step lo0 hi0 : Z.
Hypothesis Hcall : validCall d c0 n step lo0 hi0.
Hypothesis Htab : tableOk d.

Let first := chunkOf d c0.
Let last := chunkOf d (c0 + step * (n - 1)).
Let stop := last + step.

Lemma drain_ok (fuel : nat) (w q : Z) (lbs : list LineBuffer.t)
    (offsets : list Z) (sd : OutputStreamMutex.t) :
  inRange step first last w ->
  0 < (q - w) * step <= Z.of_nat (length lbs) ->
  0 <= (stop - q) * step ->
  (last - w) * step + 1 <= Z.of_nat fuel ->
  Z.of_nat (length offsets)
  = Z.quot (maxY d - minY d + linesInBuffer d) (linesInBuffer d) ->
  window d lo0 hi0 step last w q lbs ->
  exists lbs' offsets' sd',
    drain ops fuel stop step lo0 hi0 w q
      (upd d lbs (missingAt d (cursorAt d c0 first w))
         (cursorAt d c0 first w) offsets sd)
    = (if endsEarly d lo0 hi0 last then Return_ else Break)
        (upd d lbs' (missingAt d (c0 + step * n)) (c0 + step * n)
           offsets' sd')
    /\ length lbs' = length lbs
    /\ length offsets' = length offsets
    /\ forall (i : nat) lb, lbs' !! i = Some lb ->
       slotOk d lb
       /\ (LineBuffer.partiallyFull lb = true ->
           endsEarly d lo0 hi0 last = true
           /\ i = slotOf (length lbs) last
           /\ LineBuffer.minY lb = chunkMin d last
           /\ LineBuffer.maxY lb = chunkMax d last).
Proof.
  intros Hw Hq Hstop Hfuel Hoff Hwin.
  destruct (drain_keeps d c0 n step lo0 hi0 Hcall Htab
              (fun _ _ _ => True) (fun _ _ _ _ _ _ _ _ _ _ _ _ _ _ _ => I)
              fuel w q lbs offsets sd Hw Hq Hstop Hfuel Hoff Hwin I)
    as (lbs' & offsets' & sd' & Hd & Hl1 & Hl2 & Hs & _).
  by exists lbs', offsets', sd'.
Qed.

End Drain.

(** ** A whole call *)

(** The first task of a call, on the slots as the last call left them. *)
Lemma first_task_ok (d : Data) (lbs : list LineBuffer.t) (m c : Z)
    (offsets : list Z) (sd : OutputStreamMutex.t) (lo0 hi0 step last : Z) :
  let first := chunkOf d c in
  tableOk d -> 0 < linesInBuffer d -> 0 <= first < 2 ^ 64 ->
  (0 < length lbs)%nat ->
  step = 1 \/ step = -1 ->
  (endsEarly d lo0 hi0 first = true -> first = last) ->
  Z.max (chunkMin d first) lo0 <= Z.min (chunkMax d first) hi0 + 1 ->
  (forall (i : nat) lb, lbs !! i = Some lb ->
     slotOk d lb
     /\ (LineBuffer.partiallyFull lb = true ->
         i = slotOf (length lbs) first
         /\ LineBuffer.minY lb = chunkMin d first
         /\ LineBuffer.maxY lb = chunkMax d first)) ->
  exists lbs',
    addTask ops first lo0 hi0 (upd d lbs m c offsets sd)
    = Some (upd d lbs' m c offsets sd)
    /\ length lbs' = length lbs
    /\ window d lo0 hi0 step last first (first + step) lbs'.
Proof.
  intros first Ht HL Hf64 HN Hstep Hearly Hspan Hall.
  destruct (lookup_lt_is_Some_2 lbs (slotOf (length lbs) first))
    as [lb Hlb]; [by apply slotOf_lt|].
  destruct (Hall _ _ Hlb) as [Hok Hp].
  destruct (addTask_ok d lbs m c offsets sd first lo0 hi0 lb Ht HL Hf64
              Hlb Hok) as (lb' & Htask & Hdone & Hok'); [|done|].
  { destruct (LineBuffer.partiallyFull lb); [|by left].
    right. by destruct (Hp eq_refl) as (_ & ? & ?). }
  eexists. split; [exact Htask|]. split; [apply length_insert|].
  unfold window. rewrite length_insert. split.
  - intros i lbi Hi.
    destruct (decide (i = slotOf (length lbs) first)) as [->|Hne].
    + rewrite list_lookup_insert_eq in Hi by (by apply slotOf_lt).
      simplify_eq. split; [done|]. intros Hfull.
      destruct Hdone as (_ & _ & _ & _ & He).
      destruct (endsEarly d lo0 hi0 first) eqn:Heq;
        [|destruct He; congruence].
      rewrite <- (Hearly eq_refl). split; [done|].
      destruct Hstep; subst step; lia.
    + rewrite list_lookup_insert_ne in Hi by done.
      destruct (Hall i lbi Hi) as [Hoki Hpi]. split; [done|].
      intros Hfull. by destruct (Hpi Hfull) as [? _].
  - intros k Hk1 Hk2.
    assert (k = first) as -> by (destruct Hstep; subst step; lia).
    exists lb'. by rewrite list_lookup_insert_eq by (by apply slotOf_lt).
Qed.

Section Calls.

Variable d : Data.
Variables c0 n step lo0 hi0 : Z.
Hypothesis Hcall : validCall d c0 n step lo0 hi0.
Hypothesis Htab : tableOk d.

Let first := chunkOf d c0.
Let last := chunkOf d (c0 + step * (n - 1)).
Let stop := last + step.

(** The tasks that are queued before the loop. *)
Lemma addTasks_ok (j : nat) (q : Z) (lbs : list LineBuffer.t) (m c : Z)
    (offsets : list Z) (sd : OutputStreamMutex.t) :
  0 < (q - first) * step ->
  (q - first) * step + Z.of_nat j <= Z.of_nat (length lbs) ->
  (q - first) * step + Z.of_nat j <= (last - first) * step + 1 ->
  window d lo0 hi0 step last first q lbs ->
  exists lbs',
    addTasks ops j q step lo0 hi0 (upd d lbs m c offsets sd)
    = Some (upd d lbs' m c offsets sd)
    /\ length lbs' = length lbs
    /\ window d lo0 hi0 step last first (q + Z.of_nat j * step) lbs'.
Proof.
  pose proof (step_cases d c0 n step lo0 hi0 Hcall) as Hstep.
  pose proof (vc_lines _ _ _ _ _ _ Hcall) as HL.
  revert q lbs. induction j as [|j IH]; intros q lbs Hq HN Hlast [Hall Hwin].
  { exists lbs. simpl. split; [done|]. split; [done|].
    replace (q + Z.of_nat 0 * step) with q by lia. done. }
  assert (HN' : (0 < length lbs)%nat) by lia.
  assert (Hqr : inRange step first last q).
  { split; destruct Hstep; subst step; lia. }
  destruct (inRange_chunk d c0 n step lo0 hi0 Hcall q Hqr) as (Hq64 & _).
  destruct (lookup_lt_is_Some_2 lbs (slotOf (length lbs) q))
    as [lbq Hlbq]; [by apply slotOf_lt|].
  destruct (Hall _ _ Hlbq) as [Hokq Hpq].
  destruct (addTask_ok d lbs m c offsets sd q lo0 hi0 lbq Htab HL Hq64
              Hlbq Hokq) as (lbq' & Htask & Hdone & Hokq').
  { left. destruct (LineBuffer.partiallyFull lbq); [|done].
    destruct (Hpq eq_refl) as [_ ?].
    destruct Hqr as [? ?]. destruct Hstep; subst step; lia. }
  { by apply (call_span d c0 n step lo0 hi0 Hcall). }
  simpl. rewrite Htask. simpl.
  set (lbs1 := <[slotOf (length lbs) q := lbq']> lbs).
  assert (Hlen1 : length lbs1 = length lbs)
    by (subst lbs1; apply length_insert).
  destruct (IH (q + step) lbs1) as (lbs' & Hd & Hl1 & Hw');
    [destruct Hstep; subst step; lia
    |rewrite Hlen1; destruct Hstep; subst step; lia
    |destruct Hstep; subst step; lia| |].
  { unfold window. rewrite Hlen1. subst lbs1. split.
    - intros i lb' Hi.
      destruct (decide (i = slotOf (length lbs) q)) as [->|Hi'].
      + rewrite list_lookup_insert_eq in Hi by (by apply slotOf_lt).
        simplify_eq. split; [done|]. intros Hfull.
        destruct Hdone as (_ & _ & _ & _ & He).
        destruct (endsEarly d lo0 hi0 q) eqn:Heq;
          [|destruct He; congruence].
        apply (endsEarly_last d c0 n step lo0 hi0 Hcall) in Heq; [|done].
        fold last in Heq. rewrite Heq.
        split; [done|]. destruct Hstep; subst step; lia.
      + rewrite list_lookup_insert_ne in Hi by done.
        destruct (Hall i lb' Hi) as [Hok Hp]. split; [done|].
        intros Hfull. destruct (Hp Hfull) as [-> ?].
        split; [done|]. destruct Hstep; subst step; lia.
    - intros k Hk1 Hk2.
      destruct (decide (k = q)) as [->|Hkq].
      + exists lbq'.
        by rewrite list_lookup_insert_eq by (by apply slotOf_lt).
      + rewrite list_lookup_insert_ne.
        * apply Hwin; destruct Hstep; subst step; lia.
        * destruct Hstep; subst step.
          -- intros Heq. symmetry in Heq. revert Heq.
             apply slotOf_ne; [done|lia|lia].
          -- apply slotOf_ne; [done|lia|lia]. }
  exists lbs'. rewrite Hd. split; [done|]. split; [lia|].
  replace (q + Z.of_nat (S j) * step) with (q + step + Z.of_nat j * step)
    by lia. done.
Qed.

(** Where a call that ends inside a chunk leaves the cursor. *)
Lemma endsEarly_cursor :
  endsEarly d lo0 hi0 last = true ->
  chunkOf d (c0 + step * n) = last /\ 0 < missingAt d (c0 + step * n).
Proof.
  intros Hearly.
  assert (Hr : inRange step first last last).
  { destruct (call_chunks d c0 n step lo0 hi0 Hcall)
      as (_ & _ & _ & _ & Hfl & _). split; lia. }
  destruct (inRange_chunk d c0 n step lo0 hi0 Hcall last Hr)
    as (Hk0 & Hmin & Hmax & Hmax').
  destruct (call_chunks d c0 n step lo0 hi0 Hcall)
    as (Hf & Hl & Hcf & Hcl & Hfl & Hc0 & He).
  fold first last in Hf, Hl, Hcf, Hcl, Hfl.
  destruct Hcall as [HL Hint Hn Hlo Hhi Hdir].
  unfold endsEarly in Hearly. unfold missingAt.
  destruct Hdir as [(Hinc & -> & -> & ->)|(Hdec & -> & -> & ->)].
  - rewrite decide_True in Hearly by done.
    apply bool_decide_eq_true_1 in Hearly.
    rewrite decide_True by done.
    split; [apply chunkOf_unique; lia|lia].
  - rewrite decide_False in Hearly by done.
    apply bool_decide_eq_true_1 in Hearly.
    rewrite decide_False by done.
    split; [apply chunkOf_unique; lia|lia].
Qed.

End Calls.

Lemma wf_tableOk (d : Data) : wf d -> tableOk d.
Proof. intros Hwf. split; [apply Hwf|]. apply (wf_table_range d Hwf). Qed.

Lemma wf_missingAt (d : Data) :
  wf d -> missingAt d (currentScanLine d) = missingScanLines d.
Proof.
  intros Hwf. unfold missingAt. rewrite (wf_cursor d Hwf).
  case_decide; lia.
Qed.

(** The slots between two calls, as the first task of a call needs
    them. *)
Lemma wf_slots_first (d : Data) :
  wf d -> 0 < missingScanLines d ->
  let first := chunkOf d (currentScanLine d) in
  0 <= first < 2 ^ 64
  /\ minY d <= currentScanLine d <= maxY d
  /\ forall (i : nat) lb, lineBuffers d !! i = Some lb ->
     slotOk d lb
     /\ (LineBuffer.partiallyFull lb = true ->
         i = slotOf (length (lineBuffers d)) first
         /\ LineBuffer.minY lb = chunkMin d first
         /\ LineBuffer.maxY lb = chunkMax d first).
Proof.
  intros Hwf Hm first.
  pose proof (wf_lines d Hwf) as HL.
  pose proof (wf_int d Hwf) as Hint.
  pose proof (wf_missing d Hwf) as Hmiss.
  pose proof (wf_cursor d Hwf) as Hcur.
  assert (Hc : minY d <= currentScanLine d <= maxY d).
  { rewrite Hcur. case_decide; lia. }
  pose proof (chunkOf_bound d _ HL Hc) as Hb.
  destruct (chunkOf_spec d (currentScanLine d) HL) as [Hf0 _]; [lia|].
  fold first in Hb, Hf0.
  assert (Hf64 : 0 <= first < 2 ^ 64) by lia.
  split; [done|]. split; [done|].
  intros i lb Hi.
  destruct (wf_slots d Hwf i lb Hi) as (He & Hbuf & Hrel & Hp).
  split; [done|]. intros Hfull.
  destruct (Hp Hfull) as (_ & Hidx & Ha & Hb').
  fold first in Hidx, Ha, Hb'.
  rewrite getLineBufferIndex_slotOf in Hidx
    by (done || apply (wf_buffers d Hwf)).
  by simplify_eq.
Qed.

(** The body of [writePixels] after the choice of the direction, for a
    call that asks for at least one and at most the missing scan lines. *)
Lemma call_keeps (P : Z -> list Z -> OutputStreamMutex.t -> Prop)
    (d st : Data) (c0 n step lo0 hi0 numTasks : Z) :
  validCall d c0 n step lo0 hi0 -> wf d -> c0 = currentScanLine d ->
  st = upd d (lineBuffers d) (missingScanLines d) c0 (lineOffsets d)
         (_streamData d) ->
  let first := chunkOf d c0 in
  let last := chunkOf d (c0 + step * (n - 1)) in
  let stop := last + step in
  numTasks
  = Z.max (Z.min (Z.of_nat (length (lineBuffers d)))
             ((last - first) * step + 1)) 1 ->
  (forall w current lb lbs m offsets sd offsets' sd',
     inRange step first last w ->
     chunkOf d current = w ->
     LineBuffer.minY lb = chunkMin d w ->
     dataOk lb ->
     P w offsets sd ->
     writePixelData_lineBuffer lb (upd d lbs m current offsets sd)
     = Some (upd d lbs m current offsets' sd') ->
     P (w + step) offsets' sd') ->
  P first (lineOffsets d) (_streamData d) ->
  exists lbs' offsets' sd',
    let final :=
      upd d lbs' (missingScanLines d - n) (c0 + step * n) offsets' sd' in
    match addTasks ops (Z.to_nat numTasks) first step lo0 hi0 st with
    | None => Undefined
    | Some d1 =>
        match drain ops (S (Z.to_nat (Z.abs (stop - first)))) stop step
                lo0 hi0 first (first + step * numTasks) d1 with
        | Break d2 => rethrow d2
        | Return_ d2 => Returned d2
        | Throw e d2 => Threw e d2
        | Stuck => Undefined
        end
    end = Returned final
    /\ wf final
    /\ P (if endsEarly d lo0 hi0 last then last else last + step)
         offsets' sd'.
Proof.
  intros Hcall Hwf Hc0 -> first last stop Htasks HP HPfirst.
  pose proof (step_cases d c0 n step lo0 hi0 Hcall) as Hstep.
  pose proof (vc_lines _ _ _ _ _ _ Hcall) as HL.
  pose proof (wf_tableOk d Hwf) as Htab.
  pose proof (wf_buffers d Hwf) as HN.
  destruct (call_chunks d c0 n step lo0 hi0 Hcall)
    as (Hf & Hl & Hcf & Hcl & Hfl & Hc0r & He).
  fold first last in Hf, Hl, Hcf, Hcl, Hfl.
  assert (Hm : 0 < missingScanLines d).
  { rewrite <- (wf_missingAt d Hwf), <- Hc0. unfold missingAt.
    case_decide; lia. }
  destruct (wf_slots_first d Hwf Hm) as (Hf64 & _ & Hslots).
  rewrite <- Hc0 in Hf64, Hslots. fold first in Hf64, Hslots.
  assert (Hfr : inRange step first last first) by (split; lia).
  (* the first task *)
  destruct (first_task_ok d (lineBuffers d) (missingScanLines d) c0
              (lineOffsets d) (_streamData d) lo0 hi0 step last Htab HL)
    as (lbs1 & Ht1 & Hl1 & Hw1); [done|done|done| | |done|].
  { intros Hearly.
    by apply (endsEarly_last d c0 n step lo0 hi0 Hcall first Hfr). }
  { by apply (call_span d c0 n step lo0 hi0 Hcall first Hfr). }
  fold first in Ht1, Hw1.
  (* the other tasks of the first batch *)
  assert (Hnt : 1 <= numTasks <= Z.of_nat (length (lineBuffers d))) by lia.
  assert (Hnt' : numTasks <= (last - first) * step + 1) by lia.
  replace (Z.to_nat numTasks) with (S (Z.to_nat (numTasks - 1))) by lia.
  cbn [addTasks]. rewrite Ht1. cbn [mbind option_bind].
  destruct (addTasks_ok d c0 n step lo0 hi0 Hcall Htab
              (Z.to_nat (numTasks - 1)) (first + step) lbs1
              (missingScanLines d) c0 (lineOffsets d) (_streamData d))
    as (lbs2 & Ht2 & Hl2 & Hw2);
    [destruct Hstep; subst step; lia
    |rewrite Hl1; destruct Hstep; subst step; lia
    |fold first last; destruct Hstep; subst step; lia
    |done|].
  fold first in Ht2. rewrite Ht2.
  replace (first + step + Z.of_nat (Z.to_nat (numTasks - 1)) * step)
    with (first + step * numTasks) in Hw2 by lia.
  (* the loop *)
  destruct (drain_keeps d c0 n step lo0 hi0 Hcall Htab P HP
              (S (Z.to_nat (Z.abs (stop - first)))) first
              (first + step * numTasks) lbs2 (lineOffsets d) (_streamData d))
    as (lbs' & offsets' & sd' & Hd & Hl' & Ho' & Hs' & HPe);
    [done
    |rewrite Hl2, Hl1; destruct Hstep; subst step; lia
    |fold first last stop; subst stop; destruct Hstep; subst step; lia
    |fold first last stop; subst stop; destruct Hstep; subst step; lia
    |apply (wf_lineOffsets d Hwf)|done|done|].
  fold first last stop in Hd.
  assert (Hcur : cursorAt d c0 first first = c0)
    by (unfold cursorAt; by rewrite decide_True).
  rewrite Hcur in Hd.
  assert (Hm0 : missingAt d c0 = missingScanLines d)
    by (rewrite Hc0; by apply wf_missingAt).
  rewrite Hm0 in Hd.
  assert (Hm1 : missingAt d (c0 + step * n) = missingScanLines d - n).
  { rewrite <- Hm0. symmetry.
    by apply (missingAt_step d c0 n step lo0 hi0). }
  rewrite Hm1 in Hd. rewrite Hd.
  exists lbs', offsets', sd'. cbv zeta.
  set (final := upd d lbs' (missingScanLines d - n) (c0 + step * n)
                  offsets' sd').
  assert (Hwf' : wf final).
  { constructor; try apply Hwf.
    - change (length (lineBuffers final)) with (length lbs'). lia.
    - change (currentScanLine final) with (c0 + step * n).
      change (missingScanLines final) with (missingScanLines d - n).
      change (lineOrder final) with (lineOrder d).
      change (maxY final) with (maxY d). change (minY final) with (minY d).
      rewrite <- Hm1. unfold missingAt. case_decide; lia.
    - change (missingScanLines final) with (missingScanLines d - n).
      change (maxY final) with (maxY d). change (minY final) with (minY d).
      pose proof (wf_missing d Hwf).
      destruct Hcall as [_ _ Hn Hlo Hhi Hdir].
      rewrite <- Hm0. unfold missingAt.
      destruct Hdir as [(Hinc & _ & -> & ->)|(Hdec & _ & -> & ->)].
      + rewrite decide_True by done. lia.
      + rewrite decide_False by done. lia.
    - change (lineOffsets final) with offsets'. rewrite Ho'.
      apply (wf_lineOffsets d Hwf).
    - intros i lb Hi. change (lineBuffers final) with lbs' in Hi.
      destruct (Hs' i lb Hi) as [(Hex & Hbuf & Hrel) Hp].
      split; [done|]. split; [done|]. split; [done|].
      intros Hfull. destruct (Hp Hfull) as (Hearly & -> & Ha & Hb).
      fold last in Hearly, Ha, Hb.
      destruct (endsEarly_cursor d c0 n step lo0 hi0 Hcall Hearly)
        as [Hchunk Hpos].
      fold last in Hchunk.
      change (currentScanLine final) with (c0 + step * n).
      change (missingScanLines final) with (missingScanLines d - n).
      change (chunkOf final (c0 + step * n))
        with (chunkOf d (c0 + step * n)).
      rewrite Hchunk, <- Hm1.
      split; [done|]. split; [|done].
      rewrite getLineBufferIndex_slotOf.
      + change (lineBuffers final) with lbs'. fold last.
        by rewrite Hl', Hl2, Hl1.
      + change (lineBuffers final) with lbs'. lia.
      + pose proof (chunkOf_bound d _ HL He). fold last in H.
        pose proof (wf_int d Hwf). lia. }
  split; [|by split].
  destruct (endsEarly d lo0 hi0 last); [done|].
  unfold rethrow. change (lineBuffers final) with lbs'.
  rewrite collectExceptions_none.
  - done.
  - intros lb Hin. apply list_elem_of_lookup in Hin as [i Hi].
    by destruct (Hs' i lb Hi) as [(? & _) _].
Qed.

Lemma call_tail (d st : Data) (c0 n step lo0 hi0 numTasks : Z) :
  validCall d c0 n step lo0 hi0 -> wf d -> c0 = currentScanLine d ->
  st = upd d (lineBuffers d) (missingScanLines d) c0 (lineOffsets d)
         (_streamData d) ->
  let first := chunkOf d c0 in
  let last := chunkOf d (c0 + step * (n - 1)) in
  let stop := last + step in
  numTasks
  = Z.max (Z.min (Z.of_nat (length (lineBuffers d)))
             ((last - first) * step + 1)) 1 ->
  exists lbs' offsets' sd',
    let final :=
      upd d lbs' (missingScanLines d - n) (c0 + step * n) offsets' sd' in
    match addTasks ops (Z.to_nat numTasks) first step lo0 hi0 st with
    | None => Undefined
    | Some d1 =>
        match drain ops (S (Z.to_nat (Z.abs (stop - first)))) stop step
                lo0 hi0 first (first + step * numTasks) d1 with
        | Break d2 => rethrow d2
        | Return_ d2 => Returned d2
        | Throw e d2 => Threw e d2
        | Stuck => Undefined
        end
    end = Returned final
    /\ wf final.
Proof.
  intros Hcall Hwf Hc0 Hst first last stop Htasks.
  destruct (call_keeps (fun _ _ _ => True) d st c0 n step lo0 hi0 numTasks
              Hcall Hwf Hc0 Hst Htasks) as (lbs' & offsets' & sd' & H);
    [done|done|].
  exists lbs', offsets', sd'. cbv zeta in H |- *. tauto.
Qed.

Lemma wf_validCall (d : Data) (n : Z) :
  wf d -> 1 <= n <= missingScanLines d ->
  let c0 := currentScanLine d in
  if decide (lineOrder d = INCREASING_Y)
  then validCall d c0 n 1 c0 (c0 + n - 1)
  else validCall d c0 n (-1) (c0 - n + 1) c0.
Proof.
  intros Hwf Hn c0.
  pose proof (wf_missing d Hwf). pose proof (wf_cursor d Hwf) as Hc.
  fold c0 in Hc.
  destruct (decide (lineOrder d = INCREASING_Y)) as [Hinc|Hdec].
  - constructor; try apply Hwf; try lia. left. done.
  - constructor; try apply Hwf; try lia. right. done.
Qed.

(** A call for at least one and at most the missing scan lines, on a file
    in order with its frame buffer bound: the call returns, the cursor has
    moved by [n] lines in the direction of the file, the counter has gone
    down by [n], nothing else of the file but the slots, the offsets and
    the stream has changed, and the file is in order again. *)
Lemma writePixels_valid (n : Z) (d : Data) :
  wf d -> slices d <> [] -> 1 <= n <= missingScanLines d ->
  exists lbs' offsets' sd',
    let step := if decide (lineOrder d = INCREASING_Y) then 1 else -1 in
    let d' :=
      upd d lbs' (missingScanLines d - n) (currentScanLine d + step * n)
        offsets' sd' in
    writePixels ops n d = Returned d' /\ wf d'.
Proof.
  intros Hwf Hslices Hn.
  pose proof (wf_lines d Hwf) as HL.
  pose proof (wf_validCall d n Hwf Hn) as Hcall. cbv zeta in Hcall.
  unfold writePixels, writePixels_try.
  rewrite decide_False by (by destruct (slices d)).
  rewrite decide_False by lia.
  destruct (decide (lineOrder d = INCREASING_Y)) as [Hinc|Hdec].
  - destruct (call_tail d d (currentScanLine d) n 1 (currentScanLine d)
                (currentScanLine d + n - 1)
                (Z.max (Z.min (Z.of_nat (length (lineBuffers d)))
                          (Z.quot (currentScanLine d + (n - 1) - minY d)
                                  (linesInBuffer d)
                           - Z.quot (currentScanLine d - minY d)
                                    (linesInBuffer d) + 1)) 1)
                Hcall Hwf eq_refl (upd_self d))
      as (lbs' & offsets' & sd' & Hrun & Hwf').
    { unfold chunkOf.
      replace (currentScanLine d + 1 * (n - 1) - minY d)
        with (currentScanLine d + (n - 1) - minY d) by lia.
      f_equal. f_equal. lia. }
    exists lbs', offsets', sd'. cbv zeta in Hrun, Hwf' |- *.
    split; [|done].
    unfold chunkOf in Hrun.
    replace (currentScanLine d + 1 * (n - 1) - minY d)
      with (currentScanLine d + (n - 1) - minY d) in Hrun by lia.
    by rewrite Hrun.
  - destruct (call_tail d d (currentScanLine d) n (-1)
                (currentScanLine d - n + 1) (currentScanLine d)
                (Z.max (Z.min (Z.of_nat (length (lineBuffers d)))
                          (Z.quot (currentScanLine d - minY d)
                                  (linesInBuffer d)
                           - Z.quot (currentScanLine d - (n - 1) - minY d)
                                    (linesInBuffer d) + 1)) 1)
                Hcall Hwf eq_refl (upd_self d))
      as (lbs' & offsets' & sd' & Hrun & Hwf').
    { unfold chunkOf.
      replace (currentScanLine d + -1 * (n - 1) - minY d)
        with (currentScanLine d - (n - 1) - minY d) by lia.
      f_equal. f_equal. lia. }
    exists lbs', offsets', sd'. cbv zeta in Hrun, Hwf' |- *.
    split; [|done].
    unfold chunkOf in Hrun.
    replace (currentScanLine d + -1 * (n - 1) - minY d)
      with (currentScanLine d - (n - 1) - minY d) in Hrun by lia.
    by rewrite Hrun.
Qed.

(** The body of [writePixels] for a call that asks for no scan line: one
    task that gathers nothing, and a loop that returns in its first pass,
    at the slot of the cursor, which is left partially full. *)
Lemma zero_tail (d st : Data) (step lo0 hi0 stop q : Z) (fuel : nat) :
  wf d -> 0 < missingScanLines d ->
  st = upd d (lineBuffers d) (missingScanLines d) (currentScanLine d)
         (lineOffsets d) (_streamData d) ->
  (lineOrder d = INCREASING_Y /\ step = 1
   /\ lo0 = currentScanLine d /\ hi0 = currentScanLine d + 0 - 1)
  \/ (lineOrder d <> INCREASING_Y /\ step = -1
      /\ lo0 = currentScanLine d - 0 + 1 /\ hi0 = currentScanLine d) ->
  let first := chunkOf d (currentScanLine d) in
  exists lbs',
    let final :=
      upd d lbs' (missingScanLines d) (currentScanLine d) (lineOffsets d)
        (_streamData d) in
    match addTasks ops 1 first step lo0 hi0 st with
    | None => Undefined
    | Some d1 =>
        match drain ops (S fuel) stop step lo0 hi0 first q d1 with
        | Break d2 => rethrow d2
        | Return_ d2 => Returned d2
        | Throw e d2 => Threw e d2
        | Stuck => Undefined
        end
    end = Returned final
    /\ wf final.
Proof.
  intros Hwf Hm -> Hdir first.
  pose proof (wf_lines d Hwf) as HL.
  pose proof (wf_tableOk d Hwf) as Htab.
  pose proof (wf_buffers d Hwf) as HN.
  destruct (wf_slots_first d Hwf Hm) as (Hf64 & Hc & Hslots).
  fold first in Hf64, Hslots.
  destruct (chunkOf_spec d (currentScanLine d) HL) as [_ Hcf]; [lia|].
  fold first in Hcf.
  assert (Hmax : currentScanLine d <= chunkMax d first)
    by (unfold chunkMax; lia).
  assert (Hearly : endsEarly d lo0 hi0 first = true).
  { unfold endsEarly.
    destruct Hdir as [(Hinc & _ & -> & ->)|(Hdec & _ & -> & ->)].
    - rewrite decide_True by done. apply bool_decide_eq_true_2. lia.
    - rewrite decide_False by done. apply bool_decide_eq_true_2. lia. }
  assert (Hlines : linesOf d lo0 hi0 first = 0).
  { unfold linesOf. destruct Hdir as [(_ & _ & -> & ->)|(_ & _ & -> & ->)];
      lia. }
  destruct (first_task_ok d (lineBuffers d) (missingScanLines d)
              (currentScanLine d) (lineOffsets d) (_streamData d)
              lo0 hi0 step first Htab HL)
    as (lbs1 & Ht1 & Hl1 & Hall & Hwin); [done|done| |done| |done|].
  { destruct Hdir as [(_ & -> & _)|(_ & -> & _)]; lia. }
  { fold first. destruct Hdir as [(_ & _ & -> & ->)|(_ & _ & -> & ->)]; lia. }
  fold first in Ht1, Hall, Hwin.
  cbn [addTasks]. rewrite Ht1. cbn [mbind option_bind].
  destruct (Hwin first) as (lb & Hlb & Ha & Hb & Hlo & Hhi & Hp).
  { lia. }
  { destruct Hdir as [(_ & -> & _)|(_ & -> & _)]; lia. }
  rewrite Hearly in Hp.
  rewrite drain_unfold.
  rewrite missingScanLines_upd, decide_False by lia.
  rewrite getLineBuffer_upd, Hlb by (done || lia).
  cbv zeta. rewrite Hhi, Hlo. fold (linesOf d lo0 hi0 first).
  rewrite Hlines, Hp.
  rewrite set_missingScanLines_upd, currentScanLine_upd,
    set_currentScanLine_upd.
  replace (missingScanLines d - 0) with (missingScanLines d) by lia.
  replace (currentScanLine d + step * 0) with (currentScanLine d) by lia.
  exists lbs1. cbv zeta. split; [done|].
  set (final := upd d lbs1 (missingScanLines d) (currentScanLine d)
                  (lineOffsets d) (_streamData d)).
  constructor; try apply Hwf.
  - change (length (lineBuffers final)) with (length lbs1). lia.
  - intros i lbi Hi. change (lineBuffers final) with lbs1 in Hi.
    destruct (Hall i lbi Hi) as [(Hex & Hbuf & Hrel) Hpi].
    split; [done|]. split; [done|]. split; [done|].
    intros Hfull. destruct (Hpi Hfull) as [-> _].
    rewrite Hlb in Hi. simplify_eq.
    change (missingScanLines final) with (missingScanLines d).
    change (chunkOf final (currentScanLine final)) with first.
    split; [done|]. split; [|done].
    rewrite getLineBufferIndex_slotOf; [|change (lineBuffers final) with lbs1; lia|done].
    change (lineBuffers final) with lbs1. by rewrite Hl1.
Qed.

(** A call for no scan line on a file in order that still misses scan
    lines: the call returns and only slots have changed. *)
Lemma writePixels_zero (d : Data) :
  wf d -> slices d <> [] -> 0 < missingScanLines d ->
  exists lbs',
    let d' :=
      upd d lbs' (missingScanLines d) (currentScanLine d) (lineOffsets d)
        (_streamData d) in
    writePixels ops 0 d = Returned d' /\ wf d'.
Proof.
  intros Hwf Hslices Hm.
  pose proof (wf_lines d Hwf) as HL.
  unfold writePixels, writePixels_try.
  rewrite decide_False by (by destruct (slices d)).
  rewrite decide_False by lia.
  destruct (decide (lineOrder d = INCREASING_Y)) as [Hinc|Hdec].
  - assert (Hone :
      Z.max (Z.min (Z.of_nat (length (lineBuffers d)))
               (Z.quot (currentScanLine d + (0 - 1) - minY d)
                       (linesInBuffer d)
                - Z.quot (currentScanLine d - minY d) (linesInBuffer d) + 1))
        1 = 1).
    { pose proof (Z.quot_le_mono (currentScanLine d + (0 - 1) - minY d)
                    (currentScanLine d - minY d) (linesInBuffer d) HL).
      lia. }
    rewrite Hone.
    destruct (zero_tail d d 1 (currentScanLine d) (currentScanLine d + 0 - 1)
                (Z.quot (currentScanLine d + (0 - 1) - minY d)
                        (linesInBuffer d) + 1)
                (Z.quot (currentScanLine d - minY d) (linesInBuffer d) + 1 * 1)
                (Z.to_nat
                   (Z.abs
                      (Z.quot (currentScanLine d + (0 - 1) - minY d)
                              (linesInBuffer d) + 1
                       - Z.quot (currentScanLine d - minY d)
                                (linesInBuffer d))))
                Hwf Hm (upd_self d)) as (lbs' & Hrun & Hwf'); [by left|].
    exists lbs'. cbv zeta in Hrun, Hwf' |- *. split; [|done].
    unfold chunkOf in Hrun. change (Z.to_nat 1) with 1%nat.
    by rewrite Hrun.
  - assert (Hone :
      Z.max (Z.min (Z.of_nat (length (lineBuffers d)))
               (Z.quot (currentScanLine d - minY d) (linesInBuffer d)
                - Z.quot (currentScanLine d - (0 - 1) - minY d)
                         (linesInBuffer d) + 1))
        1 = 1).
    { pose proof (Z.quot_le_mono (currentScanLine d - minY d)
                    (currentScanLine d - (0 - 1) - minY d)
                    (linesInBuffer d) HL).
      lia. }
    rewrite Hone.
    destruct (zero_tail d d (-1) (currentScanLine d - 0 + 1)
                (currentScanLine d)
                (Z.quot (currentScanLine d - (0 - 1) - minY d)
                        (linesInBuffer d) + -1)
                (Z.quot (currentScanLine d - minY d) (linesInBuffer d)
                 + -1 * 1)
                (Z.to_nat
                   (Z.abs
                      (Z.quot (currentScanLine d - (0 - 1) - minY d)
                              (linesInBuffer d) + -1
                       - Z.quot (currentScanLine d - minY d)
                                (linesInBuffer d))))
                Hwf Hm (upd_self d)) as (lbs' & Hrun & Hwf'); [by right|].
    exists lbs'. cbv zeta in Hrun, Hwf' |- *. split; [|done].
    unfold chunkOf in Hrun. change (Z.to_nat 1) with 1%nat.
    by rewrite Hrun.
Qed.

(** ** The file in order *)

Lemma wf_setFrameBuffer (frameBuffer_ : FrameBuffer) (d d' : Data) :
  wf d -> setFrameBuffer frameBuffer_ d = Returned d' ->
  wf d' /\ missingScanLines d' = missingScanLines d
  /\ length (slices d') = length (Header.channels (header d)).
Proof.
  intros Hwf. unfold setFrameBuffer.
  destruct (checkFrameBuffer _ _ _); [done|]. intros [= <-].
  split; [|split; [done|simpl; by rewrite length_fmap]].
  constructor; try apply Hwf.
Qed.

(** The file that [initialize] builds is in order, when the helpers give
    a positive number of lines for a chunk, a table of offsets with one
    entry for every scan line, each inside a line buffer, and a compressor
    that does not throw. *)
Lemma wf_initialize (numThreads : Z) (multiPart_ : bool)
    (streamData : OutputStreamMutex.t) (hdr : Header.t) :
  let dataWindow := Header.dataWindow hdr in
  let lo := V2i.y (Box2i.min dataWindow) in
  let hi := V2i.y (Box2i.max dataWindow) in
  let table := bytesPerLineTable ops hdr in
  let comp := newCompressor ops (Header.compression hdr) table.1 hdr in
  let lines := numLinesInBuffer ops comp in
  let offsets := offsetInLineBufferTable ops table.2 lines in
  lo <= hi -> hi - lo < 2 ^ 32 -> 0 < lines ->
  Z.of_nat (length offsets) = hi - lo + 1 ->
  (forall (i : nat) off, offsets !! i = Some off ->
   0 <= off <= table.1 * lines) ->
  (forall compress, comp = Some compress ->
   forall block y, exists compPtr, compress block y = inr compPtr) ->
  wf (initialize ops numThreads multiPart_ streamData hdr).
Proof.
  intros dataWindow lo hi table comp lines offsets Hwin Hint Hlines Hlen
    Hrange Hrel.
  constructor; unfold initialize; simpl;
    fold dataWindow; fold lo hi; fold table; fold comp; fold lines;
    fold offsets; try done.
  - rewrite length_replicate. lia.
  - case_decide; lia.
  - lia.
  - rewrite length_replicate.
    pose proof (Z.quot_pos (hi - lo + lines) lines). lia.
  - intros i lb Hi. apply lookup_replicate in Hi as [-> _].
    split; [done|]. split.
    { unfold bufferOk. simpl. rewrite length_replicate. lia. }
    split; [|done]. exact Hrel.
Qed.

(** ** Sequences of [writePixels] calls *)

(** The counter along a sequence of calls that ask for no more than is
    missing: every call returns, and after each call the counter is what it
    was before less the lines asked for. *)
Lemma writeSequence_counts (ns : list Z) (d : Data) :
  wf d -> slices d <> [] -> feasible (missingScanLines d) ns ->
  length (writeSequence ops ns d) = length ns
  /\ (forall (i : nat) r, writeSequence ops ns d !! i = Some r ->
      exists d',
        r = Returned d' /\ wf d'
        /\ missingScanLines d'
           = missingScanLines d - sum (take (S i) ns)
        /\ 0 <= missingScanLines d').
Proof.
  revert d. induction ns as [|n rest IH]; intros d Hwf Hslices Hfeas.
  { split; [done|]. intros i r Hi. simpl in Hi. by rewrite lookup_nil in Hi. }
  destruct Hfeas as (Hm & Hn & Hrest).
  assert (Hcall : exists d',
    writePixels ops n d = Returned d' /\ wf d'
    /\ missingScanLines d' = missingScanLines d - n
    /\ slices d' = slices d).
  { destruct (decide (n = 0)) as [->|Hn0].
    - destruct (writePixels_zero d Hwf Hslices Hm) as (lbs' & Hrun & Hwf').
      eexists. split; [exact Hrun|]. split; [exact Hwf'|].
      split; [simpl; lia|done].
    - destruct (writePixels_valid n d Hwf Hslices) as
        (lbs' & offsets' & sd' & Hrun & Hwf'); [lia|].
      eexists. split; [exact Hrun|]. split; [exact Hwf'|]. done. }
  destruct Hcall as (d' & Hrun & Hwf' & Hm' & Hs').
  simpl. rewrite Hrun.
  destruct (IH d' Hwf') as [Hlen Hall];
    [by rewrite Hs'|by rewrite Hm'|].
  split; [simpl; by rewrite Hlen|].
  intros [|i] r Hi.
  - simpl in Hi. simplify_eq. exists d'. split; [done|]. split; [done|].
    split; [simpl; lia|]. pose proof (wf_missing d' Hwf'). lia.
  - simpl in Hi. destruct (Hall i r Hi) as (d'' & -> & Hwf'' & Hm'' & Hpos).
    exists d''. split; [done|]. split; [done|]. split; [|done].
    rewrite Hm'', Hm'. change (take (S (S i)) (n :: rest))
      with (n :: take (S i) rest). simpl. lia.
Qed.

(** ** [copyPixels] counts whole chunks *)

Lemma copyLoop_ok (inp : InputFile.t) (fuel : nat) (d : Data) :
  readable inp ->
  0 < linesInBuffer d -> minY d <= maxY d ->
  currentScanLine d
  = (if decide (lineOrder d = INCREASING_Y)
     then maxY d + 1 - missingScanLines d
     else minY d - 1 + missingScanLines d) ->
  - linesInBuffer d < missingScanLines d <= maxY d - minY d + 1 ->
  Z.of_nat (length (lineOffsets d))
  = Z.quot (maxY d - minY d + linesInBuffer d) (linesInBuffer d) ->
  missingScanLines d <= Z.of_nat fuel ->
  exists d',
    copyLoop ops fuel inp d = Returned d'
    /\ - linesInBuffer d < missingScanLines d' <= 0
    /\ (missingScanLines d - missingScanLines d') mod linesInBuffer d = 0.
Proof.
  intros Hread. revert d.
  induction fuel as [|fuel IH]; intros d HL Hwin Hcur Hm Hoff Hfuel.
  { exists d. simpl. rewrite decide_False by lia.
    split; [done|]. split; [lia|].
    by rewrite Z.sub_diag, Z.mod_0_l by lia. }
  simpl. destruct (decide (missingScanLines d > 0)) as [Hpos|Hdone].
  2: { exists d. split; [done|]. split; [lia|].
       by rewrite Z.sub_diag, Z.mod_0_l by lia. }
  destruct (Hread (currentScanLine d)) as [pixelData ->].
  assert (Hc : minY d <= currentScanLine d <= maxY d).
  { rewrite Hcur. case_decide; lia. }
  unfold writePixelData. rewrite decide_False by lia.
  unfold assign. fold (chunkOf d (currentScanLine d)).
  pose proof (chunkOf_lt_count d _ HL Hc).
  destruct (chunkOf_spec d (currentScanLine d) HL) as [? _]; [lia|].
  destruct (decide (0 <= chunkOf d (currentScanLine d)
                    < Z.of_nat (length (lineOffsets d)))); [|lia].
  simpl.
  destruct (decide (0 <= Z.of_nat (length pixelData)
                    <= Z.of_nat (length pixelData))); [|lia].
  match goal with |- context [copyLoop ops fuel inp ?st] => set (next := st) end.
  destruct (IH next) as (d' & Hrun & Hm' & Hmod); try done.
  - subst next. simpl. rewrite Hcur. repeat case_decide; lia.
  - subst next. simpl. lia.
  - subst next. simpl. by rewrite length_insert.
  - subst next. simpl. lia.
  - exists d'. split; [done|]. split; [done|].
    subst next. simpl in Hmod.
    replace (missingScanLines d - missingScanLines d')
      with (missingScanLines d - linesInBuffer d - missingScanLines d'
            + 1 * linesInBuffer d) by lia.
    by rewrite Z.mod_add by lia.
Qed.

(** X14.  On a file in order (cursor and counter agree, tables of the
    size of the data window, no slot holding an exception, a compressor
    that does not throw) whose slice table is not empty, every call of a
    sequence of [writePixels] calls, each made while scan lines are
    missing and asking for no more scan lines than are missing, returns,
    and after each of them [missingScanLines] is the number before the
    sequence less the lines asked for so far: it is never negative, and
    it is zero when the calls have asked for all the scan lines that were
    missing. *)
Theorem writePixels_counts_exactly (ns : list Z) (d : Data) :
  wf d -> slices d <> [] -> feasible (missingScanLines d) ns ->
  length (writeSequence ops ns d) = length ns
  /\ (forall (i : nat) r, writeSequence ops ns d !! i = Some r ->
      exists d',
        r = Returned d'
        /\ missingScanLines d'
           = missingScanLines d - sum (take (S i) ns)
        /\ 0 <= missingScanLines d')
  /\ (ns <> [] -> sum ns = missingScanLines d ->
      exists d',
        last (writeSequence ops ns d) = Some (Returned d')
        /\ missingScanLines d' = 0).
Proof.
  intros Hwf Hslices Hfeas.
  destruct (writeSequence_counts ns d Hwf Hslices Hfeas) as [Hlen Hall].
  split; [done|]. split.
  - intros i r Hi. destruct (Hall i r Hi) as (d' & ? & _ & ? & ?).
    by exists d'.
  - intros Hne Hsum.
    destruct (writeSequence ops ns d) as [|r0 rs] eqn:Hseq using rev_ind.
    { destruct ns; [done|]. simpl in Hlen. lia. }
    clear IHrs. rewrite last_snoc.
    destruct (Hall (length rs) r0) as (d' & -> & _ & Hm & _).
    { by rewrite lookup_app_r, Nat.sub_diag by lia. }
    exists d'. split; [done|].
    rewrite length_app in Hlen. simpl in Hlen.
    rewrite take_ge in Hm by lia. lia.
Qed.

(** X15.  [copyPixels] counts whole chunks.  On a file in order that
    misses all its scan lines, with a source that passes the checks and
    gives a block for every scan line it is asked for, [copyPixels]
    returns with [missingScanLines] not above zero and above
    [- linesInBuffer]: the loop takes [linesInBuffer] off the counter for
    every chunk, also for a last chunk that has fewer scan lines.  The
    counter ends at zero exactly when [linesInBuffer] divides the number
    of scan lines of the data window, and below zero otherwise. *)
Theorem copyPixels_counts_whole_chunks (inp : InputFile.t) (d : Data) :
  wf d -> readable inp -> copyPixels_check inp d = None ->
  missingScanLines d = maxY d - minY d + 1 ->
  exists d',
    copyPixels ops inp d = Returned d'
    /\ - linesInBuffer d < missingScanLines d' <= 0
    /\ (missingScanLines d' = 0
        <-> (maxY d - minY d + 1) mod linesInBuffer d = 0).
Proof.
  intros Hwf Hread Hcheck Hfresh.
  pose proof (wf_lines d Hwf) as HL.
  pose proof (wf_missing d Hwf) as Hmiss.
  rewrite (copyPixels_check_passes inp d Hcheck).
  destruct (copyLoop_ok inp (Z.to_nat (missingScanLines d)) d Hread HL)
    as (d' & Hrun & Hm & Hmod); try apply Hwf; [lia..|].
  exists d'. split; [done|]. split; [done|].
  rewrite <- Hfresh.
  apply Z.mod_divide in Hmod as [q Hq]; [|lia].
  split.
  - intros H0. rewrite H0 in Hq. apply Z.mod_divide; [lia|].
    exists q. lia.
  - intros Hdiv. apply Z.mod_divide in Hdiv as [p Hp]; [|lia].
    assert (Hq' : missingScanLines d' = (p - q) * linesInBuffer d) by lia.
    destruct (Z_le_gt_dec (p - q) (-1)); [nia|].
    destruct (Z_le_gt_dec 1 (p - q)); [nia|].
    assert (p - q = 0) by lia. nia.
Qed.

(** ** The range error *)

Lemma addTask_only_slots (number lo hi : Z) (d d' : Data) :
  addTask ops number lo hi d = Some d' ->
  d' = set_lineBuffers (lineBuffers d') d.
Proof.
  unfold addTask. intros Hrun.
  destruct (getLineBufferIndex d number); [|done]. simpl in Hrun.
  destruct (lineBuffers d !! n); [|done]. simpl in Hrun.
  destruct (execute ops d _); [|done]. simpl in Hrun.
  by simplify_eq.
Qed.

Lemma addTasks_only_slots (k : nat) (number step lo hi : Z) (d d' : Data) :
  addTasks ops k number step lo hi d = Some d' ->
  d' = set_lineBuffers (lineBuffers d') d.
Proof.
  revert number d. induction k as [|k IH]; intros number d Hrun; simpl in Hrun.
  { simplify_eq. by destruct d'. }
  destruct (addTask ops number lo hi d) as [d1|] eqn:H1; [|done].
  simpl in Hrun. apply IH in Hrun. apply addTask_only_slots in H1.
  etrans; [exact Hrun|]. by rewrite H1.
Qed.


(** A call on a file that misses no scan line does not return. *)
Lemma writePixels_full (n : Z) (d d' : Data) :
  slices d <> [] -> missingScanLines d <= 0 ->
  writePixels ops n d <> Returned d'.
Proof.
  intros Hslices Hm. unfold writePixels, writePixels_try.
  rewrite decide_False by (by destruct (slices d)).
  destruct (decide (linesInBuffer d = 0)); [done|].
  destruct (decide (lineOrder d = INCREASING_Y));
    (destruct (addTasks ops _ _ _ _ _ d) as [d1|] eqn:Htasks; [|done]);
    apply addTasks_only_slots in Htasks;
    rewrite drain_unfold;
    by rewrite decide_True by (rewrite Htasks; simpl; lia).
Qed.

(** The states that a file in order comes to are in order. *)
Lemma reaches_wf (d0 d : Data) : wf d0 -> reaches ops d0 d -> wf d.
Proof.
  intros Hwf0.
  induction 1 as [|frameBuffer_ d d' _ IH Hset|n d d' _ IH Hn Hrun].
  - done.
  - by destruct (wf_setFrameBuffer frameBuffer_ d d' IH Hset).
  - destruct (decide (slices d = [])) as [Hnil|Hslices].
    { unfold writePixels, writePixels_try in Hrun.
      rewrite decide_True in Hrun by (by rewrite Hnil). done. }
    destruct (decide (missingScanLines d <= 0)) as [Hnone|Hsome].
    { by destruct (writePixels_full n d d' Hslices Hnone). }
    destruct (decide (n = 0)) as [->|Hn0].
    + destruct (writePixels_zero d IH Hslices) as (lbs' & Hrun' & Hwf');
        [lia|]. cbv zeta in Hrun', Hwf'. congruence.
    + destruct (writePixels_valid n d IH Hslices) as
        (lbs' & offsets' & sd' & Hrun' & Hwf'); [lia|].
      cbv zeta in Hrun', Hwf'. congruence.
Qed.

(** ** Calls for no scan line *)


(** ** The range error on a file that has all its scan lines *)


(** The files in order that miss no scan line have all their scan lines
    written. *)
Lemma wf_allWritten (d : Data) :
  wf d -> missingScanLines d <= 0 -> allWritten d.
Proof.
  intros Hwf Hm.
  pose proof (wf_missing d Hwf) as Hmiss.
  split; [apply Hwf|]. split; [apply Hwf|]. split; [apply Hwf|].
  split; [done|]. split.
  - rewrite (wf_cursor d Hwf). case_decide; lia.
  - apply Forall_lookup. intros i lb Hi.
    destruct (wf_slots d Hwf i lb Hi) as (_ & _ & _ & Hp).
    destruct (LineBuffer.partiallyFull lb); [|done].
    destruct Hp as [Hpos _]; [done|lia].
Qed.



(** ** Failures of tasks *)

(** Whatever the [try] block of [execute] throws is caught: [execute]
    itself has no way to throw.  The message is stored only in a slot that
    holds none. *)
Lemma execute_catches (ofd : Data) (lineBuffer lineBuffer' : LineBuffer.t)
    (thrown : Thrown) :
  execute_try ops ofd lineBuffer = Some (lineBuffer', Some thrown) ->
  execute ops ofd lineBuffer = Some (catch_in_task lineBuffer' thrown)
  /\ LineBuffer.hasException (catch_in_task lineBuffer' thrown) = true
  /\ LineBuffer.exception (catch_in_task lineBuffer' thrown)
     = (if LineBuffer.hasException lineBuffer'
        then LineBuffer.exception lineBuffer'
        else thrown_what thrown).
Proof.
  intros Htry. unfold execute. rewrite Htry. simpl. split; [done|].
  unfold catch_in_task.
  by destruct (LineBuffer.hasException lineBuffer') eqn:He.
Qed.

Lemma collectExceptions_spec (exception : option string)
    (lineBuffers_ : list LineBuffer.t) :
  collectExceptions exception lineBuffers_
  = (match exception with
     | Some w => Some w
     | None => firstException lineBuffers_
     end,
     (fun lb => LineBuffer.set_exception false (LineBuffer.exception lb) lb)
     <$> lineBuffers_).
Proof.
  revert exception.
  induction lineBuffers_ as [|lb rest IH]; intros exception; simpl.
  { by destruct exception. }
  rewrite IH.
  destruct exception; [done|].
  by destruct (LineBuffer.hasException lb).
Qed.

(** When the loop is left by [break], every slot is looked at, every flag
    is cleared, and the first stored message is thrown as an I/O error. *)
Lemma rethrow_spec (d : Data) :
  let cleared :=
    (fun lb => LineBuffer.set_exception false (LineBuffer.exception lb) lb)
    <$> lineBuffers d in
  rethrow d
  = match firstException (lineBuffers d) with
    | Some w => Threw (IoExc w) (set_lineBuffers cleared d)
    | None => Returned (set_lineBuffers cleared d)
    end.
Proof. unfold rethrow. by rewrite collectExceptions_spec. Qed.

End Properties.

(** * The layout of the file *)

(** ** Writing at the end of the stream *)

Lemma store_end (bs block : list byte) :
  store (Z.of_nat (length block)) bs block = block ++ bs.
Proof.
  unfold store. rewrite Nat2Z.id, Nat.sub_diag. simpl.
  rewrite app_nil_r, firstn_all.
  rewrite drop_ge by lia. by rewrite app_nil_r.
Qed.

Lemma os_write_end (bs : list byte) (os : OStream.t) :
  tellp os = Z.of_nat (length (OStream.bytes os)) ->
  os_write bs os
  = OStream.mk (OStream.fileName os) (OStream.bytes os ++ bs)
      (Z.of_nat (length (OStream.bytes os ++ bs))).
Proof.
  unfold tellp, os_write. intros ->. rewrite store_end.
  f_equal. rewrite length_app. lia.
Qed.

Lemma chunkBytes_take (d : Data) (y : Z) (pixelData : list byte) (size : Z) :
  0 <= size <= Z.of_nat (length pixelData) ->
  chunkBytes d (y, take (Z.to_nat size) pixelData)
  = chunkRecord d y pixelData size.
Proof.
  intros Hsize. unfold chunkBytes, chunkRecord. simpl.
  rewrite length_take, Nat.min_l by lia.
  rewrite Z2Nat.id by lia.
  by rewrite take_take, Nat.min_id.
Qed.

(** ** The chunks in the order of the file *)

Lemma chunkCount_pos (d : Data) :
  0 < linesInBuffer d -> minY d <= maxY d -> 0 < chunkCount d.
Proof.
  intros HL Hwin. unfold chunkCount.
  rewrite Z.quot_div_nonneg by lia.
  apply Z.div_str_pos. lia.
Qed.

Lemma chunkOf_maxY (d : Data) :
  0 < linesInBuffer d -> minY d <= maxY d ->
  chunkOf d (maxY d) = chunkCount d - 1.
Proof.
  intros HL Hwin. unfold chunkOf, chunkCount.
  rewrite !Z.quot_div_nonneg by lia.
  replace (maxY d - minY d + linesInBuffer d)
    with ((maxY d - minY d) + 1 * linesInBuffer d) by lia.
  rewrite Z.div_add by lia. lia.
Qed.

Lemma chunkMin_count (d : Data) (k : Z) :
  0 < linesInBuffer d -> 0 <= k -> chunkMin d k <= maxY d ->
  k < chunkCount d.
Proof.
  intros HL Hk Hmax.
  rewrite <- (chunkOf_unique d (chunkMin d k) k HL Hk) by lia.
  apply chunkOf_lt_count; [done|]. unfold chunkMin in *. nia.
Qed.

Lemma count_chunkMin (d : Data) (k : Z) :
  0 < linesInBuffer d -> minY d <= maxY d -> k < chunkCount d ->
  chunkMin d k <= maxY d.
Proof.
  intros HL Hwin Hk.
  pose proof (chunkOf_maxY d HL Hwin) as Hlast.
  destruct (chunkOf_spec d (maxY d) HL Hwin) as [_ [Hlo _]].
  pose proof (chunkMin_mono d k (chunkOf d (maxY d)) HL). lia.
Qed.

Lemma nthChunk_nthChunk (d : Data) (i : Z) : nthChunk d (nthChunk d i) = i.
Proof. unfold nthChunk. case_decide; lia. Qed.

Lemma nthChunk_range (d : Data) (i : Z) :
  0 <= i < chunkCount d -> 0 <= nthChunk d i < chunkCount d.
Proof. unfold nthChunk. case_decide; lia. Qed.

Lemma nthChunk_inj (d : Data) (i j : Z) :
  nthChunk d i = nthChunk d j -> i = j.
Proof. unfold nthChunk. case_decide; lia. Qed.


(** ** One more chunk on the stream *)

Lemma placed_step (d : Data) (base : list byte)
    (chunks : list (Z * list byte)) (offsets : list Z)
    (sd : OutputStreamMutex.t) (lbs : list LineBuffer.t) (m current y : Z)
    (pixelData : list byte) (size : Z) :
  0 < linesInBuffer d ->
  placed d base chunks offsets sd ->
  Z.of_nat (length chunks) < chunkCount d ->
  chunkOf d current = nthChunk d (Z.of_nat (length chunks)) ->
  0 <= size <= Z.of_nat (length pixelData) ->
  exists offsets' sd',
    writePixelData y pixelData size (upd d lbs m current offsets sd)
    = Some (upd d lbs m current offsets' sd')
    /\ placed d base (chunks ++ [(y, take (Z.to_nat size) pixelData)])
         offsets' sd'.
Proof.
  intros HL (Hbytes & Hend & Hcache & Hlen & Hoff) Hmore Hchunk Hsize.
  set (st := upd d lbs m current offsets sd).
  set (os0 := OutputStreamMutex.os sd) in *.
  pose proof (nthChunk_range d (Z.of_nat (length chunks))) as Hr.
  unfold writePixelData.
  change (linesInBuffer st) with (linesInBuffer d).
  rewrite decide_False by lia.
  change (Z.quot (currentScanLine st - minY st) (linesInBuffer d))
    with (chunkOf d current).
  change (lineOffsets st) with offsets.
  change (_streamData st) with sd.
  change (multiPart st) with (multiPart d).
  change (partNumber st) with (partNumber d).
  rewrite Hchunk. unfold assign. fold os0.
  assert (Hpos :
    (if decide (OutputStreamMutex.currentPosition sd = 0)
     then tellp os0 else OutputStreamMutex.currentPosition sd) = tellp os0).
  { case_decide; [done|]. by destruct Hcache. }
  rewrite Hpos.
  destruct (decide (0 <= nthChunk d (Z.of_nat (length chunks)) < Z.of_nat (length offsets)));
    [|lia].
  cbn [mbind option_bind].
  destruct (decide (0 <= size <= Z.of_nat (length pixelData))); [|lia].
  rewrite writePixelData_stream by (unfold tellp in Hend; lia).
  rewrite os_write_end by done.
  rewrite <- (chunkBytes_take d y pixelData size Hsize).
  set (chunk := (y, take (Z.to_nat size) pixelData)).
  exists (<[Z.to_nat (nthChunk d (Z.of_nat (length chunks))) := tellp os0]> offsets),
    (OutputStreamMutex.mk
       (OStream.mk (OStream.fileName os0)
          (OStream.bytes os0 ++ chunkBytes d chunk)
          (Z.of_nat (length (OStream.bytes os0 ++ chunkBytes d chunk))))
       (if multiPart d
        then tellp os0 + Xdr_size_int + Xdr_size_int + size + Xdr_size_int
        else tellp os0 + Xdr_size_int + Xdr_size_int + size)).
  split; [reflexivity|].
  assert (Hrec : Z.of_nat (length (chunkBytes d chunk))
                 = (if multiPart d then 4 else 0) + 4 + 4 + size).
  { subst chunk. rewrite chunkBytes_take by done.
    by apply length_chunkRecord. }
  unfold placed, tellp.
  cbn [OutputStreamMutex.os OutputStreamMutex.currentPosition
       OStream.bytes OStream.pos].
  rewrite fmap_app, join_app.
  change (mjoin (chunkBytes d <$> [chunk])) with (chunkBytes d chunk ++ []).
  rewrite app_nil_r.
  split; [by rewrite Hbytes, <- app_assoc|].
  split; [done|].
  split.
  { right. unfold tellp in Hend. rewrite Hend, !length_app.
    unfold Xdr_size_int. destruct (multiPart d); lia. }
  split; [by rewrite length_insert|].
  intros i Hi.
  destruct (decide (i = length chunks)) as [->|Hne].
  - rewrite list_lookup_insert_eq by lia.
    rewrite (length_app chunks).
    rewrite decide_True by (simpl; lia).
    rewrite take_app_length' by (by rewrite length_fmap).
    unfold tellp in Hend. by rewrite Hend, Hbytes.
  - rewrite list_lookup_insert_ne.
    2: { intros Heq. apply Z2Nat.inj in Heq.
         - apply nthChunk_inj in Heq. lia.
         - lia.
         - pose proof (nthChunk_range d (Z.of_nat i)). lia. }
    rewrite Hoff by done. rewrite (length_app chunks).
    destruct (decide (i < length chunks)%nat).
    + rewrite decide_True by (simpl; lia).
      rewrite take_app_le by (rewrite length_fmap; lia). done.
    + by rewrite decide_False by (simpl; lia).
Qed.

Section Layout.

Variable ops : MiscOps.

(** ** The chunk after a call *)

Lemma call_end_chunk (d : Data) (c0 n step lo0 hi0 m' : Z)
    (lbs : list LineBuffer.t) (offsets : list Z)
    (sd : OutputStreamMutex.t) :
  validCall d c0 n step lo0 hi0 -> minY d <= maxY d ->
  m' = missingAt d (c0 + step * n) ->
  let last := chunkOf d (c0 + step * (n - 1)) in
  nextChunk (upd d lbs m' (c0 + step * n) offsets sd)
  = if endsEarly d lo0 hi0 last then last else last + step.
Proof.
  intros Hcall Hwin -> last.
  set (final := upd d lbs (missingAt d (c0 + step * n)) (c0 + step * n)
                  offsets sd).
  unfold nextChunk.
  change (missingScanLines final) with (missingAt d (c0 + step * n)).
  change (chunkOf final (currentScanLine final))
    with (chunkOf d (c0 + step * n)).
  change (nthChunk final (chunkCount final)) with (nthChunk d (chunkCount d)).
  destruct (endsEarly d lo0 hi0 last) eqn:Hearly.
  { destruct (endsEarly_cursor d c0 n step lo0 hi0 Hcall Hearly) as [Hc Hm].
    by rewrite decide_False by lia. }
  destruct (call_chunks d c0 n step lo0 hi0 Hcall)
    as (Hf & Hl & Hcf & Hcl & Hfl & Hc0 & He).
  fold last in Hl, Hcl, Hfl.
  pose proof (vc_lines _ _ _ _ _ _ Hcall) as HL.
  pose proof (chunkOf_maxY d HL Hwin) as Hmax.
  destruct Hcall as [_ Hint Hn Hlo Hhi Hdir].
  unfold endsEarly in Hearly. unfold missingAt, nthChunk.
  destruct Hdir as [(Hinc & -> & -> & ->)|(Hdec & -> & -> & ->)].
  - rewrite decide_True in Hearly by done.
    apply bool_decide_eq_false_1 in Hearly.
    rewrite !(decide_True (P := lineOrder d = INCREASING_Y)) by done.
    unfold chunkMax in Hearly.
    destruct (decide (maxY d + 1 - (c0 + 1 * n) <= 0)).
    + assert (c0 + 1 * (n - 1) = maxY d) as Heq by lia.
      subst last. rewrite Heq. lia.
    + apply chunkOf_unique; [done|lia|].
      rewrite chunkMin_succ. lia.
  - rewrite decide_False in Hearly by done.
    apply bool_decide_eq_false_1 in Hearly.
    rewrite !(decide_False (P := lineOrder d = INCREASING_Y)) by done.
    assert (Hlo0 : c0 - n + 1 = chunkMin d last) by lia.
    destruct (decide (c0 + -1 * n - minY d + 1 <= 0)).
    + unfold chunkMin in Hlo0. nia.
    + assert (1 <= last) by (unfold chunkMin in Hlo0; nia).
      apply chunkOf_unique; [done|lia|].
      pose proof (chunkMin_succ d (last + -1)) as Hs.
      replace (last + -1 + 1) with last in Hs by lia. lia.
Qed.

(** ** A call keeps the layout *)

Lemma writePixels_written (n : Z) (d : Data) (base : list byte)
    (chunks : list (Z * list byte)) :
  wf d -> slices d <> [] -> 1 <= n <= missingScanLines d ->
  written d base chunks -> headed d chunks ->
  exists d' more,
    writePixels ops n d = Returned d' /\ wf d'
    /\ written d' base (chunks ++ more) /\ headed d' (chunks ++ more)
    /\ d' = upd d (lineBuffers d') (missingScanLines d') (currentScanLine d')
              (lineOffsets d') (_streamData d').
Proof.
  intros Hwf Hslices Hn [Hplaced Hcount] Hheaded.
  pose proof (wf_lines d Hwf) as HL.
  pose proof (wf_window d Hwf) as Hwin.
  pose proof (wf_validCall d n Hwf Hn) as Hcall. cbv zeta in Hcall.
  assert (Hnext : nextChunk d = chunkOf d (currentScanLine d)).
  { unfold nextChunk. by rewrite decide_False by lia. }
  rewrite Hnext in Hcount.
  set (P := fun (w : Z) (offsets : list Z) (sd : OutputStreamMutex.t) =>
              exists more,
                placed d base (chunks ++ more) offsets sd
                /\ Z.of_nat (length (chunks ++ more)) = nthChunk d w
                /\ headed d (chunks ++ more)).
  assert (HP0 : P (chunkOf d (currentScanLine d)) (lineOffsets d)
                  (_streamData d)).
  { exists []. by rewrite app_nil_r. }
  assert (Hmain : forall step lo0 hi0 numTasks,
    validCall d (currentScanLine d) n step lo0 hi0 ->
    step = (if decide (lineOrder d = INCREASING_Y) then 1 else -1) ->
    let first := chunkOf d (currentScanLine d) in
    let last := chunkOf d (currentScanLine d + step * (n - 1)) in
    numTasks
    = Z.max (Z.min (Z.of_nat (length (lineBuffers d)))
               ((last - first) * step + 1)) 1 ->
    exists lbs' offsets' sd',
      let final :=
        upd d lbs' (missingScanLines d - n) (currentScanLine d + step * n)
          offsets' sd' in
      match addTasks ops (Z.to_nat numTasks) first step lo0 hi0 d with
      | None => Undefined
      | Some d1 =>
          match drain ops (S (Z.to_nat (Z.abs (last + step - first))))
                  (last + step) step lo0 hi0 first (first + step * numTasks)
                  d1 with
          | Break d2 => rethrow d2
          | Return_ d2 => Returned d2
          | Throw e d2 => Threw e d2
          | Stuck => Undefined
          end
      end = Returned final
      /\ wf final
      /\ exists more,
           written final base (chunks ++ more)
           /\ headed final (chunks ++ more)).
  { intros step lo0 hi0 numTasks Hvalid Hstep first last Htasks.
    destruct (call_keeps ops P d d (currentScanLine d) n step lo0 hi0 numTasks
                Hvalid Hwf eq_refl (upd_self d) Htasks)
      as (lbs' & offsets' & sd' & Hrun & Hwf' & more & Hpl & Hlen & Hhd);
      [|exact HP0|].
    { (* a chunk record carries the layout on *)
      intros w current lb lbs m offsets sd offsets' sd' Hw Hchunk Hmin Hdata
        (more & Hpl & Hlen & Hhd) Hwrite.
      destruct (inRange_chunk d (currentScanLine d) n step lo0 hi0 Hvalid w Hw)
        as (Hw0 & Hwmin & _).
      pose proof (chunkMin_count d w HL) as Hwc.
      pose proof (nthChunk_range d w) as Hr.
      destruct (placed_step d base (chunks ++ more) offsets sd lbs m current
                  (LineBuffer.minY lb) (LineBuffer.data lb)
                  (LineBuffer.dataSize lb) HL Hpl)
        as (o1 & s1 & Hw1 & Hpl1); [lia| |done|].
      { by rewrite Hlen, nthChunk_nthChunk. }
      unfold writePixelData_lineBuffer in Hwrite.
      rewrite Hw1 in Hwrite.
      assert (o1 = offsets') as ->
        by (apply (f_equal (fun r => lineOffsets <$> r)) in Hwrite;
            by simplify_eq/=).
      assert (s1 = sd') as ->
        by (apply (f_equal (fun r => _streamData <$> r)) in Hwrite;
            by simplify_eq/=).
      exists (more ++ [(LineBuffer.minY lb,
                        take (Z.to_nat (LineBuffer.dataSize lb))
                          (LineBuffer.data lb))]).
      rewrite app_assoc. split; [done|]. split.
      - rewrite length_app, Nat2Z.inj_add, Hlen. simpl.
        unfold nthChunk. rewrite Hstep. case_decide; lia.
      - intros i chunk Hi.
        apply lookup_app_Some in Hi as [Hi|[Hge Hi]]; [by apply Hhd|].
        apply list_lookup_singleton_Some in Hi as [Hi0 <-].
        simpl. rewrite Hmin. f_equal.
        assert (Z.of_nat i = Z.of_nat (length (chunks ++ more))) as ->
          by lia.
        by rewrite Hlen, nthChunk_nthChunk. }
    exists lbs', offsets', sd'. cbv zeta in Hrun, Hwf' |- *.
    split; [done|]. split; [done|].
    exists more. split; [|done]. split; [done|].
    rewrite Hlen. f_equal. symmetry.
    apply (call_end_chunk d (currentScanLine d) n step lo0 hi0); [done|done|].
    rewrite <- (wf_missingAt d Hwf).
    by apply (missingAt_step d (currentScanLine d) n step lo0 hi0). }
  unfold writePixels, writePixels_try.
  rewrite decide_False by (by destruct (slices d)).
  rewrite decide_False by lia.
  destruct (decide (lineOrder d = INCREASING_Y)) as [Hinc|Hdec].
  - destruct (Hmain 1 (currentScanLine d) (currentScanLine d + n - 1)
                (Z.max (Z.min (Z.of_nat (length (lineBuffers d)))
                          (Z.quot (currentScanLine d + (n - 1) - minY d)
                                  (linesInBuffer d)
                           - Z.quot (currentScanLine d - minY d)
                                    (linesInBuffer d) + 1)) 1) Hcall)
      as (lbs' & offsets' & sd' & Hrun & Hwf' & more & Hw' & Hh').
    { done. }
    { unfold chunkOf.
      replace (currentScanLine d + 1 * (n - 1) - minY d)
        with (currentScanLine d + (n - 1) - minY d) by lia.
      f_equal. f_equal. lia. }
    eexists _, more. split; [|done].
    unfold chunkOf in Hrun.
    replace (currentScanLine d + 1 * (n - 1) - minY d)
      with (currentScanLine d + (n - 1) - minY d) in Hrun by lia.
    by rewrite Hrun.
  - destruct (Hmain (-1) (currentScanLine d - n + 1) (currentScanLine d)
                (Z.max (Z.min (Z.of_nat (length (lineBuffers d)))
                          (Z.quot (currentScanLine d - minY d)
                                  (linesInBuffer d)
                           - Z.quot (currentScanLine d - (n - 1) - minY d)
                                    (linesInBuffer d) + 1)) 1) Hcall)
      as (lbs' & offsets' & sd' & Hrun & Hwf' & more & Hw' & Hh').
    { done. }
    { unfold chunkOf.
      replace (currentScanLine d + -1 * (n - 1) - minY d)
        with (currentScanLine d - (n - 1) - minY d) by lia.
      f_equal. f_equal. lia. }
    eexists _, more. split; [|done].
    unfold chunkOf in Hrun.
    replace (currentScanLine d + -1 * (n - 1) - minY d)
      with (currentScanLine d - (n - 1) - minY d) in Hrun by lia.
    by rewrite Hrun.
Qed.

(** Binding a frame buffer and a call for no scan line leave the stream
    and the offset table alone. *)
Lemma written_same (d d' : Data) (base : list byte)
    (chunks : list (Z * list byte)) :
  lineOrder d' = lineOrder d -> minY d' = minY d -> maxY d' = maxY d ->
  linesInBuffer d' = linesInBuffer d ->
  multiPart d' = multiPart d -> partNumber d' = partNumber d ->
  missingScanLines d' = missingScanLines d ->
  currentScanLine d' = currentScanLine d ->
  lineOffsets d' = lineOffsets d -> _streamData d' = _streamData d ->
  (written d base chunks -> written d' base chunks)
  /\ (headed d chunks -> headed d' chunks).
Proof.
  intros Ho Hmin Hmax HL Hmp Hpn Hm Hc Hoff Hsd.
  assert (Hcount : chunkCount d' = chunkCount d)
    by (unfold chunkCount; by rewrite Hmin, Hmax, HL).
  assert (Hnth : forall i, nthChunk d' i = nthChunk d i)
    by (intros i; unfold nthChunk; by rewrite Ho, Hcount).
  assert (Hbytes : forall chunk, chunkBytes d' chunk = chunkBytes d chunk)
    by (intros chunk; unfold chunkBytes, chunkRecord; by rewrite Hmp, Hpn).
  assert (Hfmap : chunkBytes d' <$> chunks = chunkBytes d <$> chunks)
    by (apply list_fmap_ext; intros; apply Hbytes).
  split.
  - intros [(H1 & H2 & H3 & H4 & H5) Hn]. split.
    + unfold placed. rewrite Hoff, Hsd, Hcount, Hfmap.
      repeat (split; [done|]). intros i Hi. by rewrite Hnth, H5.
    + rewrite Hn. unfold nextChunk, chunkOf.
      by rewrite Hm, Hc, Hmin, HL, !Hnth, Hcount.
  - intros Hh i chunk Hi. rewrite (Hh i chunk Hi).
    unfold chunkMin. by rewrite Hnth, Hmin, HL.
Qed.

(** X1.  The layout of the file.  On a file in order whose stream holds
    [base] and the records of the chunks [chunks0], stands at its end with
    a cached position that is 0 or the put position, and whose offset
    table has the positions of these records, every state that
    bindings of frame buffers and calls of [writePixels] for no more scan
    lines than are missing lead to is in order again, and its stream holds
    [base], the records of [chunks0] and behind them the records of the
    chunks that have been completed since, in the order of the file: the
    stream only grows at its end.  Every record has the first scan line of
    its chunk in its head, and the offset table has its position in the
    entry of its chunk and 0 in the entries of the chunks that are not
    complete.  The place of the offset table in the file stays what it
    was. *)
Theorem writePixels_file_layout (d0 d : Data) (base : list byte)
    (chunks0 : list (Z * list byte)) :
  wf d0 -> written d0 base chunks0 -> headed d0 chunks0 ->
  reaches ops d0 d ->
  wf d
  /\ lineOffsetsPosition d = lineOffsetsPosition d0
  /\ exists more,
       written d base (chunks0 ++ more) /\ headed d (chunks0 ++ more).
Proof.
  intros Hwf0 Hw0 Hh0 Hreach.
  induction Hreach as [|frameBuffer_ d d' _ IH Hset|n d d' _ IH Hn Hrun].
  - split; [done|]. split; [done|]. exists []. by rewrite app_nil_r.
  - destruct IH as (Hwf & Hpos & more & Hw & Hh).
    destruct (wf_setFrameBuffer frameBuffer_ d d' Hwf Hset)
      as (Hwf' & _ & _).
    split; [done|].
    unfold setFrameBuffer in Hset.
    destruct (checkFrameBuffer _ _ _); [done|]. simplify_eq.
    split; [done|]. exists more.
    by destruct (written_same d
                   (set_slices (sliceFor frameBuffer_
                                <$> Header.channels (header d))
                      (set_frameBuffer frameBuffer_ d))
                   base (chunks0 ++ more)) as [H1 H2]; [..|split; auto].
  - destruct IH as (Hwf & Hpos & more & Hw & Hh).
    destruct (decide (slices d = [])) as [Hnil|Hslices].
    { unfold writePixels, writePixels_try in Hrun.
      rewrite decide_True in Hrun by (by rewrite Hnil). done. }
    destruct (decide (missingScanLines d <= 0)) as [Hnone|Hsome].
    { by destruct (writePixels_full ops n d d' Hslices Hnone). }
    destruct (decide (n = 0)) as [->|Hn0].
    + destruct (writePixels_zero ops d Hwf Hslices) as (lbs' & Hrun' & Hwf');
        [lia|]. cbv zeta in Hrun', Hwf'. rewrite Hrun' in Hrun.
      simplify_eq. split; [done|]. split; [done|]. exists more.
      by destruct (written_same d
                     (upd d lbs' (missingScanLines d) (currentScanLine d)
                        (lineOffsets d) (_streamData d))
                     base (chunks0 ++ more)) as [H1 H2]; [..|split; auto].
    + destruct (writePixels_written n d base (chunks0 ++ more) Hwf Hslices)
        as (d'' & more' & Hrun' & Hwf' & Hw' & Hh' & Hframe);
        [lia|done|done|].
      rewrite Hrun' in Hrun. simplify_eq. split; [done|].
      split; [by rewrite Hframe|].
      exists (more ++ more'). by rewrite app_assoc.
Qed.

End Layout.

(** * More of the write path *)

Section WritePathMore.

Variable ops : MiscOps.

(** ** A file without slices *)

(** X2.  Nothing can be written without slices.  A file that has just been
    made has no slices: [writePixels], for any number of scan lines, throws
    the argument error for the missing frame buffer and changes nothing.
    The same holds after a frame buffer has been bound to a file whose
    header has no channel at all: the binding succeeds, and the call still
    says that no frame buffer is specified. *)
Theorem writePixels_without_slices (n numThreads : Z) (multiPart_ : bool)
    (streamData : OutputStreamMutex.t) (hdr : Header.t)
    (frameBuffer_ : FrameBuffer) :
  let d := initialize ops numThreads multiPart_ streamData hdr in
  let e :=
    ArgExc (msg_writeFailed
              (OStream.fileName (OutputStreamMutex.os streamData))
              msg_noFrameBuffer) in
  writePixels ops n d = Threw e d
  /\ (Header.channels hdr = [] ->
      exists d',
        setFrameBuffer frameBuffer_ d = Returned d'
        /\ frameBuffer d' = frameBuffer_
        /\ writePixels ops n d' = Threw e d').
Proof.
  intros d e. split; [done|].
  intros Hnone. unfold setFrameBuffer.
  change (Header.channels (header d)) with (Header.channels hdr).
  rewrite Hnone. simpl. eexists. split; [reflexivity|]. done.
Qed.

(** ** Binding again *)

(** X3.  A binding replaces the one before it.  After a frame buffer has
    been bound, binding another one gives the state that binding the other
    one alone gives: nothing of the earlier binding is kept.  When the
    other one is rejected, the earlier binding stays as it is. *)
Theorem setFrameBuffer_replaces (frameBuffer1 frameBuffer2 : FrameBuffer)
    (d d1 : Data) :
  setFrameBuffer frameBuffer1 d = Returned d1 ->
  match setFrameBuffer frameBuffer2 d with
  | Returned d2 => setFrameBuffer frameBuffer2 d1 = Returned d2
  | Threw e _ =>
      setFrameBuffer frameBuffer2 d1 = Threw e d1
      /\ frameBuffer d1 = frameBuffer1
      /\ slices d1 = sliceFor frameBuffer1 <$> Header.channels (header d)
  | Undefined => False
  end.
Proof.
  unfold setFrameBuffer.
  destruct (checkFrameBuffer (fileName d) _ frameBuffer1); [done|].
  intros [= <-].
  change (fileName (set_slices _ (set_frameBuffer frameBuffer1 d)))
    with (fileName d).
  change (Header.channels (header (set_slices _ (set_frameBuffer _ d))))
    with (Header.channels (header d)).
  by destruct (checkFrameBuffer (fileName d) _ frameBuffer2).
Qed.

(** ** The cursor and the counter *)

(** X4.  [currentScanLine] and [missingScanLines] move together.  When
    the helpers behave (a data window with scan lines, tables of its size,
    a compressor that does not throw), in every state that a new file
    comes to by bindings of frame buffers and by calls of [writePixels]
    that return and ask for no more scan lines than are missing, the
    number of missing scan lines lies between 0 and the height of the
    data window, and the current scan line is the first scan line of the
    file, in its line order, after the scan lines that have been taken:
    it goes up from [minY] in a file of increasing order and down from
    [maxY] otherwise.  The offset table keeps one entry for every chunk
    and the file keeps at least one line buffer. *)
Theorem cursor_follows_counter (numThreads : Z) (multiPart_ : bool)
    (streamData : OutputStreamMutex.t) (hdr : Header.t) (d : Data) :
  helpersOk ops hdr ->
  reaches ops (initialize ops numThreads multiPart_ streamData hdr) d ->
  let height := maxY d - minY d + 1 in
  let taken := height - missingScanLines d in
  0 <= missingScanLines d <= height
  /\ currentScanLine d
     = (if decide (lineOrder d = INCREASING_Y)
        then minY d + taken else maxY d - taken)
  /\ Z.of_nat (length (lineOffsets d)) = chunkCount d
  /\ (0 < length (lineBuffers d))%nat.
Proof.
  intros Hok Hreach height taken.
  assert (Hwf : wf d).
  { apply (reaches_wf ops
             (initialize ops numThreads multiPart_ streamData hdr) d);
      [|exact Hreach].
    destruct Hok as (? & ? & ? & ? & ? & ?). by apply wf_initialize. }
  split; [apply (wf_missing d Hwf)|].
  split. { rewrite (wf_cursor d Hwf). subst taken height. case_decide; lia. }
  split; [apply (wf_lineOffsets d Hwf)|].
  apply (wf_buffers d Hwf).
Qed.

(** ** Tasks that share a chunk *)

Lemma gatherScanLine_control (ofd : Data) (y : Z)
    (lineBuffer lineBuffer' : LineBuffer.t) :
  gatherScanLine ops ofd y lineBuffer = Some lineBuffer' ->
  sameControl lineBuffer lineBuffer'.
Proof.
  unfold gatherScanLine.
  destruct (at_ _ _); [|done]. simpl. intros [= <-].
  by case_decide.
Qed.

Lemma gatherLoop_control (ofd : Data) (k : nat) (y dy : Z)
    (lineBuffer lineBuffer' : LineBuffer.t) (y' : Z) :
  gatherLoop ops k ofd y dy lineBuffer = Some (lineBuffer', y') ->
  sameControl lineBuffer lineBuffer' /\ y' = y + Z.of_nat k * dy.
Proof.
  revert y lineBuffer. induction k as [|k IH]; intros y lineBuffer.
  { intros [= <- <-]. split; [apply sameControl_refl|lia]. }
  simpl. destruct (gatherScanLine ops ofd y lineBuffer) as [lb1|] eqn:H1;
    [|done].
  simpl. intros Hrest. apply IH in Hrest as [Hc ->].
  apply gatherScanLine_control in H1.
  split; [by apply (sameControl_trans _ lb1)|lia].
Qed.

Lemma gatherScanLine_set_scanLines (ofd : Data) (y lo hi : Z)
    (lineBuffer : LineBuffer.t) :
  gatherScanLine ops ofd y (LineBuffer.set_scanLines lo hi lineBuffer)
  = LineBuffer.set_scanLines lo hi <$> gatherScanLine ops ofd y lineBuffer.
Proof.
  unfold gatherScanLine.
  destruct (at_ _ _); [|done]. simpl. by case_decide.
Qed.

Lemma gatherLoop_set_scanLines (ofd : Data) (k : nat) (y dy lo hi : Z)
    (lineBuffer : LineBuffer.t) :
  gatherLoop ops k ofd y dy (LineBuffer.set_scanLines lo hi lineBuffer)
  = prod_map (LineBuffer.set_scanLines lo hi) id
    <$> gatherLoop ops k ofd y dy lineBuffer.
Proof.
  revert y lineBuffer. induction k as [|k IH]; intros y lineBuffer; [done|].
  simpl. rewrite gatherScanLine_set_scanLines.
  destruct (gatherScanLine ops ofd y lineBuffer) as [lb1|]; [|done].
  simpl. apply IH.
Qed.

Lemma gatherLoop_add (ofd : Data) (a b : nat) (y dy : Z)
    (lineBuffer : LineBuffer.t) :
  gatherLoop ops (a + b) ofd y dy lineBuffer
  = gatherLoop ops a ofd y dy lineBuffer
    ≫= fun r => gatherLoop ops b ofd r.2 dy r.1.
Proof.
  revert y lineBuffer. induction a as [|a IH]; intros y lineBuffer; [done|].
  simpl. destruct (gatherScanLine ops ofd y lineBuffer) as [lb1|]; [|done].
  simpl. apply IH.
Qed.

(** The lines of a task, gathered from a slot whose recorded range is
    another one. *)
Lemma gather_set_scanLines (ofd : Data) (lo hi : Z)
    (lineBuffer : LineBuffer.t) :
  lo <= hi + 1 ->
  gather ops ofd (LineBuffer.set_scanLines lo hi lineBuffer)
  = prod_map (LineBuffer.set_scanLines lo hi) id
    <$> gatherLoop ops (Z.to_nat (hi + 1 - lo)) ofd
          (if decide (lineOrder ofd = INCREASING_Y) then lo else hi)
          (if decide (lineOrder ofd = INCREASING_Y) then 1 else -1)
          lineBuffer.
Proof.
  intros Hspan. unfold gather.
  destruct (decide (lineOrder ofd = INCREASING_Y)); simpl.
  - rewrite decide_True by lia.
    replace ((hi + 1 - lo) * 1) with (hi + 1 - lo) by lia.
    apply gatherLoop_set_scanLines.
  - rewrite decide_True by lia.
    replace ((lo - 1 - hi) * -1) with (hi + 1 - lo) by lia.
    apply gatherLoop_set_scanLines.
Qed.

Lemma execute_no_gather (ofd : Data) (lineBuffer : LineBuffer.t) :
  gather ops ofd lineBuffer = None -> execute ops ofd lineBuffer = None.
Proof. intros H. unfold execute, execute_try. by rewrite H. Qed.

(** What a task does after it has gathered its lines does not look at
    the range that the slot records. *)
Lemma execute_gathered (ofd : Data) (lineBuffer1 lineBuffer2 : LineBuffer.t)
    (gathered : LineBuffer.t) (y lo hi : Z) :
  gather ops ofd lineBuffer1 = Some (gathered, y) ->
  gather ops ofd lineBuffer2
  = Some (LineBuffer.set_scanLines lo hi gathered, y) ->
  execute ops ofd lineBuffer2
  = LineBuffer.set_scanLines lo hi <$> execute ops ofd lineBuffer1.
Proof.
  intros H1 H2. unfold execute, execute_try. rewrite H1, H2. simpl.
  destruct (decide (LineBuffer.minY gathered <= y
                    <= LineBuffer.maxY gathered)); [done|].
  destruct (LineBuffer.compressor gathered) as [compress|]; [|done].
  destruct (compress _ _) as [thrown|compPtr]; simpl.
  - unfold catch_in_task. simpl.
    by destruct (LineBuffer.hasException gathered).
  - destruct (decide (Z.of_nat (length compPtr)
                      < LineBuffer.endOfLineBufferData gathered)); [done|].
    by destruct (decide (format ofd = NATIVE)).
Qed.

(** X5.  The tasks of a chunk add up.  When the lines [lo .. hi] of one
    chunk are gathered by two tasks, one after the other on the same slot
    in the order of the file, the slot ends as it ends when one task
    gathers them all: the same bytes in the buffer, the same data for the
    writer, the same flags.  Only the range of scan lines that the slot
    records is that of the last task. *)
Theorem tasks_accumulate (ofd : Data) (number lo mid hi : Z)
    (lineBuffer : LineBuffer.t) :
  let task := fun a b slot =>
    execute ops ofd (LineBufferTask_new ofd number a b slot) in
  let first :=
    if decide (lineOrder ofd = INCREASING_Y)
    then task lo mid else task (mid + 1) hi in
  let second :=
    if decide (lineOrder ofd = INCREASING_Y)
    then task (mid + 1) hi else task lo mid in
  LineBuffer.partiallyFull lineBuffer = false ->
  chunkMin ofd number <= lo -> lo <= mid -> mid < hi ->
  hi <= chunkMax ofd number ->
  task lo hi lineBuffer
  = LineBuffer.set_scanLines lo hi <$> (first lineBuffer ≫= second).
Proof.
  intros task first second Hfree Hlo Hmid Hhi Hmax.
  set (base :=
    LineBuffer.set_partiallyFull true
      (LineBuffer.set_span (chunkMin ofd number) (chunkMax ofd number)
         (LineBuffer.set_endOfLineBufferData 0 lineBuffer))).
  assert (Hnew : forall a b,
    chunkMin ofd number <= a -> b <= chunkMax ofd number ->
    LineBufferTask_new ofd number a b lineBuffer
    = LineBuffer.set_scanLines a b base).
  { intros a b Ha Hb. unfold LineBufferTask_new. rewrite Hfree. simpl.
    fold (chunkMin ofd number). fold (chunkMax ofd number).
    by rewrite Z.max_r, Z.min_r by lia. }
  assert (Hagain : forall a b g,
    sameControl base g ->
    chunkMin ofd number <= a -> b <= chunkMax ofd number ->
    forall c e,
    LineBufferTask_new ofd number a b (LineBuffer.set_scanLines c e g)
    = LineBuffer.set_scanLines a b g).
  { intros a b g [Hmin Hmaxg _ _ _ Hp _ _] Ha Hb c e.
    unfold LineBufferTask_new. simpl. rewrite Hp. simpl.
    rewrite Hmin, Hmaxg. simpl.
    by rewrite Z.max_r, Z.min_r by lia. }
  (* the two parts in the order of the file *)
  set (inc := decide (lineOrder ofd = INCREASING_Y)).
  set (a1 := if inc then lo else mid + 1).
  set (b1 := if inc then mid else hi).
  set (a2 := if inc then mid + 1 else lo).
  set (b2 := if inc then hi else mid).
  assert (Hfirst : first = task a1 b1)
    by (subst first a1 b1 inc; by case_decide).
  assert (Hsecond : second = task a2 b2)
    by (subst second a2 b2 inc; by case_decide).
  assert (Hr1 : chunkMin ofd number <= a1 /\ a1 <= b1 + 1
                /\ b1 <= chunkMax ofd number)
    by (subst a1 b1; destruct inc; lia).
  assert (Hr2 : chunkMin ofd number <= a2 /\ a2 <= b2 + 1
                /\ b2 <= chunkMax ofd number)
    by (subst a2 b2; destruct inc; lia).
  rewrite Hfirst, Hsecond. subst task. cbv beta.
  rewrite !Hnew by lia.
  set (start := fun a b : Z => if inc then a else b).
  set (dy := if inc then 1 else -1).
  set (k1 := Z.to_nat (b1 + 1 - a1)).
  set (k2 := Z.to_nat (b2 + 1 - a2)).
  assert (Hk : Z.to_nat (hi + 1 - lo) = (k1 + k2)%nat)
    by (subst k1 k2 a1 b1 a2 b2; destruct inc; lia).
  assert (Hs1 : start lo hi = start a1 b1)
    by (subst start a1 b1; cbv beta; by destruct inc).
  pose proof (gather_set_scanLines ofd lo hi base) as Hall.
  pose proof (gather_set_scanLines ofd a1 b1 base) as Hg1.
  fold inc in Hall, Hg1. fold (start lo hi) in Hall.
  fold (start a1 b1) in Hg1. fold dy in Hall, Hg1.
  rewrite Hk, Hs1, gatherLoop_add in Hall. fold k1 in Hg1.
  specialize (Hall ltac:(lia)). specialize (Hg1 ltac:(lia)).
  destruct (gatherLoop ops k1 ofd (start a1 b1) dy base) as [[g1 y1]|] eqn:H1.
  2: { (* the first lines cannot be gathered *)
       simpl in Hall, Hg1.
       by rewrite (execute_no_gather _ _ Hg1), (execute_no_gather _ _ Hall). }
  simpl in Hall, Hg1.
  destruct (gatherLoop_control ofd k1 _ dy base g1 y1 H1) as [Hc1 Hy1].
  assert (Hin : LineBuffer.minY g1 <= y1 <= LineBuffer.maxY g1).
  { destruct Hc1 as [-> -> _ _ _ _ _ _]. simpl.
    subst y1 start dy k1 a1 b1. cbv beta. destruct inc; lia. }
  assert (Hrun1 :
    execute ops ofd (LineBuffer.set_scanLines a1 b1 base)
    = Some (LineBuffer.set_scanLines a1 b1 g1)).
  { unfold execute, execute_try. rewrite Hg1. simpl.
    by rewrite decide_True by done. }
  rewrite Hrun1. simpl.
  rewrite Hagain by (done || lia).
  pose proof (gather_set_scanLines ofd a2 b2 g1) as Hg2.
  fold inc in Hg2. fold (start a2 b2) in Hg2. fold dy k2 in Hg2.
  specialize (Hg2 ltac:(lia)).
  assert (Hs2 : y1 = start a2 b2).
  { subst y1 start dy k1 a1 b1 a2 b2. cbv beta. destruct inc; lia. }
  rewrite <- Hs2 in Hg2.
  destruct (gatherLoop ops k2 ofd y1 dy g1) as [[g2 y2]|] eqn:H2.
  2: { simpl in Hall, Hg2.
       by rewrite (execute_no_gather _ _ Hg2), (execute_no_gather _ _ Hall). }
  simpl in Hall, Hg2.
  by apply (execute_gathered ofd _ _ (LineBuffer.set_scanLines a2 b2 g2) y2).
Qed.

End WritePathMore.

(** * The quick copy *)

Section QuickCopy.

Variable ops : MiscOps.

Lemma copyCursor_chunk (d : Data) (j : Z) :
  0 < linesInBuffer d -> minY d <= maxY d ->
  currentScanLine d
  = (if decide (lineOrder d = INCREASING_Y) then minY d else maxY d) ->
  0 <= j -> j * linesInBuffer d < maxY d - minY d + 1 ->
  chunkOf d (copyCursor d j) = nthChunk d j
  /\ j < chunkCount d.
Proof.
  intros HL Hwin Hc Hj Hleft.
  pose proof (chunkOf_maxY d HL Hwin) as Hlast.
  destruct (chunkOf_spec d (maxY d) HL Hwin) as (_ & Hlo & Hhi).
  rewrite Hlast in Hlo, Hhi. unfold chunkMin in Hlo, Hhi.
  assert (Hjc : j < chunkCount d) by nia.
  split; [|done].
  unfold copyCursor, nthChunk. rewrite Hc.
  destruct (decide (lineOrder d = INCREASING_Y)).
  - apply chunkOf_unique; [done|done|]. unfold chunkMin. lia.
  - apply chunkOf_unique; [done|lia|]. unfold chunkMin. lia.
Qed.

(** The loop of [copyPixels], from the pass [length chunks] on. *)
Lemma copyLoop_written (inp : InputFile.t) (d : Data) (base : list byte)
    (fuel : nat) (chunks : list (Z * list byte)) (offsets : list Z)
    (sd : OutputStreamMutex.t) :
  let height := maxY d - minY d + 1 in
  let j := Z.of_nat (length chunks) in
  0 < linesInBuffer d -> minY d <= maxY d ->
  currentScanLine d
  = (if decide (lineOrder d = INCREASING_Y) then minY d else maxY d) ->
  placed d base chunks offsets sd ->
  copiedFrom ops inp d chunks ->
  j <= chunkCount d ->
  height - j * linesInBuffer d <= Z.of_nat fuel ->
  exists d' chunks',
    written d' base chunks'
    /\ copiedFrom ops inp d chunks'
    /\ d' = upd d (lineBuffers d)
              (height - Z.of_nat (length chunks') * linesInBuffer d)
              (copyCursor d (Z.of_nat (length chunks')))
              (lineOffsets d') (_streamData d')
    /\ ((copyLoop ops fuel inp
           (upd d (lineBuffers d) (height - j * linesInBuffer d)
              (copyCursor d j) offsets sd) = Returned d'
         /\ Z.of_nat (length chunks') = chunkCount d)
        \/ (exists e,
              copyLoop ops fuel inp
                (upd d (lineBuffers d) (height - j * linesInBuffer d)
                   (copyCursor d j) offsets sd) = Threw e d'
              /\ Z.of_nat (length chunks') < chunkCount d
              /\ InputFile.rawPixelData inp
                   (copyCursor d (Z.of_nat (length chunks'))) = inl e)).
Proof.
  intros height j HL Hwin Hc. subst j. revert chunks offsets sd.
  induction fuel as [|fuel IH]; intros chunks offsets sd Hpl Hcp Hj Hfuel.
  all: set (j := Z.of_nat (length chunks)) in *.
  all: set (st := upd d (lineBuffers d) (height - j * linesInBuffer d)
                    (copyCursor d j) offsets sd).
  all: assert (Hdone : height - j * linesInBuffer d <= 0 ->
         written st base chunks /\ j = chunkCount d).
  1,3: intros Hle;
       pose proof (chunkOf_maxY d HL Hwin) as Hlast;
       destruct (chunkOf_spec d (maxY d) HL Hwin) as (_ & Hlo & Hhi);
       rewrite Hlast in Hlo, Hhi; unfold chunkMin in Hlo, Hhi;
       assert (Hjc : j = chunkCount d) by (subst height; nia);
       split; [|done]; split; [exact Hpl|];
       unfold nextChunk;
       change (missingScanLines st) with (height - j * linesInBuffer d);
       rewrite decide_True by done;
       change (nthChunk st (chunkCount st)) with (nthChunk d (chunkCount d));
       change (nthChunk st) with (nthChunk d);
       rewrite nthChunk_nthChunk; by fold j.
  - (* no pass is left *)
    destruct Hdone as [Hw Hjc]; [lia|].
    exists st, chunks. split; [done|]. split; [done|]. split; [done|].
    left. split; [|done]. simpl. by rewrite decide_False by (simpl; lia).
  - cbn [copyLoop].
    change (missingScanLines st) with (height - j * linesInBuffer d).
    destruct (decide (height - j * linesInBuffer d > 0)) as [Hpos|Hle].
    2: { destruct Hdone as [Hw Hjc]; [lia|].
         exists st, chunks. split; [done|]. split; [done|]. split; [done|].
         left. by split. }
    destruct (copyCursor_chunk d j HL Hwin Hc) as [Hchunk Hjc];
      [lia|subst height; lia|].
    change (currentScanLine st) with (copyCursor d j).
    destruct (InputFile.rawPixelData inp (copyCursor d j))
      as [e|pixelData] eqn:Hread.
    { (* the source throws *)
      exists st, chunks. split.
      { split; [exact Hpl|]. unfold nextChunk.
        change (missingScanLines st) with (height - j * linesInBuffer d).
        rewrite decide_False by lia.
        change (chunkOf st (currentScanLine st))
          with (chunkOf d (copyCursor d j)).
        change (nthChunk st) with (nthChunk d).
        by rewrite Hchunk, nthChunk_nthChunk. }
      split; [done|]. split; [done|]. right. exists e. by fold j. }
    change (minY st) with (minY d).
    change (linesInBuffer st) with (linesInBuffer d).
    set (y := lineBufferMinY ops (copyCursor d j) (minY d) (linesInBuffer d)).
    destruct (placed_step d base chunks offsets sd (lineBuffers d)
                (height - j * linesInBuffer d) (copyCursor d j) y pixelData
                (Z.of_nat (length pixelData)) HL Hpl)
      as (offsets' & sd' & Hwrite & Hpl'); [done|by fold j|lia|].
    fold st in Hwrite. rewrite Hwrite.
    rewrite Nat2Z.id, firstn_all in Hpl'.
    rewrite set_currentScanLine_upd, currentScanLine_upd.
    rewrite set_missingScanLines_upd, missingScanLines_upd.
    change (lineOrder (upd d _ _ _ _ _)) with (lineOrder d).
    change (linesInBuffer (upd d _ _ _ _ _)) with (linesInBuffer d).
    set (chunks1 := chunks ++ [(y, pixelData)]) in *.
    assert (Hj1 : Z.of_nat (length chunks1) = j + 1)
      by (subst chunks1 j; rewrite length_app; simpl; lia).
    destruct (IH chunks1 offsets' sd' Hpl') as (d' & chunks' & Hres).
    + intros i chunk Hi. subst chunks1.
      apply lookup_app_Some in Hi as [Hi|[Hge Hi]]; [by apply Hcp|].
      apply list_lookup_singleton_Some in Hi as [Hi0 <-].
      assert (Z.of_nat i = j) as -> by (subst j; lia).
      by split.
    + lia.
    + rewrite Hj1. subst height. lia.
    + rewrite Hj1 in Hres.
      replace (copyCursor d (j + 1))
        with (copyCursor d j
              + (if decide (lineOrder d = INCREASING_Y)
                 then linesInBuffer d else - linesInBuffer d)) in Hres
        by (unfold copyCursor; lia).
      replace (height - (j + 1) * linesInBuffer d)
        with (height - j * linesInBuffer d - linesInBuffer d) in Hres by lia.
      by exists d', chunks'.
Qed.

(** [copyPixels] on a file that misses all its scan lines. *)
Lemma copyPixels_written (inp : InputFile.t) (d : Data) (base : list byte) :
  wf d -> written d base [] ->
  missingScanLines d = maxY d - minY d + 1 ->
  copyPixels_check inp d = None ->
  exists d' chunks,
    written d' base chunks
    /\ copiedFrom ops inp d chunks
    /\ d' = upd d (lineBuffers d)
              (missingScanLines d - Z.of_nat (length chunks) * linesInBuffer d)
              (copyCursor d (Z.of_nat (length chunks)))
              (lineOffsets d') (_streamData d')
    /\ ((copyPixels ops inp d = Returned d'
         /\ Z.of_nat (length chunks) = chunkCount d)
        \/ (exists e,
              copyPixels ops inp d = Threw e d'
              /\ Z.of_nat (length chunks) < chunkCount d
              /\ InputFile.rawPixelData inp
                   (copyCursor d (Z.of_nat (length chunks))) = inl e)).
Proof.
  intros Hwf [Hpl _] Hall Hcheck.
  pose proof (wf_lines d Hwf) as HL.
  pose proof (wf_window d Hwf) as Hwin.
  assert (Hc : currentScanLine d
               = (if decide (lineOrder d = INCREASING_Y)
                  then minY d else maxY d)).
  { rewrite (wf_cursor d Hwf), Hall. case_decide; lia. }
  unfold copyPixels. rewrite Hcheck.
  pose proof (copyLoop_written inp d base (Z.to_nat (missingScanLines d)) []
                (lineOffsets d) (_streamData d)) as Hloop.
  cbv zeta in Hloop. simpl length in Hloop.
  assert (Hst : upd d (lineBuffers d)
                  (maxY d - minY d + 1 - Z.of_nat 0 * linesInBuffer d)
                  (copyCursor d (Z.of_nat 0)) (lineOffsets d) (_streamData d)
                = d).
  { unfold copyCursor.
    replace (maxY d - minY d + 1 - Z.of_nat 0 * linesInBuffer d)
      with (missingScanLines d) by lia.
    replace (currentScanLine d + Z.of_nat 0 * _)
      with (currentScanLine d) by lia.
    symmetry. apply upd_self. }
  rewrite Hst in Hloop. rewrite <- Hall in Hloop.
  apply Hloop; try done.
  - pose proof (chunkCount_pos d HL Hwin). lia.
  - lia.
Qed.

(** X6.  The quick copy takes the blocks of the source as they are.  On
    a file in order that misses all its scan lines, whose stream stands at
    its end with a cached position that is 0 or the put position and
    whose offset table holds zeros, with a source that
    passes the checks and gives a block for every scan line it is asked
    for, [copyPixels] returns, and the stream holds behind what it held
    one record for every chunk of the file, in the order of the file: the
    block that the source gave for the scan line of that pass, untouched,
    with its length and the scan line of [lineBufferMinY] in front.  The
    offset table has the position of every record, and the stream stands
    at its end. *)
Theorem copyPixels_copies_blocks (inp : InputFile.t) (d : Data)
    (base : list byte) :
  wf d -> written d base [] ->
  missingScanLines d = maxY d - minY d + 1 ->
  copyPixels_check inp d = None ->
  readable inp ->
  exists d' chunks,
    copyPixels ops inp d = Returned d'
    /\ Z.of_nat (length chunks) = chunkCount d
    /\ copiedFrom ops inp d chunks
    /\ written d' base chunks.
Proof.
  intros Hwf Hw Hall Hcheck Hread.
  destruct (copyPixels_written inp d base Hwf Hw Hall Hcheck)
    as (d' & chunks & Hw' & Hcp & _ & [[Hrun Hlen]|(e & _ & _ & Hfail)]).
  - by exists d', chunks.
  - destruct (Hread (copyCursor d (Z.of_nat (length chunks)))) as [b Hb].
    congruence.
Qed.

(** X7.  A quick copy that fails half way is not undone.  On a file as
    for the quick copy that succeeds, when the source gives its blocks
    for the first [j] passes and throws in the next one,
    [copyPixels] throws what the source threw, with its message as it is,
    and the [j] chunks that came before stay in the file: their records
    are on the stream, their offsets are in the table, and the cursor and
    the counter have moved past them. *)
Theorem copyPixels_stops_at_failure (inp : InputFile.t) (d : Data)
    (base : list byte) (j : nat) (e : Exc) :
  wf d -> written d base [] ->
  missingScanLines d = maxY d - minY d + 1 ->
  copyPixels_check inp d = None ->
  Z.of_nat j < chunkCount d ->
  (forall i : nat, (i < j)%nat ->
   exists block,
     InputFile.rawPixelData inp (copyCursor d (Z.of_nat i)) = inr block) ->
  InputFile.rawPixelData inp (copyCursor d (Z.of_nat j)) = inl e ->
  exists d' chunks,
    copyPixels ops inp d = Threw e d'
    /\ length chunks = j
    /\ copiedFrom ops inp d chunks
    /\ written d' base chunks
    /\ missingScanLines d'
       = missingScanLines d - Z.of_nat j * linesInBuffer d
    /\ currentScanLine d' = copyCursor d (Z.of_nat j).
Proof.
  intros Hwf Hw Hall Hcheck Hj Hgood Hbad.
  pose proof (wf_lines d Hwf) as HL.
  pose proof (wf_window d Hwf) as Hwin.
  destruct (copyPixels_written inp d base Hwf Hw Hall Hcheck)
    as (d' & chunks & Hw' & Hcp & Hframe & Hres).
  assert (Hlen : length chunks = j).
  { destruct (Nat.lt_trichotomy (length chunks) j) as [Hlt|[Heq|Hgt]];
      [|done|].
    - destruct Hres as [[_ Hlen]|(e' & _ & _ & Hfail)]; [lia|].
      destruct (Hgood _ Hlt) as [b Hb]. congruence.
    - destruct (lookup_lt_is_Some_2 chunks j Hgt) as [chunk Hchunk].
      destruct (Hcp j chunk Hchunk) as [_ Hb]. congruence. }
  destruct Hres as [[_ Hfull]|(e' & Hrun & _ & Hfail)]; [lia|].
  rewrite Hlen in Hfail. assert (e' = e) as -> by congruence.
  exists d', chunks. split; [done|]. split; [done|]. split; [done|].
  pose proof (f_equal missingScanLines Hframe) as Hm.
  pose proof (f_equal currentScanLine Hframe) as Hcur.
  rewrite missingScanLines_upd in Hm. rewrite currentScanLine_upd in Hcur.
  rewrite Hlen in Hm, Hcur. done.
Qed.

End QuickCopy.

(** * Opening, patching and closing a file *)

(** ** Writing inside the stream *)

Lemma store_inside (off : Z) (bs block : list byte) :
  0 <= off -> off + Z.of_nat (length bs) <= Z.of_nat (length block) ->
  store off bs block
  = take (Z.to_nat off) block ++ bs
    ++ drop (Z.to_nat (off + Z.of_nat (length bs))) block.
Proof.
  intros Hoff Hin. unfold store.
  replace (Z.to_nat off - length block)%nat with 0%nat by lia.
  simpl. rewrite app_nil_r. do 3 f_equal. lia.
Qed.

Lemma os_write_nil (os : OStream.t) :
  0 <= OStream.pos os <= Z.of_nat (length (OStream.bytes os)) ->
  os_write [] os = os.
Proof.
  intros Hpos. unfold os_write.
  rewrite store_inside by (simpl; lia). simpl.
  rewrite Z.add_0_r, take_drop. by destruct os.
Qed.

Lemma writeChars_replicate (k : nat) (c : byte) (os : OStream.t) :
  0 <= OStream.pos os <= Z.of_nat (length (OStream.bytes os)) ->
  writeChars k c os = os_write (replicate k c) os.
Proof.
  revert os. induction k as [|k IH]; intros os Hpos.
  { simpl. by rewrite os_write_nil. }
  simpl. rewrite IH.
  - rewrite os_write_app by lia. done.
  - unfold os_write. simpl. rewrite length_store by lia. simpl. lia.
Qed.

Lemma length_tableBytes (offsets : list Z) :
  length (tableBytes offsets) = (8 * length offsets)%nat.
Proof.
  induction offsets as [|v rest IH]; [done|].
  change (tableBytes (v :: rest)) with (Xdr_uint64 v ++ tableBytes rest).
  rewrite length_app, IH. simpl. lia.
Qed.

Lemma tableBytes_zero (k : nat) :
  tableBytes (replicate k 0) = replicate (8 * k) x00.
Proof.
  induction k as [|k IH]; [done|].
  replace (8 * S k)%nat with (8 + 8 * k)%nat by lia.
  change (tableBytes (replicate (S k) 0))
    with (Xdr_uint64 0 ++ tableBytes (replicate k 0)).
  by rewrite IH, replicate_add.
Qed.

Lemma writeTable (offsets : list Z) (os : OStream.t) :
  0 <= OStream.pos os <= Z.of_nat (length (OStream.bytes os)) ->
  fold_left (fun os offset => Xdr_write_uint64 offset os) offsets os
  = os_write (tableBytes offsets) os.
Proof.
  revert os. induction offsets as [|v rest IH]; intros os Hpos.
  { simpl. by rewrite os_write_nil. }
  change (tableBytes (v :: rest)) with (Xdr_uint64 v ++ tableBytes rest).
  simpl fold_left. rewrite IH.
  - unfold Xdr_write_uint64. rewrite os_write_app by lia. done.
  - unfold Xdr_write_uint64, os_write. simpl.
    rewrite length_store by lia. simpl. lia.
Qed.

(** ** [breakScanLine] *)

(** X8.  [breakScanLine] reaches the chunks that are in the file, and only
    them.  On a file in order whose stream holds a non-empty [base] and
    the records of the chunks that have been completed, with their
    positions in the offset table and 0 in the other entries, a call for
    a scan line of a chunk that has not been completed throws the
    argument error that names the scan line and the file, and changes
    nothing.  A call
    for a scan line of a completed chunk puts [length_] copies of [c] on
    the stream, [offset] bytes behind the start of the record of that
    chunk, over what was there; the rest of the stream stays.  The
    stream is then left behind the last byte it has put, not at its end,
    and the cached position is dropped. *)
Theorem breakScanLine_written (y offset length_ : Z) (c : byte) (d : Data)
    (base : list byte) (chunks : list (Z * list byte)) :
  wf d -> written d base chunks -> base <> [] ->
  Z.of_nat (length (OStream.bytes (OutputStreamMutex.os (_streamData d))))
  < 2 ^ 64 ->
  minY d <= y <= maxY d ->
  let i := Z.to_nat (nthChunk d (chunkOf d y)) in
  let records := chunkBytes d <$> chunks in
  let position := Z.of_nat (length (base ++ mjoin (take i records))) in
  let os := OutputStreamMutex.os (_streamData d) in
  ((length chunks <= i)%nat ->
   breakScanLine y offset length_ c d
   = Threw (ArgExc (msg_cannotOverwrite y (fileName d))) d)
  /\ ((i < length chunks)%nat -> 0 <= offset -> 0 <= length_ ->
      position + offset + length_ <= Z.of_nat (length (OStream.bytes os)) ->
      breakScanLine y offset length_ c d
      = Returned
          (set_streamData
             (OutputStreamMutex.mk
                (OStream.mk (OStream.fileName os)
                   (take (Z.to_nat (position + offset)) (OStream.bytes os)
                    ++ replicate (Z.to_nat length_) c
                    ++ drop (Z.to_nat (position + offset + length_))
                         (OStream.bytes os))
                   (position + offset + length_))
                0) d)).
Proof.
  intros Hwf [(Hbytes & Hend & Hcache & Hlen & Hoff) _] Hbase Hsmall Hy
    i records position os.
  pose proof (wf_lines d Hwf) as HL.
  destruct (chunkOf_spec d y HL) as [Hk0 _]; [lia|].
  pose proof (chunkOf_lt_count d y HL Hy) as Hkc.
  fold (chunkCount d) in Hkc.
  pose proof (nthChunk_range d (chunkOf d y)) as Hr.
  assert (Hentry :
    at_ (lineOffsets d) (Z.quot (y - minY d) (linesInBuffer d))
    = Some (if decide (i < length chunks)%nat then position else 0)).
  { fold (chunkOf d y). unfold at_. rewrite decide_True by lia.
    pose proof (Hoff i) as Hi. subst position records. unfold i in *.
    rewrite Z2Nat.id, nthChunk_nthChunk in Hi by lia.
    apply Hi. lia. }
  assert (Hposition : 0 < position).
  { subst position. rewrite length_app. destruct base; [done|]. simpl. lia. }
  unfold breakScanLine.
  destruct (decide (linesInBuffer d = 0)); [lia|]. rewrite Hentry.
  split.
  - intros Hnot.
    destruct (decide (i < length chunks)%nat); [lia|].
    by rewrite decide_True.
  - intros Hin Hoffset Hlength Hfit.
    destruct (decide (i < length chunks)%nat); [|lia].
    destruct (decide (position = 0)); [lia|].
    unfold to_size_t. rewrite Z.mod_small by (fold os in Hsmall; lia).
    fold os. do 2 f_equal.
    rewrite writeChars_replicate by (simpl; lia).
    f_equal. unfold os_write, seekp. simpl.
    rewrite store_inside by (rewrite ?length_replicate; lia).
    rewrite length_replicate.
    f_equal; [|lia]. do 3 f_equal. lia.
Qed.

Section Lifecycle.

Variable ops : MiscOps.
Variable fops : FileOps.

(** ** [writeLineOffsets] and the destructor *)

Lemma writeLineOffsets_ok (os : OStream.t) (offsets : list Z) :
  0 <= tellp os <= Z.of_nat (length (OStream.bytes os)) ->
  tellp os <> 2 ^ 64 - 1 ->
  Z.of_nat (length offsets) < 2 ^ 32 ->
  writeLineOffsets fops os offsets
  = Some (inr (os_write (tableBytes offsets) os, tellp os)).
Proof.
  intros Hpos Hknown Hcount. unfold writeLineOffsets.
  rewrite decide_False by done. rewrite decide_True by done.
  unfold tellp in Hpos. by rewrite writeTable.
Qed.

(** X9.  Closing the file puts the offset table in its place.  When the
    place of the table is not known ([lineOffsetsPosition] is 0) the
    destructor leaves the stream as it is.  On a file whose stream holds a
    head, the place of the table behind it, and behind that the records of
    the completed chunks, the destructor writes the table of the file over
    that place and nothing else: the stream then holds the head, the
    entries of [lineOffsets], eight bytes each, and the records, and it
    stands where it stood. *)
Theorem destructor_rewrites_table (d : Data) (head table : list byte)
    (chunks : list (Z * list byte)) :
  let os := OutputStreamMutex.os (_streamData d) in
  (lineOffsetsPosition d <= 0 -> OutputFile_destructor fops d = Some os)
  /\ (written d (head ++ table) chunks ->
      head <> [] ->
      lineOffsetsPosition d = Z.of_nat (length head) ->
      Z.of_nat (length table) = 8 * chunkCount d ->
      chunkCount d < 2 ^ 32 ->
      Z.of_nat (length (OStream.bytes os)) < 2 ^ 64 - 1 ->
      OutputFile_destructor fops d
      = Some (OStream.mk (OStream.fileName os)
                (head ++ tableBytes (lineOffsets d)
                 ++ mjoin (chunkBytes d <$> chunks))
                (tellp os))).
Proof.
  intros os. split.
  { intros Hnone. unfold OutputFile_destructor. by rewrite decide_False by lia. }
  intros [(Hbytes & Hend & Hcache & Hlen & Hoff) _] Hhead Hpos Htable Hcount
    Hsmall.
  fold os in Hbytes, Hend.
  assert (Hh : (0 < length head)%nat) by (destruct head; [done|simpl; lia]).
  unfold OutputFile_destructor. fold os.
  rewrite decide_True by lia.
  assert (Hbl : length (OStream.bytes os)
                = (length head + length table
                   + length (mjoin (chunkBytes d <$> chunks)))%nat).
  { by rewrite Hbytes, !length_app. }
  rewrite writeLineOffsets_ok.
  - f_equal. unfold os_write, seekp, tellp. simpl. f_equal.
    rewrite store_inside
      by (rewrite ?length_tableBytes; lia).
    rewrite length_tableBytes, Hpos, Hbytes.
    rewrite Nat2Z.id, take_app3_length. f_equal. f_equal.
    by rewrite drop_app_length' by (rewrite length_app; lia).
  - unfold tellp, seekp. simpl. lia.
  - unfold tellp, seekp. simpl. lia.
  - lia.
Qed.

(** ** The constructors *)

Lemma wf_members (d d' : Data) :
  wf d ->
  d' = mkData (header d') (multiPart d') (version d') (previewPosition d')
         (frameBuffer d') (currentScanLine d) (missingScanLines d)
         (lineOrder d) (minX d') (maxX d') (minY d) (maxY d) (lineOffsets d)
         (bytesPerLine d') (offsetInLineBuffer d) (format d') (slices d')
         (lineOffsetsPosition d') (lineBuffers d) (linesInBuffer d)
         (lineBufferSize d) (partNumber d') (_streamData d')
         (_deleteStream d') ->
  wf d'.
Proof. intros Hwf ->. constructor; apply Hwf. Qed.

(** A file that misses all its scan lines and has not written a chunk
    has the layout of a file with no chunk. *)
Lemma written_new (d : Data) :
  wf d -> missingScanLines d = maxY d - minY d + 1 ->
  let os := OutputStreamMutex.os (_streamData d) in
  tellp os = Z.of_nat (length (OStream.bytes os)) ->
  OutputStreamMutex.currentPosition (_streamData d) = 0
  \/ OutputStreamMutex.currentPosition (_streamData d) = tellp os ->
  (forall (k : nat) off, lineOffsets d !! k = Some off -> off = 0) ->
  written d (OStream.bytes os) [].
Proof.
  intros Hwf Hall os Hend Hcache Hzero.
  pose proof (wf_lines d Hwf) as HL.
  pose proof (wf_window d Hwf) as Hwin.
  split.
  - unfold placed. fold os. simpl. rewrite app_nil_r.
    repeat (split; [done|]).
    split; [apply (wf_lineOffsets d Hwf)|].
    intros i Hi.
    pose proof (nthChunk_range d (Z.of_nat i)) as Hr.
    pose proof (wf_lineOffsets d Hwf) as Hlen. fold (chunkCount d) in Hlen.
    destruct (lookup_lt_is_Some_2 (lineOffsets d)
                (Z.to_nat (nthChunk d (Z.of_nat i)))) as [off Hoff]; [lia|].
    rewrite Hoff. f_equal. by apply (Hzero _ _ Hoff).
  - simpl. unfold nextChunk.
    pose proof (wf_missing d Hwf). rewrite decide_False by lia.
    assert (Hc : currentScanLine d
                 = (if decide (lineOrder d = INCREASING_Y)
                    then minY d else maxY d)).
    { rewrite (wf_cursor d Hwf), Hall. case_decide; lia. }
    destruct (copyCursor_chunk d 0 HL Hwin Hc) as [Hchunk _]; [lia..|].
    unfold copyCursor in Hchunk. rewrite Z.mul_0_l, Z.add_0_r in Hchunk.
    by rewrite Hchunk, nthChunk_nthChunk.
Qed.

(** X10.  A new file on a stream that stands at 0.  When the helpers
    behave, the header passes its check and the magic number and the
    header have been written, with the stream standing at the end of what
    it holds, the constructor
    gives a file in order that misses all its scan lines and has no
    slices.  Behind the header the stream holds eight zero bytes for every
    chunk, the place of the offset table, which [lineOffsetsPosition]
    records; no chunk is on the stream yet, and the cached position is the
    one the stream had when the constructor was entered. *)
Theorem OutputFile_stream_opens (os os1 os2 : OStream.t) (hdr : Header.t)
    (numThreads previewPosition_ : Z) :
  let d0 := initialize ops numThreads false (OutputStreamMutex.mk os 0) hdr in
  helpersOk ops hdr ->
  chunkCount d0 < 2 ^ 32 ->
  sanityCheck fops hdr = None ->
  writeMagicNumberAndVersionField fops os hdr = inr os1 ->
  writeTo fops hdr os1 = inr (os2, previewPosition_) ->
  tellp os2 = Z.of_nat (length (OStream.bytes os2)) ->
  0 < tellp os2 < 2 ^ 64 - 1 ->
  exists d,
    OutputFile_stream ops fops os hdr numThreads = Some (inr d)
    /\ wf d
    /\ slices d = []
    /\ missingScanLines d = maxY d - minY d + 1
    /\ previewPosition d = previewPosition_
    /\ lineOffsetsPosition d = tellp os2
    /\ OutputStreamMutex.currentPosition (_streamData d) = tellp os
    /\ chunkCount d = chunkCount d0
    /\ (tellp os = 0 ->
        written d
          (OStream.bytes os2
           ++ replicate (8 * Z.to_nat (chunkCount d0)) x00) []).
Proof.
  intros d0 Hok Hcount Hsane Hmagic Hheader Hend Hpos.
  assert (Hwf0 : wf d0).
  { destruct Hok as (? & ? & ? & ? & ? & ?). by apply wf_initialize. }
  pose proof (wf_lineOffsets d0 Hwf0) as Hlen0.
  fold (chunkCount d0) in Hlen0.
  unfold OutputFile_stream, writeHeader. rewrite Hsane. fold d0.
  change (header (set_deleteStream false d0)) with hdr.
  rewrite Hmagic, Hheader.
  change (lineOffsets (set_deleteStream false d0)) with (lineOffsets d0).
  rewrite writeLineOffsets_ok by lia.
  rewrite os_write_end by done.
  assert (Htable : lineOffsets d0
                   = replicate (Z.to_nat (chunkCount d0)) 0) by done.
  rewrite Htable, tableBytes_zero. simpl cannotOpen.
  eexists. split; [reflexivity|].
  match goal with |- wf ?st /\ _ => set (d := st) end.
  assert (Hwf : wf d) by (by apply (wf_members d0 d)).
  split; [done|]. split; [done|].
  split. { destruct Hok as (? & _). simpl. done. }
  split; [done|]. split; [done|]. split; [done|]. split; [done|].
  intros Hzero.
  pose proof (written_new d Hwf) as Hnew. cbv zeta in Hnew.
  apply Hnew.
  - done.
  - unfold tellp. simpl. done.
  - left. exact Hzero.
  - intros k off Hk. change (lineOffsets d) with (lineOffsets d0) in Hk.
    rewrite Htable in Hk. by apply lookup_replicate in Hk as [-> _].
Qed.

(** X11.  A part of another type is refused.  The constructor for a part of
    a multi-part file throws an argument error when the type of the
    part's header is not [SCANLINEIMAGE]; the message names the part by
    its number and then says that the part is type-mismatched.  For a
    part of the right type it gives the file that [initialize] makes on
    the stream that the parts share, with the part's number, its place
    for the offset table and its place for the preview image. *)
Theorem OutputFile_part_checks_type (part : OutputPartData.t) :
  let made :=
    initialize ops (OutputPartData.numThreads part)
      (OutputPartData.multipart part) (OutputPartData.mutex part)
      (OutputPartData.header part) in
  (OutputPartData.type part <> SCANLINEIMAGE ->
   OutputFile_part ops part
   = inl (Iex (ArgExc
                 (msg_cannotInitialize (OutputPartData.partNumber part)
                    msg_typeMismatch))))
  /\ (OutputPartData.type part = SCANLINEIMAGE ->
      exists d,
        OutputFile_part ops part = inr d
        /\ partNumber d = OutputPartData.partNumber part
        /\ multiPart d = OutputPartData.multipart part
        /\ _streamData d = OutputPartData.mutex part
        /\ lineOffsetsPosition d = OutputPartData.chunkOffsetTablePosition part
        /\ previewPosition d = OutputPartData.previewPosition part
        /\ d = set_previewPosition (previewPosition d)
                 (set_lineOffsetsPosition (lineOffsetsPosition d)
                    (set_partNumber (partNumber d) made))
        /\ (helpersOk ops (OutputPartData.header part) -> wf d)).
Proof.
  intros made. unfold OutputFile_part, OutputFile_part_try. split.
  - intros Hother. by rewrite decide_True.
  - intros Htype. rewrite decide_False by (by intros ?).
    eexists. split; [reflexivity|]. repeat (split; [done|]).
    intros Hok. eapply (wf_members made); [|reflexivity].
    destruct Hok as (? & ? & ? & ? & ? & ?). by apply wf_initialize.
Qed.

(** X12.  The constructor for a file name is the constructor for a stream
    on the file it opens.  When the file can be opened, the constructor
    that takes a file name gives what the constructor that takes a stream
    gives on the new stream, an error with the same message included;
    the file it makes differs only in that it owns its stream.  When the
    header passes its check and the file cannot be opened, the exception
    of the stream goes on with the message that the image file cannot be
    opened, the name of the file and its own message. *)
Theorem OutputFile_fileName_as_stream (fileName_ : string) (hdr : Header.t)
    (numThreads : Z) :
  (forall os,
     StdOFStream_new fops fileName_ = inr os ->
     OStream.fileName os = fileName_ ->
     OutputFile_fileName ops fops fileName_ hdr numThreads
     = match OutputFile_stream ops fops os hdr numThreads with
       | Some (inr d) => Some (inr (set_deleteStream true d))
       | r => r
       end)
  /\ (forall e,
        sanityCheck fops hdr = None ->
        StdOFStream_new fops fileName_ = inl e ->
        OutputFile_fileName ops fops fileName_ hdr numThreads
        = Some (inl (REPLACE_BaseExc e
                       (msg_cannotOpen fileName_ (BaseExc_what e))))).
Proof.
  split.
  - intros os Hopen Hname.
    unfold OutputFile_fileName, OutputFile_stream. rewrite Hname.
    destruct (sanityCheck fops hdr); [done|]. rewrite Hopen.
    unfold writeHeader.
    change (header (set_deleteStream _ (initialize ops numThreads false _ hdr)))
      with hdr.
    destruct (writeMagicNumberAndVersionField fops os hdr) as [e|os1];
      [done|].
    destruct (writeTo fops hdr os1) as [e|[os2 position]]; [done|].
    change (lineOffsets (set_deleteStream _ ?d)) with (lineOffsets d).
    by destruct (writeLineOffsets fops os2 _) as [[e|[os3 p]]|].
  - intros e Hsane Hopen. unfold OutputFile_fileName.
    by rewrite Hsane, Hopen.
Qed.

(** X13.  The constructor caches the position that the stream has when it
    is entered, before the header is written.  On a stream that does not
    stand at 0 this cached position is taken for the place of the first
    chunk: the first record that [writePixelData] writes into the new
    file gets the position of the constructor's entry as its offset, and
    the position cached for the next record is counted from there. *)
Theorem OutputFile_stream_entry_position (os : OStream.t) (hdr : Header.t)
    (numThreads y size : Z) (pixelData : list byte) (d d' : Data) :
  OutputFile_stream ops fops os hdr numThreads = Some (inr d) ->
  tellp os <> 0 ->
  writePixelData y pixelData size d = Some d' ->
  OutputStreamMutex.currentPosition (_streamData d) = tellp os
  /\ lineOffsets d'
     = <[Z.to_nat (Z.quot (currentScanLine d - minY d) (linesInBuffer d))
         := tellp os]> (lineOffsets d)
  /\ OutputStreamMutex.currentPosition (_streamData d')
     = tellp os + 4 + 4 + size.
Proof.
  intros Hopen Hp Hwrite.
  assert (Hd : OutputStreamMutex.currentPosition (_streamData d) = tellp os
               /\ multiPart d = false).
  { unfold OutputFile_stream, writeHeader in Hopen.
    destruct (sanityCheck fops hdr); [done|].
    destruct (writeMagicNumberAndVersionField fops os _) as [e|os1];
      [done|].
    destruct (writeTo fops _ os1) as [e|[os2 position]]; [done|].
    destruct (writeLineOffsets fops os2 _) as [[e|[os3 p]]|]; [done| |done].
    simpl in Hopen. by simplify_eq. }
  destruct Hd as [Hcache Hsingle]. split; [done|].
  unfold writePixelData in Hwrite. rewrite Hcache, Hsingle in Hwrite.
  destruct (decide (tellp os = 0)); [done|].
  destruct (decide (linesInBuffer d = 0)); [done|].
  unfold assign in Hwrite.
  destruct (decide (0 <= _ < _)); [|done].
  cbn [mbind option_bind] in Hwrite.
  destruct (decide (0 <= size <= _)); [|done].
  by simplify_eq.
Qed.

End Lifecycle.

(** * Examples *)

Lemma Example_wf_fresh (format_ : Format) (compressor : option Compressor)
    (numThreads lines : Z) (order : LineOrder) :
  1 <= lines < 2 ^ 32 ->
  (forall compress, compressor = Some compress ->
   forall block y, exists compPtr, compress block y = inr compPtr) ->
  wf (Example.fresh (Example.ops format_ compressor) numThreads lines order).
Proof.
  intros Hlines Hrel. unfold Example.fresh.
  apply wf_initialize; simpl; try lia; [| |done].
  - unfold Example.bytesPerLines. simpl.
    rewrite length_imap, length_replicate. lia.
  - intros i off Hi. rewrite list_lookup_imap in Hi.
    destruct (Example.bytesPerLines _ !! i); [|done].
    simpl in Hi. simplify_eq.
    pose proof (Z.mod_pos_bound (Z.of_nat i) 4). lia.
Qed.

Lemma Example_wf_bound (format_ : Format) (compressor : option Compressor)
    (numThreads lines : Z) (order : LineOrder) :
  1 <= lines < 2 ^ 32 ->
  (forall compress, compressor = Some compress ->
   forall block y, exists compPtr, compress block y = inr compPtr) ->
  wf (Example.bound (Example.ops format_ compressor) numThreads lines order)
  /\ slices (Example.bound (Example.ops format_ compressor) numThreads lines
               order) <> []
  /\ missingScanLines
       (Example.bound (Example.ops format_ compressor) numThreads lines order)
     = lines.
Proof.
  intros Hlines Hrel.
  pose proof (Example_wf_fresh format_ compressor numThreads lines order
                Hlines Hrel) as Hwf.
  unfold Example.bound.
  destruct (setFrameBuffer Example.frameBuffer _) as [d'|e d'|] eqn:Hset;
    [|by vm_compute in Hset..].
  destruct (wf_setFrameBuffer _ _ _ Hwf Hset) as (Hwf' & Hm & Hs).
  split; [done|]. split.
  - intros Hnil. rewrite Hnil in Hs. simpl in Hs. done.
  - rewrite Hm. simpl. lia.
Qed.

Lemma Example_same_reliable (compress : Compressor) :
  Some Example.same = Some compress ->
  forall block y, exists compPtr, compress block y = inr compPtr.
Proof. intros [= <-] block y. by exists block. Qed.

Lemma Example_helpersOk (format_ : Format) (compressor : option Compressor)
    (lines : Z) (order : LineOrder) :
  1 <= lines < 2 ^ 32 ->
  (forall compress, compressor = Some compress ->
   forall block y, exists compPtr, compress block y = inr compPtr) ->
  helpersOk (Example.ops format_ compressor) (Example.hdr lines order).
Proof.
  intros Hlines Hrel. unfold helpersOk. simpl.
  split; [lia|]. split; [lia|]. split; [lia|]. split; [|split; [|done]].
  - unfold Example.bytesPerLines. simpl.
    rewrite length_imap, length_replicate. lia.
  - intros i off Hi. rewrite list_lookup_imap in Hi.
    destruct (Example.bytesPerLines _ !! i); [|done].
    simpl in Hi. simplify_eq.
    pose proof (Z.mod_pos_bound (Z.of_nat i) 4). lia.
Qed.

(** Three calls for 3, 0 and 5 scan lines on the file of eight. *)
Lemma writePixels_counts_exactly_witness :
  exists d',
    last (writeSequence Example.plain [3; 0; 5] Example.eight)
    = Some (Returned d')
    /\ missingScanLines d' = 0.
Proof.
  destruct (Example_wf_bound XDR (Some Example.same) 0 8 INCREASING_Y)
    as (Hwf & Hslices & Hm); [lia|apply Example_same_reliable|].
  destruct (writePixels_counts_exactly Example.plain [3; 0; 5] Example.eight
              Hwf Hslices)
    as (_ & _ & Hlast).
  { unfold Example.eight, Example.plain. rewrite Hm. simpl. lia. }
  apply Hlast; [done|].
  unfold Example.eight, Example.plain. rewrite Hm. reflexivity.
Defined.

(** The quick copy into the file of eight scan lines, which has two
    chunks of four. *)
Lemma copyPixels_counts_whole_chunks_witness :
  exists d',
    copyPixels Example.plain (Example.source 8 INCREASING_Y) Example.eight
    = Returned d'
    /\ missingScanLines d' = 0.
Proof.
  destruct (Example_wf_bound XDR (Some Example.same) 0 8 INCREASING_Y)
    as (Hwf & Hslices & Hm); [lia|apply Example_same_reliable|].
  destruct (copyPixels_counts_whole_chunks Example.plain
              (Example.source 8 INCREASING_Y) Example.eight Hwf)
    as (d' & Hrun & _ & Hzero).
  { intros y. by eexists. }
  { reflexivity. }
  { reflexivity. }
  exists d'. split; [exact Hrun|]. apply Hzero. reflexivity.
Defined.

(** C1, at the failing input.  The file has five scan lines in chunks of
    four and misses them all; the source has the same header and gives
    every block.  [copyPixels] returns with the counter at -3 and the
    current scan line at 8, behind the last scan line 4 of the data
    window: its loop counts four scan lines for the last chunk, which has
    one.  [writePixels] for the five scan lines of the same file counts
    the scan lines of each chunk and ends with the counter at 0 and the
    current scan line at 5.  After the copy a further call of
    [writePixels], for one scan line or for none, does not come to its
    range check: its task is outside the data window. *)
Theorem copyPixels_overcounts_last_chunk :
  copyPixels Example.plain (Example.source 5 INCREASING_Y) Example.five
  = Returned Example.copied
  /\ missingScanLines Example.five = 5
  /\ missingScanLines Example.copied = -3
  /\ currentScanLine Example.copied = 8
  /\ maxY Example.copied = 4
  /\ linesInBuffer Example.copied = 4
  /\ writePixels Example.plain 1 Example.copied = Undefined
  /\ writePixels Example.plain 0 Example.copied = Undefined
  /\ exists d',
       writePixels Example.plain 5 Example.five = Returned d'
       /\ missingScanLines d' = 0
       /\ currentScanLine d' = 5.
Proof.
  split; [vm_compute; reflexivity|].
  do 5 (split; [reflexivity|]).
  split; [vm_compute; reflexivity|]. split; [vm_compute; reflexivity|].
  eexists. split; [vm_compute; reflexivity|]. split; reflexivity.
Qed.





(** C4, at the failing input.  The compressor of the file throws.  A call
    for the four scan lines of the first chunk returns as if they had been
    written: the task has caught the exception and stored its message in
    the slot, which it leaves partially full; the loop returns at the
    partially full slot, so the slots are not looked at after the tasks
    have been joined, the flag stays set and no I/O error is thrown.  The
    cursor and the counter have moved by four lines, and neither the
    offset table nor the stream has changed. *)
Theorem writePixels_keeps_task_failure :
  exists d' lb,
    writePixels Example.broken 4 Example.doomed = Returned d'
    /\ lineBuffers d' = [lb]
    /\ LineBuffer.hasException lb = true
    /\ LineBuffer.exception lb = "compressor failed"%string
    /\ LineBuffer.partiallyFull lb = true
    /\ firstException (lineBuffers d') = Some "compressor failed"%string
    /\ currentScanLine d' = currentScanLine Example.doomed + 4
    /\ missingScanLines d' = missingScanLines Example.doomed - 4
    /\ lineOffsets d' = lineOffsets Example.doomed
    /\ _streamData d' = _streamData Example.doomed.
Proof.
  eexists _, _. split; [vm_compute; reflexivity|].
  repeat split; reflexivity.
Qed.

(** The compressor gives back the sixteen gathered bytes of the chunk,
    which is not shorter, and the file works in the machine's format: the
    two bytes of each of the eight samples change places. *)
Lemma compression_fallback_witness :
  exists done_,
    execute Example.native Example.four Example.made = Some done_
    /\ LineBuffer.partiallyFull done_ = false
    /\ LineBuffer.dataPtr done_ = OwnBuffer
    /\ LineBuffer.dataSize done_ = 16
    /\ LineBuffer.buffer Example.filled
       = [x00; x01; x02; x03; x04; x05; x06; x07;
          x08; x09; x0a; x0b; x0c; x0d; x0e; x0f]
    /\ LineBuffer.data done_
       = [x01; x00; x03; x02; x05; x04; x07; x06;
          x09; x08; x0b; x0a; x0d; x0c; x0f; x0e].
Proof.
  destruct (compression_fallback Example.native Example.four Example.made
              Example.filled 4 Example.same
              (take 16 (LineBuffer.buffer Example.filled)))
    as (done_ & Hrun & Hp & _ & Hraw).
  - vm_compute. reflexivity.
  - vm_compute. intros [_ H]. by apply H.
  - reflexivity.
  - reflexivity.
  - exists done_. split; [exact Hrun|]. split; [exact Hp|].
    destruct Hraw as (H1 & H2 & H3); [vm_compute; discriminate|].
    split; [exact H1|]. split; [exact H2|].
    split; [vm_compute; reflexivity|]. rewrite H3. vm_compute. reflexivity.
Defined.

(** A source of five scan lines for a file of eight. *)
Lemma copyPixels_checks_before_copying_witness :
  exists e reason,
    copyPixels Example.plain (Example.source 5 INCREASING_Y) Example.eight
    = Threw e Example.eight
    /\ (e = ArgExc (msg_copy "in.exr" (fileName Example.eight) reason)
        \/ e = ArgExc (msg_quickCopy "in.exr" (fileName Example.eight) reason)
        \/ e = LogicExc (msg_quickCopy "in.exr" (fileName Example.eight)
                           reason)).
Proof.
  apply (copyPixels_checks_before_copying Example.plain
           (Example.source 5 INCREASING_Y) Example.eight).
  left. vm_compute. discriminate.
Defined.

(** C9, at the failing input.  The constructor for a stream is given a
    stream that holds three bytes and stands behind them, and the header
    of eight scan lines in chunks of four.  It caches the position 3 of
    its entry and then writes the magic number, the header and the empty
    offset table, so that the stream stands at 28.  With the frame buffer
    bound, one call of [writePixels] for the eight scan lines puts the
    record of the first chunk at 28 and the record of the second chunk at
    52, and stores 3 and 27 in the offset table: neither entry is the
    position at which its record begins.  The same calls on the file that
    the constructor opens on the empty stream store 25 and 49, where the
    records are. *)
Theorem stream_offsets_miss_records :
  OutputFile_stream Example.plain Example.files Example.used
    (Example.hdr 8 INCREASING_Y) 0 = Some (inr Example.reopened)
  /\ OutputStreamMutex.currentPosition (_streamData Example.reopened) = 3
  /\ tellp (OutputStreamMutex.os (_streamData Example.reopened)) = 28
  /\ setFrameBuffer Example.frameBuffer Example.reopened
     = Returned Example.reopenedReady
  /\ writePixels Example.plain 8 Example.reopenedReady
     = Returned Example.reopenedFull
  /\ lineOffsets Example.reopenedFull = [3; 27]
  /\ (let bytes :=
        OStream.bytes (OutputStreamMutex.os (_streamData Example.reopenedFull))
      in
      length bytes = 76%nat
      /\ peek 28 24 bytes = Xdr_int 0 ++ Xdr_int 16 ++ Example.rows 0 16
      /\ peek 52 24 bytes = Xdr_int 4 ++ Xdr_int 16 ++ Example.rows 16 16)
  /\ (OutputFile_stream Example.plain Example.files Example.empty
        (Example.hdr 8 INCREASING_Y) 0 = Some (inr Example.opened)
      /\ setFrameBuffer Example.frameBuffer Example.opened
         = Returned Example.ready
      /\ writePixels Example.plain 8 Example.ready
         = Returned Example.complete
      /\ lineOffsets Example.complete = [25; 49]
      /\ (let bytes :=
            OStream.bytes (OutputStreamMutex.os (_streamData Example.complete))
          in
          peek 25 24 bytes = Xdr_int 0 ++ Xdr_int 16 ++ Example.rows 0 16
          /\ peek 49 24 bytes
             = Xdr_int 4 ++ Xdr_int 16 ++ Example.rows 16 16)).
Proof.
  split; [vm_compute; reflexivity|]. split; [reflexivity|].
  split; [reflexivity|]. split; [vm_compute; reflexivity|].
  split; [vm_compute; reflexivity|]. split; [reflexivity|].
  split. { cbv zeta. repeat split; vm_compute; reflexivity. }
  split; [vm_compute; reflexivity|]. split; [vm_compute; reflexivity|].
  split; [vm_compute; reflexivity|]. split; [reflexivity|].
  cbv zeta. split; vm_compute; reflexivity.
Qed.

(** A block of three bytes as the chunk at the cursor of
    the fresh file of eight scan lines. *)
Lemma writePixelData_record_witness :
  exists d',
    writePixelData 0 [x01; x02; x03] 3 Example.eight = Some d'
    /\ lineOffsets d' !! 0%nat = Some 8
    /\ peek 8 11 (OStream.bytes (OutputStreamMutex.os (_streamData d')))
       = Xdr_int 0 ++ Xdr_int 3 ++ [x01; x02; x03].
Proof.
  destruct (writePixelData_record 0 [x01; x02; x03] 3 Example.eight)
    as (d' & Hrun & _ & Hslot & (Hpeek & _) & _).
  - vm_compute. split; discriminate.
  - right. reflexivity.
  - vm_compute. discriminate.
  - vm_compute. split; [discriminate|reflexivity].
  - vm_compute. split; discriminate.
  - exists d'. split; [exact Hrun|]. split; [exact Hslot|]. exact Hpeek.
Defined.

(** A slice for a channel [Z] that the header of the
    example does not have. *)
Lemma setFrameBuffer_ignores_unknown_names_witness :
  exists d1 d2,
    setFrameBuffer Example.frameBuffer
      (Example.fresh Example.plain 0 8 INCREASING_Y) = Returned d1
    /\ setFrameBuffer
         (<["Z"%string := Slice.mk FLOAT 0 4 8 1 1]> Example.frameBuffer)
         (Example.fresh Example.plain 0 8 INCREASING_Y) = Returned d2
    /\ slices d2 = slices d1
    /\ length (slices d2) = 1%nat.
Proof.
  assert (Hname : forall channel,
    ("Z"%string, channel)
    ∉ Header.channels (header (Example.fresh Example.plain 0 8
                                 INCREASING_Y))).
  { intros channel Hin. apply list_elem_of_singleton in Hin. discriminate. }
  pose proof (setFrameBuffer_ignores_unknown_names Example.plain "Z"
                (Slice.mk FLOAT 0 4 8 1 1) Example.frameBuffer
                (Example.fresh Example.plain 0 8 INCREASING_Y) Hname) as H.
  destruct (setFrameBuffer Example.frameBuffer _) as [d1|e1 d1|] eqn:H1;
    [|vm_compute in H1; discriminate..].
  destruct (setFrameBuffer (<[_ := _]> _) _) as [d2|e2 d2|] eqn:H2;
    [|done..].
  destruct H as (Hs & Hl & _).
  exists d1, d2. split; [done|]. split; [done|]. split; [exact Hs|exact Hl].
Defined.

(** * More examples *)

(** The layout of the examples, entry by entry. *)
Ltac entries Hi :=
  match type of Hi with
  | Z.of_nat ?i < ?count =>
      let Hcount := fresh "Hcount" in
      assert (Hcount : count = 2) by reflexivity;
      destruct i as [|[|i]];
      [vm_compute; reflexivity|vm_compute; reflexivity
      |exfalso; rewrite Hcount in Hi; lia]
  end.

Lemma Example_written_eight :
  written Example.eight (replicate 8 x00) [].
Proof.
  split; [|reflexivity]. unfold placed.
  split; [reflexivity|]. split; [reflexivity|]. split; [by right|].
  split; [reflexivity|]. intros i Hi. entries Hi.
Qed.

Lemma Example_written_full :
  written Example.full (replicate 8 x00) Example.twoChunks.
Proof.
  split; [|reflexivity]. unfold placed.
  split; [vm_compute; reflexivity|]. split; [reflexivity|].
  split; [by right|].
  split; [reflexivity|]. intros i Hi. entries Hi.
Qed.

Lemma Example_written_complete :
  written Example.complete (Example.magic ++ [x00] ++ replicate 16 x00)
    Example.twoChunks.
Proof.
  split; [|reflexivity]. unfold placed.
  split; [vm_compute; reflexivity|]. split; [reflexivity|].
  split; [by right|].
  split; [reflexivity|]. intros i Hi. entries Hi.
Qed.

Lemma Example_wf_full : wf Example.full.
Proof.
  destruct (Example_wf_bound XDR (Some Example.same) 0 8 INCREASING_Y)
    as (Hwf & Hslices & Hm); [lia|apply Example_same_reliable|].
  destruct (writePixels_valid Example.plain 8 Example.eight Hwf Hslices)
    as (lbs' & offsets' & sd' & Hrun & Hwf').
  { unfold Example.eight, Example.plain. rewrite Hm. lia. }
  cbv zeta in Hrun, Hwf'. unfold Example.full.
  unfold Example.eight, Example.plain in *. by rewrite Hrun.
Qed.

(** The file of eight scan lines, all of them written by one call. *)
Lemma writePixels_file_layout_witness :
  wf Example.full
  /\ lineOffsetsPosition Example.full = lineOffsetsPosition Example.eight
  /\ exists more,
       written Example.full (replicate 8 x00) ([] ++ more)
       /\ headed Example.full ([] ++ more).
Proof.
  destruct (Example_wf_bound XDR (Some Example.same) 0 8 INCREASING_Y)
    as (Hwf & Hslices & Hm); [lia|apply Example_same_reliable|].
  apply (writePixels_file_layout Example.plain Example.eight Example.full
           (replicate 8 x00) [] Hwf Example_written_eight).
  - intros i chunk Hi. by rewrite lookup_nil in Hi.
  - apply (reaches_writePixels _ _ 8 Example.eight);
      [apply reaches_here|vm_compute; split; discriminate
      |vm_compute; reflexivity].
Defined.

(** A frame buffer bound to the file whose header has no channel. *)
Lemma writePixels_without_slices_witness :
  exists d',
    setFrameBuffer Example.frameBuffer
      (initialize Example.plain 0 false Example.stream Example.bare)
    = Returned d'
    /\ frameBuffer d' = Example.frameBuffer
    /\ writePixels Example.plain 8 d'
       = Threw (ArgExc (msg_writeFailed "out.exr" msg_noFrameBuffer)) d'.
Proof.
  destruct (writePixels_without_slices Example.plain 8 0 false Example.stream
              Example.bare Example.frameBuffer) as [_ H].
  apply H. reflexivity.
Defined.

(** Another frame buffer for the file that has one bound. *)
Lemma setFrameBuffer_replaces_witness :
  exists d2,
    setFrameBuffer Example.otherFrameBuffer
      (Example.fresh Example.plain 0 8 INCREASING_Y) = Returned d2
    /\ setFrameBuffer Example.otherFrameBuffer Example.eight = Returned d2.
Proof.
  pose proof (setFrameBuffer_replaces Example.frameBuffer
                Example.otherFrameBuffer
                (Example.fresh Example.plain 0 8 INCREASING_Y)
                Example.eight) as H.
  destruct (setFrameBuffer Example.otherFrameBuffer
              (Example.fresh Example.plain 0 8 INCREASING_Y))
    as [d2|e d2|] eqn:H2; [|vm_compute in H2; discriminate..].
  exists d2. split; [reflexivity|]. apply H. vm_compute. reflexivity.
Defined.

(** The file of eight scan lines after three of them have been taken. *)
Lemma cursor_follows_counter_witness :
  0 <= missingScanLines Example.begun
    <= maxY Example.begun - minY Example.begun + 1
  /\ currentScanLine Example.begun
     = (if decide (lineOrder Example.begun = INCREASING_Y)
        then minY Example.begun
             + (maxY Example.begun - minY Example.begun + 1
                - missingScanLines Example.begun)
        else maxY Example.begun
             - (maxY Example.begun - minY Example.begun + 1
                - missingScanLines Example.begun))
  /\ currentScanLine Example.begun = 3
  /\ missingScanLines Example.begun = 5.
Proof.
  destruct (cursor_follows_counter Example.plain 0 false Example.stream
              (Example.hdr 8 INCREASING_Y) Example.begun)
    as (Hm & Hc & _).
  - apply Example_helpersOk; [lia|apply Example_same_reliable].
  - apply (reaches_writePixels _ _ 3 Example.eight);
      [|vm_compute; split; discriminate|vm_compute; reflexivity].
    apply (reaches_setFrameBuffer _ _ Example.frameBuffer
             (Example.fresh Example.plain 0 8 INCREASING_Y));
      [apply reaches_here|vm_compute; reflexivity].
  - split; [exact Hm|]. split; [exact Hc|]. split; reflexivity.
Defined.

(** The four scan lines of the only chunk of the file of four, taken by
    one task, and by a task for two of them and a task for the other
    two. *)
Lemma tasks_accumulate_witness :
  let slot := default (LineBuffer.new None)
                (lineBuffers Example.four !! 0%nat) in
  let task := fun a b lb =>
    execute Example.native Example.four
      (LineBufferTask_new Example.four 0 a b lb) in
  task 0 3 slot = LineBuffer.set_scanLines 0 3 <$> (task 0 1 slot ≫= task 2 3).
Proof.
  intros slot task.
  pose proof (tasks_accumulate Example.native Example.four 0 0 1 3 slot) as H.
  cbv zeta in H. revert H.
  destruct (decide (lineOrder Example.four = INCREASING_Y)) as [_|Hn];
    [|exfalso; apply Hn; vm_compute; reflexivity].
  intros H. apply H.
  - vm_compute. reflexivity.
  - vm_compute. discriminate.
  - lia.
  - lia.
  - vm_compute. discriminate.
Defined.

(** The quick copy of a source of eight scan lines. *)
Lemma copyPixels_copies_blocks_witness :
  exists d' chunks,
    copyPixels Example.plain (Example.source 8 INCREASING_Y) Example.eight
    = Returned d'
    /\ Z.of_nat (length chunks) = chunkCount Example.eight
    /\ copiedFrom Example.plain (Example.source 8 INCREASING_Y) Example.eight
         chunks
    /\ written d' (replicate 8 x00) chunks.
Proof.
  destruct (Example_wf_bound XDR (Some Example.same) 0 8 INCREASING_Y)
    as (Hwf & Hslices & Hm); [lia|apply Example_same_reliable|].
  apply (copyPixels_copies_blocks Example.plain
           (Example.source 8 INCREASING_Y) Example.eight (replicate 8 x00)
           Hwf Example_written_eight).
  - reflexivity.
  - reflexivity.
  - intros y. by eexists.
Defined.

(** The quick copy of a source that throws for its second chunk. *)
Lemma copyPixels_stops_at_failure_witness :
  exists d' chunks,
    copyPixels Example.plain Example.torn Example.eight
    = Threw (IoExc "read failed") d'
    /\ length chunks = 1%nat
    /\ copiedFrom Example.plain Example.torn Example.eight chunks
    /\ written d' (replicate 8 x00) chunks
    /\ missingScanLines d'
       = missingScanLines Example.eight
         - Z.of_nat 1 * linesInBuffer Example.eight
    /\ currentScanLine d' = copyCursor Example.eight (Z.of_nat 1).
Proof.
  destruct (Example_wf_bound XDR (Some Example.same) 0 8 INCREASING_Y)
    as (Hwf & Hslices & Hm); [lia|apply Example_same_reliable|].
  apply (copyPixels_stops_at_failure Example.plain Example.torn Example.eight
           (replicate 8 x00) 1 (IoExc "read failed") Hwf
           Example_written_eight).
  - reflexivity.
  - reflexivity.
  - reflexivity.
  - intros [|i] Hi; [|lia]. by eexists.
  - reflexivity.
Defined.

(** Four bytes over the payload of the second chunk of the full file,
    and the same call on the file that has written nothing. *)
Lemma breakScanLine_written_witness :
  (exists d',
     breakScanLine 5 8 4 xff Example.full = Returned d'
     /\ peek 40 4 (OStream.bytes (OutputStreamMutex.os (_streamData d')))
        = [xff; xff; xff; xff]
     /\ tellp (OutputStreamMutex.os (_streamData d')) = 44)
  /\ breakScanLine 5 8 4 xff Example.eight
     = Threw (ArgExc (msg_cannotOverwrite 5 "out.exr")) Example.eight.
Proof.
  split.
  - destruct (breakScanLine_written 5 8 4 xff Example.full (replicate 8 x00)
                Example.twoChunks Example_wf_full Example_written_full)
      as [_ Hput]; [done|vm_compute; reflexivity|vm_compute; split; discriminate|].
    eexists. split; [apply Hput|]; [vm_compute; lia|lia|lia
                                   |vm_compute; discriminate|].
    split; reflexivity.
  - destruct (Example_wf_bound XDR (Some Example.same) 0 8 INCREASING_Y)
      as (Hwf & Hslices & Hm); [lia|apply Example_same_reliable|].
    destruct (breakScanLine_written 5 8 4 xff Example.eight (replicate 8 x00)
                [] Hwf Example_written_eight)
      as [Hthrow _]; [done|vm_compute; reflexivity
                     |vm_compute; split; discriminate|].
    apply Hthrow. simpl. lia.
Defined.

(** Closing the file that was opened on the empty stream and has all its
    scan lines: the table holds 25 and 49, the places of the two
    records. *)
Lemma destructor_rewrites_table_witness :
  exists os',
    OutputFile_destructor Example.files Example.complete = Some os'
    /\ lineOffsets Example.complete = [25; 49]
    /\ OStream.bytes os'
       = Example.magic ++ [x00] ++ Xdr_uint64 25 ++ Xdr_uint64 49
         ++ mjoin (chunkBytes Example.complete <$> Example.twoChunks).
Proof.
  destruct (destructor_rewrites_table Example.files Example.complete
              (Example.magic ++ [x00]) (replicate 16 x00) Example.twoChunks)
    as [_ Hclose].
  eexists. split; [apply Hclose|].
  - rewrite <- app_assoc. apply Example_written_complete.
  - done.
  - reflexivity.
  - reflexivity.
  - reflexivity.
  - reflexivity.
  - split; reflexivity.
Defined.

(** The constructor on the empty stream. *)
Lemma OutputFile_stream_opens_witness :
  exists d,
    OutputFile_stream Example.plain Example.files Example.empty
      (Example.hdr 8 INCREASING_Y) 0 = Some (inr d)
    /\ wf d
    /\ lineOffsetsPosition d = 9
    /\ written d (Example.magic ++ [x00] ++ replicate 16 x00) [].
Proof.
  destruct (OutputFile_stream_opens Example.plain Example.files Example.empty
              (os_write Example.magic Example.empty)
              (os_write [x00] (os_write Example.magic Example.empty))
              (Example.hdr 8 INCREASING_Y) 0 0)
    as (d & Hopen & Hwf & _ & _ & _ & Hpos & _ & _ & Hw).
  - apply Example_helpersOk; [lia|apply Example_same_reliable].
  - reflexivity.
  - reflexivity.
  - reflexivity.
  - reflexivity.
  - reflexivity.
  - split; reflexivity.
  - exists d. split; [exact Hopen|]. split; [exact Hwf|].
    split; [exact Hpos|]. apply Hw. reflexivity.
Defined.

(** A part whose header says that it is tiled. *)
Lemma OutputFile_part_checks_type_witness :
  OutputFile_part Example.plain (Example.part "tiledimage")
  = inl (Iex (ArgExc (msg_cannotInitialize 3 msg_typeMismatch))).
Proof.
  apply (OutputFile_part_checks_type Example.plain
           (Example.part "tiledimage")).
  vm_compute. discriminate.
Defined.

(** The file name of the examples, and the stream that it opens. *)
Lemma OutputFile_fileName_as_stream_witness :
  OutputFile_fileName Example.plain Example.files "out.exr"
    (Example.hdr 8 INCREASING_Y) 0
  = match OutputFile_stream Example.plain Example.files Example.empty
            (Example.hdr 8 INCREASING_Y) 0 with
    | Some (inr d) => Some (inr (set_deleteStream true d))
    | r => r
    end.
Proof.
  by apply (OutputFile_fileName_as_stream Example.plain Example.files
              "out.exr" (Example.hdr 8 INCREASING_Y) 0).
Defined.

(** The constructor on a stream that stands at 3, and the first chunk of
    the file it makes: the record begins at 28, the table says 3. *)
Lemma OutputFile_stream_entry_position_witness :
  exists d',
    OutputFile_stream Example.plain Example.files Example.used
      (Example.hdr 8 INCREASING_Y) 0 = Some (inr Example.reopened)
    /\ tellp (OutputStreamMutex.os (_streamData Example.reopened)) = 28
    /\ writePixelData 0 [x01; x02; x03] 3 Example.reopened = Some d'
    /\ lineOffsets d' = [3; 0]
    /\ OutputStreamMutex.currentPosition (_streamData d') = 14.
Proof.
  assert (Hopen :
    OutputFile_stream Example.plain Example.files Example.used
      (Example.hdr 8 INCREASING_Y) 0 = Some (inr Example.reopened))
    by (vm_compute; reflexivity).
  assert (Hwrite : exists d',
    writePixelData 0 [x01; x02; x03] 3 Example.reopened = Some d')
    by (eexists; vm_compute; reflexivity).
  destruct Hwrite as [d' Hwrite].
  destruct (OutputFile_stream_entry_position Example.plain Example.files
              Example.used (Example.hdr 8 INCREASING_Y) 0 0 3 [x01; x02; x03]
              Example.reopened d' Hopen)
    as (_ & Htable & Hcache); [vm_compute; discriminate|exact Hwrite|].
  exists d'. split; [exact Hopen|]. split; [reflexivity|].
  split; [exact Hwrite|]. split; [rewrite Htable; reflexivity|].
  rewrite Hcache. reflexivity.
Defined.
